(** * Tibet media corpus: the balanced-dataset assembly pipeline

    A shallow embedding of [src/create_balanced_preprocessed_dataset.py]:
    schema standardisation, year extraction, URL deduplication, text
    cleaning and tokenisation, the short-article filter, the year-stratified
    balanced sampler and the [main] driver, followed by the properties the
    specification states about them.

    Conventions of the embedding.
    - A pandas [DataFrame] is a list of column labels and a list of rows; a
      row holds one cell per column, in column order.  Column labels are
      assumed distinct, as [pd.read_csv] and [pd.concat] produce them.
    - A cell is a scalar, [NaN] (pandas' missing value), a [str] or an
      integer, or a token list.  Numeric columns hold integers or [NaN].
    - A Python [str] is a Rocq [string] read as code points U+0000..U+00FF;
      the classes [\w] and [\s] and the methods [isalpha], [lower] and
      [strip] are those of CPython on these code points.
    - Python exceptions are values of [exn]; a computation that may raise
      returns a [result].
    - Informational [print] calls are left out, the summary at the end of
      [main] included; the error print of [main], the uses of the random
      generator and the calls of [os.makedirs], [to_csv] and [to_pickle]
      are events.  An event of the write stage records that the call is
      made with these arguments; a file system that refuses it is outside
      the model. *)

From Stdlib Require Import String Ascii List ZArith Bool Arith Lia.
From Stdlib Require Import Permutation Sorted.
Import ListNotations.

Local Open Scope string_scope.
Local Open Scope list_scope.

(** ** Cells, rows and frames *)

(** What a cell read by [pd.read_csv] holds: a missing value, a [str] or a
    number. *)
Inductive scalar : Type :=
| NaN
| Str (s : string)
| Int (z : Z).

(** A cell of a frame: a scalar, or the token list that
    [preprocess_articles] stores in the [tokens] column. *)
Inductive cell : Type :=
| Val (v : scalar)
| Toks (ts : list string).

Coercion Val : scalar >-> cell.

Definition scalar_eq_dec (a b : scalar) : {a = b} + {a <> b}.
Proof.
  decide equality.
  - apply string_dec.
  - apply Z.eq_dec.
Defined.

Definition cell_eq_dec (a b : cell) : {a = b} + {a <> b}.
Proof.
  decide equality.
  - apply scalar_eq_dec.
  - apply (list_eq_dec string_dec).
Defined.

Definition cell_eqb (a b : cell) : bool :=
  if cell_eq_dec a b then true else false.

Definition row : Type := list cell.

Record DataFrame : Type := mkDataFrame {
  columns : list string;
  rows : list row
}.

(** [pd.DataFrame()] *)
Definition empty_frame : DataFrame := mkDataFrame [] [].

(** [len(df)] *)
Definition len (df : DataFrame) : nat := length (rows df).

Inductive exn : Type :=
| KeyError (key : string)
| TypeError
| ValueError (msg : string).

Inductive result (A : Type) : Type :=
| Ok (a : A)
| Raise (e : exn).
Arguments Ok {A} a.
Arguments Raise {A} e.

Definition rbind {A B : Type} (m : result A) (k : A -> result B) : result B :=
  match m with
  | Ok a => k a
  | Raise e => Raise e
  end.

(** [c in df.columns] *)
Definition has_column (c : string) (cols : list string) : bool :=
  existsb (String.eqb c) cols.

(** Position of the first column labelled [c]. *)
Fixpoint col_index (c : string) (cols : list string) : option nat :=
  match cols with
  | [] => None
  | c' :: rest =>
      if String.eqb c c' then Some 0%nat
      else option_map S (col_index c rest)
  end.

(** The cell of row [r] under column [c]; [NaN] when the frame has no such
    column (the fill value of [pd.concat] and of reindexing). *)
Definition row_get (cols : list string) (c : string) (r : row) : cell :=
  match col_index c cols with
  | Some i => nth i r NaN
  | None => NaN
  end.

(** [df[c]]: the column as a list of cells, [KeyError] when absent. *)
Definition get_column (df : DataFrame) (c : string) : result (list cell) :=
  if has_column c (columns df)
  then Ok (map (row_get (columns df) c) (rows df))
  else Raise (KeyError c).

(** [df[mask]] with the mask computed row by row. *)
Definition select_rows (p : row -> bool) (df : DataFrame) : DataFrame :=
  mkDataFrame (columns df) (filter p (rows df)).

(** ** Deduplication by URL ([main], "Remove duplicates by URL if available") *)

(** [drop_duplicates(subset=[c], keep='first')]: one pass in row order with
    the keys seen so far.  pandas hashes the key column, and in that hash
    table missing values are equal to one another. *)
Fixpoint drop_dup_rows (key : row -> cell) (seen : list cell) (rs : list row)
  : list row :=
  match rs with
  | [] => []
  | r :: rest =>
      if existsb (cell_eqb (key r)) seen
      then drop_dup_rows key seen rest
      else r :: drop_dup_rows key (key r :: seen) rest
  end.

Definition drop_duplicates (c : string) (df : DataFrame) : DataFrame :=
  mkDataFrame (columns df)
    (drop_dup_rows (row_get (columns df) c) [] (rows df)).

(** The deduplication step of [main]:
    [if 'url' in combined_df.columns: combined_df = combined_df.drop_duplicates(subset=['url'], keep='first')]. *)
Definition dedup_by_url (df : DataFrame) : DataFrame :=
  if has_column "url" (columns df) then drop_duplicates "url" df else df.

(** The url cell of a row of [df]. *)
Definition url_of (df : DataFrame) (r : row) : cell :=
  row_get (columns df) "url" r.

Definition has_url (df : DataFrame) (u : cell) (r : row) : bool :=
  cell_eqb (url_of df r) u.

(** Number of rows of [df] whose url is [u]. *)
Definition count_url (df : DataFrame) (u : cell) : nat :=
  length (filter (has_url df u) (rows df)).

(** ** Characters and regular expressions *)

Definition code (c : ascii) : N := N_of_ascii c.

Definition in_range (lo hi : N) (c : ascii) : bool :=
  (N.leb lo (code c) && N.leb (code c) hi)%bool.

Definition is_code (n : N) (c : ascii) : bool := N.eqb (code c) n.

(** [str.isspace] on one character, also the class [\s] of [re]:
    TAB..CR, FS..US, space, NEL and NBSP. *)
Definition isspace (c : ascii) : bool :=
  in_range 9 13 c || in_range 28 32 c || is_code 133 c || is_code 160 c.

(** [str.isalpha] on one character: the letters of Basic Latin and
    Latin-1. *)
Definition isalpha_char (c : ascii) : bool :=
  in_range 65 90 c || in_range 97 122 c
  || is_code 170 c || is_code 181 c || is_code 186 c
  || in_range 192 214 c || in_range 216 246 c || in_range 248 255 c.

(** [str.isalnum] on one character: letters, decimal digits, and the
    superscript digits and vulgar fractions of Latin-1. *)
Definition isalnum_char (c : ascii) : bool :=
  isalpha_char c || in_range 48 57 c
  || is_code 178 c || is_code 179 c || is_code 185 c || in_range 188 190 c.

(** The class [\w] of [re]: alphanumeric or underscore. *)
Definition is_word (c : ascii) : bool := isalnum_char c || is_code 95 c.

(** [str.lower] on one character. *)
Definition lower_char (c : ascii) : ascii :=
  if in_range 65 90 c || in_range 192 214 c || in_range 216 222 c
  then ascii_of_N (code c + 32)
  else c.

(** The regular expressions the pipeline uses: a character class, a
    literal, a greedy [+] over a class, concatenation and ordered
    alternation.  None of them matches the empty string. *)
Inductive regex : Type :=
| Class (p : ascii -> bool)
| Lit (s : string)
| Plus (p : ascii -> bool)
| Cat (r1 r2 : regex)
| Alt (r1 r2 : regex).

(** [l] without its prefix [s], when it starts with [s]. *)
Fixpoint strip_prefix (s : list ascii) (l : list ascii)
  : option (list ascii) :=
  match s, l with
  | [], _ => Some l
  | a :: s', c :: t => if Ascii.eqb a c then strip_prefix s' t else None
  | _ :: _, [] => None
  end.

(** Backtracking matcher in the order of Python's [re]: [re_match r l k]
    matches [r] at the head of [l] and hands the remaining text to the
    continuation [k]; when [k] refuses, the next way of matching [r] is
    tried, longest repetition first and left alternative first. *)
Fixpoint re_match {A : Type} (r : regex) (l : list ascii)
  (k : list ascii -> option A) : option A :=
  match r with
  | Class p =>
      match l with
      | c :: t => if p c then k t else None
      | [] => None
      end
  | Lit s =>
      match strip_prefix (list_ascii_of_string s) l with
      | Some t => k t
      | None => None
      end
  | Plus p =>
      (fix plus (l : list ascii) : option A :=
         match l with
         | c :: t =>
             if p c
             then match plus t with
                  | Some x => Some x
                  | None => k t
                  end
             else None
         | [] => None
         end) l
  | Cat r1 r2 => re_match r1 l (fun l' => re_match r2 l' k)
  | Alt r1 r2 =>
      match re_match r1 l k with
      | Some x => Some x
      | None => re_match r2 l k
      end
  end.

(** The text left after the match of [r] at the head of [l]. *)
Definition match_end (r : regex) (l : list ascii) : option (list ascii) :=
  re_match r l Some.

(** [re.sub(r, repl, text)]: scan from the left; where [r] matches, emit
    [repl] and resume after the match ([skip] counts the matched
    characters still to pass over), elsewhere copy the character. *)
Fixpoint re_sub_from (r : regex) (repl : list ascii) (skip : nat)
  (l : list ascii) : list ascii :=
  match l with
  | [] => []
  | c :: t =>
      match skip with
      | S k => re_sub_from r repl k t
      | O =>
          match match_end r l with
          | Some rest =>
              match (length l - length rest)%nat with
              | S k => repl ++ re_sub_from r repl k t
              | O => c :: re_sub_from r repl 0 t
              end
          | None => c :: re_sub_from r repl 0 t
          end
      end
  end.

Definition re_sub (r : regex) (repl : string) (text : list ascii)
  : list ascii :=
  re_sub_from r (list_ascii_of_string repl) 0 text.

(** [str.strip()] *)
Fixpoint lstrip (l : list ascii) : list ascii :=
  match l with
  | c :: t => if isspace c then lstrip t else l
  | [] => []
  end.

Definition strip (l : list ascii) : list ascii :=
  rev (lstrip (rev (lstrip l))).

(** ** Text normalisation *)

(** [r'http\S+|www\S+'] *)
Definition url_re : regex :=
  Alt (Cat (Lit "http") (Plus (fun c => negb (isspace c))))
      (Cat (Lit "www") (Plus (fun c => negb (isspace c)))).

(** [r'<[^>]+>'] *)
Definition tag_re : regex :=
  Cat (Class (Ascii.eqb "<"))
      (Cat (Plus (fun c => negb (Ascii.eqb ">" c))) (Class (Ascii.eqb ">"))).

(** The punctuation kept besides [\w] and [\s]: full stop, comma,
    exclamation mark, question mark, apostrophe, double quote (code 34) and
    hyphen. *)
Definition is_basic_punct (c : ascii) : bool :=
  existsb (Ascii.eqb c) [".";",";"!";"?";"'";"034";"-"]%char.

Definition whitelisted (c : ascii) : bool :=
  is_word c || isspace c || is_basic_punct c.

(** The negated class of the third substitution: any character that is
    neither [\w], [\s] nor kept punctuation. *)
Definition special_re : regex := Class (fun c => negb (whitelisted c)).

(** [r'\s+'] *)
Definition space_re : regex := Plus isspace.

Definition clean_chars (text : list ascii) : list ascii :=
  let text := re_sub url_re EmptyString text in
  let text := re_sub tag_re EmptyString text in
  let text := re_sub special_re " " text in
  strip (re_sub space_re " " text).

(** [clean_text(text)] *)
Definition clean_text (text : scalar) : string :=
  match text with
  | Str s => string_of_list_ascii (clean_chars (list_ascii_of_string s))
  | NaN | Int _ => EmptyString
  end.

(** [text.lower()] *)
Definition lower (s : string) : string :=
  string_of_list_ascii (map lower_char (list_ascii_of_string s)).

(** [token.isalpha()]: not empty and letters only. *)
Definition isalpha (s : string) : bool :=
  match list_ascii_of_string s with
  | [] => false
  | l => forallb isalpha_char l
  end.

Section Tokenizer.

(** NLTK's [word_tokenize] and [stopwords.words('english')]. *)
Variable word_tokenize : string -> list string.
Variable stop_words : list string.

(** [tokenize_text(text)] *)
Definition tokenize_text (text : string) : list string :=
  if String.eqb text EmptyString then []
  else
    filter
      (fun token =>
         isalpha token
         && negb (existsb (String.eqb token) stop_words)
         && Nat.ltb 2 (String.length token))
      (word_tokenize (lower text)).

End Tokenizer.

(** ** Column operations *)

(** A row cut or padded with [NaN] to [n] cells. *)
Definition fit (n : nat) (r : row) : row :=
  firstn n (r ++ repeat (Val NaN) n).

Fixpoint set_nth (i : nat) (v : cell) (r : row) : row :=
  match i, r with
  | O, _ :: t => v :: t
  | S j, c :: t => c :: set_nth j v t
  | _, [] => []
  end.

(** [df[c] = values], one value per row: overwrites the column when it
    exists and appends it otherwise. *)
Definition set_column (c : string) (values : list cell) (df : DataFrame)
  : DataFrame :=
  let n := length (columns df) in
  match col_index c (columns df) with
  | Some i =>
      mkDataFrame (columns df)
        (map (fun rv => set_nth i (snd rv) (fit n (fst rv)))
             (combine (rows df) (fit (len df) values)))
  | None =>
      mkDataFrame (columns df ++ [c])
        (map (fun rv => fit n (fst rv) ++ [snd rv])
             (combine (rows df) (fit (len df) values)))
  end.

(** [df[c] = v] with a single value for every row. *)
Definition set_column_const (c : string) (v : cell) (df : DataFrame)
  : DataFrame :=
  set_column c (repeat v (len df)) df.

(** The labels of [pd.concat(frames)]: their union, in order of first
    appearance. *)
Definition union_columns (frames : list DataFrame) : list string :=
  fold_left
    (fun acc df =>
       acc ++ filter (fun c => negb (has_column c acc)) (columns df))
    frames [].

(** A row of a frame with labels [cols] laid out under [new_cols]. *)
Definition reindex (cols new_cols : list string) (r : row) : row :=
  map (fun c => row_get cols c r) new_cols.

Definition concat_frames (frames : list DataFrame) : DataFrame :=
  let cols := union_columns frames in
  mkDataFrame cols
    (flat_map (fun df => map (reindex (columns df) cols) (rows df)) frames).

(** [pd.concat(frames, ignore_index=True)] *)
Definition pd_concat (frames : list DataFrame) : result DataFrame :=
  match frames with
  | [] => Raise (ValueError "No objects to concatenate")
  | _ => Ok (concat_frames frames)
  end.

(** [df[labels]] for labels known to be present. *)
Definition project (labels : list string) (df : DataFrame) : DataFrame :=
  mkDataFrame labels (map (reindex (columns df) labels) (rows df)).

(** ** The world of a run: generator state, clock, files and events *)

(** State of numpy's global generator: set from operating-system entropy
    when numpy is imported, replaced by [np.random.seed]. *)
Inductive rng_state : Type :=
| Unseeded (entropy : N)
| Seeded (seed : Z).

Inductive event : Type :=
| Timestamp (now : Z)
| Printed (msg : string)
| Sampled (seed : Z) (population size : nat)
| MadeDirs (path : string)
| WroteCsv (path : string) (df : DataFrame)
| WrotePickle (path : string) (df : DataFrame).

(** [directories] lists each existing raw-data directory with its entries;
    an entry carries what [pd.read_csv] returns for it, [None] when reading
    raises.  [trace] holds the events of the run, oldest first. *)
Record World : Type := mkWorld {
  np_global : rng_state;
  clock : Z;
  directories : list (string * list (string * option DataFrame));
  trace : list event
}.

(** Computations that read and change the world and may raise. *)
Definition M (A : Type) : Type := World -> World * result A.

Definition ret {A : Type} (a : A) : M A := fun w => (w, Ok a).

Definition bind {A B : Type} (m : M A) (k : A -> M B) : M B :=
  fun w =>
    match m w with
    | (w', Ok a) => k a w'
    | (w', Raise e) => (w', Raise e)
    end.

Definition lift {A : Type} (r : result A) : M A := fun w => (w, r).

Definition reads {A : Type} (f : World -> A) : M A := fun w => (w, Ok (f w)).

Definition emit (e : event) : M unit :=
  fun w =>
    (mkWorld (np_global w) (clock w) (directories w) (trace w ++ [e]), Ok tt).

Declare Scope run_scope.
Delimit Scope run_scope with run.
Notation "x <- m ;; k" := (bind m (fun x => k))
  (at level 61, m at next level, right associativity) : run_scope.
Notation "m ;; k" := (bind m (fun _ => k))
  (at level 61, right associativity) : run_scope.
Local Open Scope run_scope.

(** [np.random.seed(seed)] *)
Definition np_random_seed (seed : Z) : M unit :=
  fun w =>
    (mkWorld (Seeded seed) (clock w) (directories w) (trace w), Ok tt).

(** The value computed by a run and the events it adds. *)
Definition value_of {A : Type} (m : M A) (w : World) : result A := snd (m w).
Definition events_of {A : Type} (m : M A) (w : World) : list event :=
  trace (fst (m w)).

(** ** Loading *)

Definition BASE_PATH : string := "/Users/dhekha/Desktop/Capstone_Tibet".
Definition MIN_TOKENS : Z := 20.

Definition chinese_label : cell := Str "Chinese State Media".
Definition western_label : cell := Str "Western Media".

(** [s.endswith(suffix)] *)
Definition endswith (s suffix : string) : bool :=
  match strip_prefix (rev (list_ascii_of_string suffix))
                     (rev (list_ascii_of_string s)) with
  | Some _ => true
  | None => false
  end.

(** [os.path.exists(path)] and [os.listdir(path)] *)
Definition listdir (w : World) (path : string)
  : option (list (string * option DataFrame)) :=
  option_map snd
    (find (fun d => String.eqb (fst d) path) (directories w)).

(** One source directory: every [.csv] entry that reads without error,
    passed through [tag], the assignment of the [source] column. *)
Definition load_dir (w : World) (path : string)
  (tag : DataFrame -> DataFrame) : list DataFrame :=
  match listdir w path with
  | None => []
  | Some entries =>
      flat_map
        (fun entry =>
           if endswith (fst entry) ".csv"
           then match snd entry with
                | Some df => [tag df]
                | None => []
                end
           else [])
        entries
  end.

(** [load_chinese_state_media()] *)
Definition load_chinese_state_media (w : World) : DataFrame :=
  let all_articles :=
    load_dir w (BASE_PATH ++ "/data/raw/china_daily")
      (set_column_const "source" (Str "China Daily"))
    ++ load_dir w (BASE_PATH ++ "/data/raw/xinhua")
      (set_column_const "source" (Str "Xinhua"))
    ++ load_dir w (BASE_PATH ++ "/data/raw/ecns")
      (set_column_const "source" (Str "ECNS"))
    ++ load_dir w (BASE_PATH ++ "/data/raw/global_times")
      (set_column_const "source" (Str "Global Times")) in
  match all_articles with
  | [] => empty_frame
  | _ =>
      set_column_const "source_category" chinese_label
        (concat_frames all_articles)
  end.

(** The [source] column of a GDELT extract. *)
Definition gdelt_source (df : DataFrame) : DataFrame :=
  if has_column "source_name" (columns df)
  then set_column "source"
         (map (row_get (columns df) "source_name") (rows df)) df
  else if negb (has_column "source" (columns df))
  then set_column_const "source" (Str "Western Media") df
  else df.

(** [load_western_media()] *)
Definition load_western_media (w : World) : DataFrame :=
  let all_articles :=
    load_dir w (BASE_PATH ++ "/data/raw/guardian")
      (set_column_const "source" (Str "The Guardian"))
    ++ load_dir w (BASE_PATH ++ "/data/raw/gdelt_western") gdelt_source in
  match all_articles with
  | [] => empty_frame
  | _ =>
      set_column_const "source_category" western_label
        (concat_frames all_articles)
  end.

(** ** Schema standardisation *)

(** The dictionary [column_mapping], in insertion order. *)
Definition column_mapping : list (string * string) :=
  [ ("title", "headline");
    ("Title", "headline");
    ("headline", "headline");
    ("Headline", "headline");
    ("body", "body_text");
    ("Body", "body_text");
    ("body_text", "body_text");
    ("text", "body_text");
    ("content", "body_text");
    ("article_text", "body_text");
    ("date", "publication_date");
    ("Date", "publication_date");
    ("publication_date", "publication_date");
    ("pub_date", "publication_date");
    ("seendate", "publication_date") ].

(** [df.rename(columns={old_name: new_name})]: the label changes, the cells
    stay where they are. *)
Definition rename_label (old_name new_name c : string) : string :=
  if String.eqb c old_name then new_name else c.

Definition rename (old_name new_name : string) (df : DataFrame) : DataFrame :=
  mkDataFrame (map (rename_label old_name new_name) (columns df)) (rows df).

(** One turn of the loop of [standardize_columns]. *)
Definition standardize_step (df : DataFrame) (entry : string * string)
  : DataFrame :=
  let (old_name, new_name) := entry in
  if has_column old_name (columns df)
     && negb (has_column new_name (columns df))
  then rename old_name new_name df
  else df.

(** [standardize_columns(df)] *)
Definition standardize_columns (df : DataFrame) : DataFrame :=
  fold_left standardize_step column_mapping df.

(** ** Year extraction *)

Section YearExtraction.

(** [pd.to_datetime(column, errors='coerce').dt.year], which may raise. *)
Variable to_datetime_year : list cell -> result (list cell).

(** The loop over the candidate date columns: the first one present whose
    conversion does not raise gives the [year] column. *)
Fixpoint year_from (candidates : list string) (df : DataFrame)
  : DataFrame :=
  match candidates with
  | [] => df
  | date_col :: rest =>
      if has_column date_col (columns df)
      then
        match to_datetime_year
                (map (row_get (columns df) date_col) (rows df)) with
        | Ok years => set_column "year" years df
        | Raise _ => year_from rest df
        end
      else year_from rest df
  end.

(** [extract_year(df)] *)
Definition extract_year (df : DataFrame) : DataFrame :=
  if has_column "year" (columns df) then df
  else if has_column "publication_date" (columns df)
  then year_from ["publication_date"; "seendate"; "date"] df
  else df.

End YearExtraction.

(** ** Row selection by a column test *)

(** Keep the rows whose test is [true]; a test that raises aborts. *)
Fixpoint filter_rows (test : row -> result bool) (rs : list row)
  : result (list row) :=
  match rs with
  | [] => Ok []
  | r :: rest =>
      rbind (test r) (fun keep =>
      rbind (filter_rows test rest) (fun kept =>
      Ok (if keep then r :: kept else kept)))
  end.

(** The row test of a selection, with a raised test read as [false]. *)
Definition passes (test : row -> result bool) (r : row) : bool :=
  match test r with
  | Ok b => b
  | Raise _ => false
  end.

(** [df[test(df[c])]] with the test applied cell by cell. *)
Definition where_ (df : DataFrame) (c : string) (test : cell -> result bool)
  : result DataFrame :=
  if has_column c (columns df)
  then rbind (filter_rows (fun r => test (row_get (columns df) c r)) (rows df))
         (fun kept => Ok (mkDataFrame (columns df) kept))
  else Raise (KeyError c).

(** [cell == v] *)
Definition cell_is (v : cell) (c : cell) : result bool := Ok (cell_eqb c v).

(** [cell >= n]: false on a missing value, a [TypeError] on a cell that is
    no number. *)
Definition cell_ge (n : Z) (c : cell) : result bool :=
  match c with
  | Val (Int z) => Ok (Z.leb n z)
  | Val NaN => Ok false
  | _ => Raise TypeError
  end.

(** [cell.between(lo, hi)] *)
Definition cell_between (lo hi : Z) (c : cell) : result bool :=
  match c with
  | Val (Int z) => Ok (Z.leb lo z && Z.leb z hi)
  | Val NaN => Ok false
  | _ => Raise TypeError
  end.

(** ** Preprocessing and the short-article filter *)

(** [clean_text(value)] for any value of a cell, as [Series.apply] calls
    it.  On a list [pd.isna] returns an array and line 43 takes its truth
    value: that of its element when the array has one element (either way
    the empty string is returned, a list being no [str]), and a
    [ValueError] when it is empty (NumPy 2.2 and later) or has two
    elements or more. *)
Definition apply_clean_text (c : cell) : result string :=
  match c with
  | Val v => Ok (clean_text v)
  | Toks [] =>
      Raise (ValueError "The truth value of an empty array is ambiguous")
  | Toks [_] => Ok EmptyString
  | Toks (_ :: _ :: _) =>
      Raise (ValueError "The truth value of an array is ambiguous")
  end.

Fixpoint map_result {A B : Type} (f : A -> result B) (l : list A)
  : result (list B) :=
  match l with
  | [] => Ok []
  | a :: rest =>
      rbind (f a) (fun b =>
      rbind (map_result f rest) (fun bs => Ok (b :: bs)))
  end.

Section Preprocessing.

Variable word_tokenize : string -> list string.
Variable stop_words : list string.

(** [preprocess_articles(df)] *)
Definition preprocess_articles (df : DataFrame) : result DataFrame :=
  match find (fun c => has_column c (columns df))
             ["body_text"; "text"; "content"; "body"] with
  | None => Ok df
  | Some text_col =>
      rbind (map_result apply_clean_text
               (map (row_get (columns df) text_col) (rows df)))
        (fun cleaned =>
           let tokens :=
             map (tokenize_text word_tokenize stop_words) cleaned in
           let df := set_column "clean_text" (map (fun s => Val (Str s)) cleaned) df in
           let df := set_column "tokens" (map Toks tokens) df in
           Ok (set_column "token_count"
                 (map (fun ts => Val (Int (Z.of_nat (length ts)))) tokens)
                 df))
  end.

End Preprocessing.

(** [filter_short_articles(df, min_tokens)] *)
Definition filter_short_articles (df : DataFrame) (min_tokens : Z)
  : result DataFrame :=
  where_ df "token_count" (cell_ge min_tokens).

(** ** The balanced sampler *)

(** [sorted(set(...))] on integers: insertion that skips a value already
    there. *)
Fixpoint insert_year (y : Z) (l : list Z) : list Z :=
  match l with
  | [] => [y]
  | x :: rest =>
      if Z.ltb y x then y :: l
      else if Z.eqb y x then l
      else x :: insert_year y rest
  end.

Definition sorted_unique (l : list Z) : list Z :=
  fold_right insert_year [] l.

(** The numbers of a column after [dropna()]; a [TypeError] when a cell
    that is not missing is no number (sorting and comparing would raise). *)
Fixpoint numbers_of (col : list cell) : result (list Z) :=
  match col with
  | [] => Ok []
  | Val (Int z) :: rest => rbind (numbers_of rest) (fun zs => Ok (z :: zs))
  | Val NaN :: rest => numbers_of rest
  | _ :: _ => Raise TypeError
  end.

(** [years = sorted(df['year'].dropna().unique())] followed by
    [[int(y) for y in years if 2017 <= y <= 2024]]. *)
Definition available_years (df : DataFrame) : result (list Z) :=
  rbind (get_column df "year") (fun col =>
  rbind (numbers_of col) (fun ys =>
  Ok (filter (fun y => Z.leb 2017 y && Z.leb y 2024) (sorted_unique ys)))).

Section Sampler.

(** [np.random.RandomState(seed).permutation(n)]: the permutation of
    [range(n)] that a generator freshly seeded with [seed] draws. *)
Variable np_permutation : Z -> nat -> list nat.

(** The rows that [df.sample(n=n, random_state=seed)] takes: pandas seeds
    a generator of its own with [seed] and takes the rows at the first [n]
    positions of its permutation of the row positions, in that order. *)
Definition take_sample (df : DataFrame) (n : nat) (seed : Z) : DataFrame :=
  mkDataFrame (columns df)
    (map (fun i => nth i (rows df) [])
         (firstn n (np_permutation seed (len df)))).

(** [df.sample(n=n, random_state=seed)] *)
Definition sample (df : DataFrame) (n : nat) (seed : Z) : M DataFrame :=
  if Nat.ltb (len df) n
  then lift (Raise (ValueError
         "Cannot take a larger sample than population when 'replace=False'"))
  else
    emit (Sampled seed (len df) n) ;;
    ret (take_sample df n seed).

(** The loop of [create_balanced_dataset] over the years. *)
Fixpoint sample_years (chinese_df western_df : DataFrame)
  (random_state : Z) (years : list Z) : M (list DataFrame) :=
  match years with
  | [] => ret []
  | year :: rest =>
      chinese_year <-
        lift (where_ chinese_df "year" (cell_is (Val (Int year)))) ;;
      western_year <-
        lift (where_ western_df "year" (cell_is (Val (Int year)))) ;;
      let n_chinese := len chinese_year in
      let n_western := len western_year in
      let n_sample := Nat.min n_chinese n_western in
      if Nat.ltb 0 n_sample
      then
        chinese_sample <- sample chinese_year n_sample random_state ;;
        western_sample <- sample western_year n_sample random_state ;;
        later <- sample_years chinese_df western_df random_state rest ;;
        ret (chinese_sample :: western_sample :: later)
      else sample_years chinese_df western_df random_state rest
  end.

(** [create_balanced_dataset(df, random_state)] *)
Definition create_balanced_dataset (df : DataFrame) (random_state : Z)
  : M DataFrame :=
  np_random_seed random_state ;;
  chinese_df <- lift (where_ df "source_category" (cell_is chinese_label)) ;;
  western_df <- lift (where_ df "source_category" (cell_is western_label)) ;;
  years <- lift (available_years df) ;;
  balanced_samples <- sample_years chinese_df western_df random_state years ;;
  lift (pd_concat balanced_samples).

End Sampler.

(** ** The driver *)

Definition csv_columns : list string :=
  ["headline"; "body_text"; "clean_text"; "source"; "source_category";
   "publication_date"; "year"; "url"; "token_count"].

Definition load_error : string :=
  String "010" "ERROR: Could not load data from one or both sources!".

Section Driver.

Variable word_tokenize : string -> list string.
Variable stop_words : list string.
Variable to_datetime_year : list cell -> result (list cell).
Variable np_permutation : Z -> nat -> list nat.

(** [main()]; it returns [None] after the load error and the balanced
    frame at the end of a complete run. *)
Definition main : M (option DataFrame) :=
  now <- reads clock ;;
  emit (Timestamp now) ;;
  chinese_df <- reads load_chinese_state_media ;;
  western_df <- reads load_western_media ;;
  if Nat.eqb (len chinese_df) 0 || Nat.eqb (len western_df) 0
  then
    emit (Printed load_error) ;;
    ret None
  else
    combined_df <- lift (pd_concat [chinese_df; western_df]) ;;
    let combined_df := standardize_columns combined_df in
    let combined_df := extract_year to_datetime_year combined_df in
    combined_df <- lift (where_ combined_df "year" (cell_between 2017 2024)) ;;
    let combined_df := dedup_by_url combined_df in
    combined_df <-
      lift (preprocess_articles word_tokenize stop_words combined_df) ;;
    filtered_df <- lift (filter_short_articles combined_df MIN_TOKENS) ;;
    balanced_df <- create_balanced_dataset np_permutation filtered_df 42 ;;
    let output_dir := (BASE_PATH ++ "/data/processed")%string in
    emit (MadeDirs output_dir) ;;
    let csv_cols :=
      filter (fun c => has_column c (columns balanced_df)) csv_columns in
    emit (WroteCsv (output_dir ++ "/balanced_preprocessed.csv")%string
            (project csv_cols balanced_df)) ;;
    emit (WrotePickle (output_dir ++ "/balanced_preprocessed.pkl")%string
            balanced_df) ;;
    ret (Some balanced_df).

End Driver.

(** ** Cleaning, scan by scan *)

(** The text without its leading characters of class [p]. *)
Fixpoint skip_while (p : ascii -> bool) (l : list ascii) : list ascii :=
  match l with
  | c :: t => if p c then skip_while p t else l
  | [] => []
  end.

Definition nonspace (c : ascii) : bool := negb (isspace c).

(** The text starts with [prefix] followed by a character that is no
    whitespace. *)
Definition continues (prefix : string) (l : list ascii) : bool :=
  match strip_prefix (list_ascii_of_string prefix) l with
  | Some (c :: _) => nonspace c
  | _ => false
  end.

(** A URL-like substring starts here: [http] or [www] followed by a
    character that is no whitespace.  It extends to the next whitespace or
    to the end of the text. *)
Definition starts_url (l : list ascii) : bool :=
  continues "http" l || continues "www" l.

(** Strip the URL-like substrings; [inside] tells that the scan is within
    one. *)
Fixpoint delete_urls (inside : bool) (l : list ascii) : list ascii :=
  match l with
  | [] => []
  | c :: t =>
      if isspace c then c :: delete_urls false t
      else if inside || starts_url l then delete_urls true t
      else c :: delete_urls false t
  end.

(** A character other than [>]. *)
Definition not_gt (c : ascii) : bool := negb (Ascii.eqb ">" c).

(** An HTML tag starts here: [<], a character other than [>], and a [>]
    somewhere behind it.  The tag ends at the first [>]. *)
Definition opens_tag (l : list ascii) : bool :=
  match l with
  | a :: c :: t =>
      Ascii.eqb "<" a && negb (Ascii.eqb ">" c) && existsb (Ascii.eqb ">") t
  | _ => false
  end.

(** Strip the tags; [inside] tells that the scan is within one. *)
Fixpoint delete_tags (inside : bool) (l : list ascii) : list ascii :=
  match l with
  | [] => []
  | c :: t =>
      if inside
      then if Ascii.eqb ">" c then delete_tags false t else delete_tags true t
      else if opens_tag l then delete_tags true t
      else c :: delete_tags false t
  end.

(** Every character outside the whitelist gives way to a space. *)
Definition blank_specials (l : list ascii) : list ascii :=
  map (fun c => if whitelisted c then c else " "%char) l.

(** Every run of whitespace becomes one space; [after_space] tells that
    the run has begun. *)
Fixpoint collapse_spaces (after_space : bool) (l : list ascii) : list ascii :=
  match l with
  | [] => []
  | c :: t =>
      if isspace c
      then if after_space then collapse_spaces true t
           else " "%char :: collapse_spaces true t
      else c :: collapse_spaces false t
  end.

(** The four substitutions of [clean_text] as scans of the text: strip
    URL-like substrings, strip tags, put a space where a character is not
    whitelisted, collapse whitespace, trim. *)
Definition clean_steps (text : list ascii) : list ascii :=
  strip
    (collapse_spaces false
       (blank_specials (delete_tags false (delete_urls false text)))).










(** ** The standardiser, field by field *)

Definition canonical_fields : list string :=
  ["headline"; "body_text"; "publication_date"].

(** The aliases of a canonical field: the other labels that
    [column_mapping] sends to it, in the order of the dictionary. *)
Definition aliases_of (canon : string) : list string :=
  map fst
    (filter (fun e => String.eqb (snd e) canon && negb (String.eqb (fst e) canon))
       column_mapping).

(** The first alias of [canon] among the labels [cols]. *)
Definition first_alias (cols : list string) (canon : string) : option string :=
  find (fun a => has_column a cols) (aliases_of canon).

(** What becomes of label [c] on account of the field [canon]: when
    [canon] is no label of the frame and [c] is its first alias present,
    [c] becomes [canon]; otherwise [c] stays. *)
Definition rename_to (cols : list string) (canon c : string) : string :=
  if has_column canon cols then c
  else match first_alias cols canon with
       | Some a => if String.eqb c a then canon else c
       | None => c
       end.

(** The label of column [c] after standardising a frame with labels
    [cols]. *)
Definition standard_label (cols : list string) (c : string) : string :=
  fold_left (fun c canon => rename_to cols canon c) canonical_fields c.

(** The loop of [standardize_columns] on the labels alone. *)
Definition step_labels (cols : list string) (entry : string * string)
  : list string :=
  let (old_name, new_name) := entry in
  if has_column old_name cols && negb (has_column new_name cols)
  then map (rename_label old_name new_name) cols
  else cols.

(** ** Counting by category and year *)

Definition category_of (df : DataFrame) (r : row) : cell :=
  row_get (columns df) "source_category" r.

Definition year_of (df : DataFrame) (r : row) : cell :=
  row_get (columns df) "year" r.

(** Number of records of [df] with category [label] and year [y]. *)
Definition count_category_year (df : DataFrame) (label : cell) (y : Z) : nat :=
  length
    (filter (fun r => cell_eqb (category_of df r) label
                      && cell_eqb (year_of df r) (Val (Int y)))
       (rows df)).

(** Year [y] appears in [df]. *)
Definition year_appears (df : DataFrame) (y : Z) : Prop :=
  exists r, In r (rows df) /\ year_of df r = Val (Int y).

(** A world after further events. *)
Definition add_events (w : World) (evs : list event) : World :=
  mkWorld (np_global w) (clock w) (directories w) (trace w ++ evs).

(** ** The frames the sampler concatenates *)

(** [df[df['source_category'] == label]] *)
Definition category_rows (df : DataFrame) (label : cell) : DataFrame :=
  select_rows (fun r => cell_eqb (category_of df r) label) df.

(** [df[df['year'] == year]] *)
Definition year_rows (df : DataFrame) (year : Z) : DataFrame :=
  select_rows (fun r => cell_eqb (year_of df r) (Val (Int year))) df.

Section SamplerValue.

Variable np_permutation : Z -> nat -> list nat.

(** The list [balanced_samples] at the end of the loop. *)
Fixpoint balanced_frames (chinese_df western_df : DataFrame)
  (random_state : Z) (years : list Z) : list DataFrame :=
  match years with
  | [] => []
  | year :: rest =>
      let chinese_year := year_rows chinese_df year in
      let western_year := year_rows western_df year in
      let n_sample := Nat.min (len chinese_year) (len western_year) in
      if Nat.ltb 0 n_sample
      then take_sample np_permutation chinese_year n_sample random_state
           :: take_sample np_permutation western_year n_sample random_state
           :: balanced_frames chinese_df western_df random_state rest
      else balanced_frames chinese_df western_df random_state rest
  end.

End SamplerValue.

(** A computation whose value and events do not depend on the world it
    runs in, and which changes nothing but the trace. *)
Definition blind {A : Type} (m : M A) : Prop :=
  exists evs r, forall w, m w = (add_events w evs, r).

(** ** Sample inputs and the statements under test *)

Definition three_articles : DataFrame :=
  mkDataFrame ["url"; "headline"]
    [ [Val (Str "http://a"); Val (Str "first")];
      [Val (Str "http://b"); Val (Str "other")];
      [Val (Str "http://a"); Val (Str "repeat")] ].

(** A url cell that is missing or the empty string. *)
Definition is_empty_url (c : cell) : bool :=
  match c with
  | Val NaN => true
  | Val (Str s) => String.eqb s EmptyString
  | _ => false
  end.

Definition empty_url_rows (df : DataFrame) : list row :=
  filter (fun r => is_empty_url (url_of df r)) (rows df).

(** What the specification says of records without a url: deduplication
    keeps every one of them. *)
Definition empty_urls_all_survive (df : DataFrame) : Prop :=
  empty_url_rows (dedup_by_url df) = empty_url_rows df.

Definition two_missing_urls : DataFrame :=
  mkDataFrame ["url"; "headline"]
    [ [Val NaN; Val (Str "one")];
      [Val NaN; Val (Str "two")] ].

Definition copies_without_url : DataFrame :=
  mkDataFrame ["headline"; "body_text"]
    [ [Val (Str "same"); Val (Str "text")];
      [Val (Str "same"); Val (Str "text")] ].

Definition scored_articles : DataFrame :=
  mkDataFrame ["headline"; "token_count"]
    [ [Val (Str "long"); Val (Int 25)];
      [Val (Str "short"); Val (Int 3)];
      [Val (Str "unscored"); Val NaN];
      [Val (Str "exact"); Val (Int 20)] ].

(** No raw-data directory exists. *)
Definition bare_world : World := mkWorld (Unseeded 7) 1700000000 [] [].

(** What the specification says of the standardiser's frame: every field
    of the input is still a field of the output. *)
Definition no_field_deleted (df : DataFrame) : Prop :=
  forall c, In c (columns df) -> In c (columns (standardize_columns df)).

Definition titled_frame : DataFrame :=
  mkDataFrame ["url"; "title"; "Title"; "text"]
    [ [Val (Str "http://a"); Val (Str "lower"); Val (Str "upper");
       Val (Str "words")] ].

(** A stand-in for [word_tokenize] on text made of words separated by
    single spaces. *)
Fixpoint split_on_space (acc : string) (l : list ascii) : list string :=
  match l with
  | [] => [acc]
  | c :: t =>
      if Ascii.eqb c " " then acc :: split_on_space EmptyString t
      else split_on_space (acc ++ String c EmptyString) t
  end.

Definition plain_words (text : string) : list string :=
  split_on_space EmptyString (list_ascii_of_string text).

Definition long_body : string :=
  "tibet plateau railway opened bringing trade tourism growth herders farmers villages schools clinics roads bridges power water markets culture heritage festival monks".

(** One extract per category, each with a single substantive article; the
    Chinese article is from 2019 and the Western one from 2021. *)
Definition china_daily_extract : DataFrame :=
  mkDataFrame ["url"; "title"; "text"; "year"]
    [ [Val (Str "http://chinadaily.example/1"); Val (Str "Railway");
       Val (Str long_body); Val (Int 2019)] ].

Definition guardian_extract : DataFrame :=
  mkDataFrame ["url"; "title"; "text"; "year"]
    [ [Val (Str "http://guardian.example/1"); Val (Str "Plateau");
       Val (Str long_body); Val (Int 2021)] ].

Definition disjoint_years_world : World :=
  mkWorld (Unseeded 11) 1700000000
    [ ((BASE_PATH ++ "/data/raw/china_daily")%string,
       [("china_daily_2019.csv", Some china_daily_extract)]);
      ((BASE_PATH ++ "/data/raw/guardian")%string,
       [("guardian_2021.csv", Some guardian_extract)]) ]
    [].

(** Articles of two years: 2021 has two Chinese and three Western
    records, 2019 has one Chinese record and no Western one. *)
Definition stratified_articles : DataFrame :=
  mkDataFrame ["url"; "source_category"; "year"; "token_count"]
    [ [Val (Str "c1"); Val (Str "Chinese State Media"); Val (Int 2021); Val (Int 30)];
      [Val (Str "w1"); Val (Str "Western Media"); Val (Int 2021); Val (Int 41)];
      [Val (Str "c2"); Val (Str "Chinese State Media"); Val (Int 2019); Val (Int 25)];
      [Val (Str "w2"); Val (Str "Western Media"); Val (Int 2021); Val (Int 52)];
      [Val (Str "c3"); Val (Str "Chinese State Media"); Val (Int 2021); Val (Int 33)];
      [Val (Str "w3"); Val (Str "Western Media"); Val (Int 2021); Val (Int 27)] ].

(** A generator whose permutation is the reversal. *)
Definition reversing (seed : Z) (n : nat) : list nat := rev (seq 0 n).

Definition stratified_balanced : DataFrame :=
  mkDataFrame ["url"; "source_category"; "year"; "token_count"]
    [ [Val (Str "c3"); Val (Str "Chinese State Media"); Val (Int 2021); Val (Int 33)];
      [Val (Str "c1"); Val (Str "Chinese State Media"); Val (Int 2021); Val (Int 30)];
      [Val (Str "w3"); Val (Str "Western Media"); Val (Int 2021); Val (Int 27)];
      [Val (Str "w2"); Val (Str "Western Media"); Val (Int 2021); Val (Int 52)] ].

(** The same two extracts, with the Western article moved to 2019. *)
Definition guardian_extract_2019 : DataFrame :=
  mkDataFrame ["url"; "title"; "text"; "year"]
    [ [Val (Str "http://guardian.example/1"); Val (Str "Plateau");
       Val (Str long_body); Val (Int 2019)] ].

Definition common_year_world : World :=
  mkWorld (Unseeded 11) 1700000000
    [ ((BASE_PATH ++ "/data/raw/china_daily")%string,
       [("china_daily_2019.csv", Some china_daily_extract)]);
      ((BASE_PATH ++ "/data/raw/guardian")%string,
       [("guardian_2019.csv", Some guardian_extract_2019)]) ]
    [].

Definition is_write (e : event) : bool :=
  match e with
  | WroteCsv _ _ | WrotePickle _ _ => true
  | _ => false
  end.

(** ** Column assignment, row by row *)

(** The row that [df[c] = values] makes of a row and its new value. *)
Definition put_cell (cols : list string) (c : string) (rv : row * cell)
  : row :=
  match col_index c cols with
  | Some i => set_nth i (snd rv) (fit (length cols) (fst rv))
  | None => fit (length cols) (fst rv) ++ [snd rv]
  end.

(** The labels after [df[c] = values]. *)
Definition columns_with (cols : list string) (c : string) : list string :=
  if has_column c cols then cols else cols ++ [c].

(** The text [clean_text] returns for a cell under [Series.apply], the
    empty string standing for a raised error. *)
Definition clean_cell (c : cell) : string :=
  match apply_clean_text c with
  | Ok s => s
  | Raise _ => EmptyString
  end.

(** The text column [preprocess_articles] picks. *)
Definition text_column (df : DataFrame) : option string :=
  find (fun c => has_column c (columns df))
       ["body_text"; "text"; "content"; "body"].

Definition raw_articles : DataFrame :=
  mkDataFrame ["url"; "body"]
    [ [Val (Str "http://a"); Val (Str "Monks walk <i>slowly</i> uphill")];
      [Val (Str "http://b"); Val NaN] ].

Definition raw_articles_preprocessed : DataFrame :=
  mkDataFrame ["url"; "body"; "clean_text"; "tokens"; "token_count"]
    [ [Val (Str "http://a"); Val (Str "Monks walk <i>slowly</i> uphill");
       Val (Str "Monks walk slowly uphill");
       Toks ["monks"; "walk"; "slowly"; "uphill"]; Val (Int 4)];
      [Val (Str "http://b"); Val NaN; Val (Str EmptyString); Toks [];
       Val (Int 0)] ].

(** What [load_dir] reads before it tags: [load_dir] with the identity in
    the place of the tag. *)
Definition readable_csv (w : World) (path : string) : list DataFrame :=
  load_dir w path (fun df => df).

(** A file name that is a stem followed by [.csv]: the name itself is
    [.csv], or the name without its first character is such a name. *)
Fixpoint csv_name (name : string) : bool :=
  match name with
  | EmptyString => false
  | String _ rest => String.eqb name ".csv" || csv_name rest
  end.

(** The records a file holds for a loader: those of the frame read from
    it when its name ends in [.csv] and reading succeeds, none otherwise. *)
Definition file_records (entry : string * option DataFrame) : nat :=
  match snd entry with
  | Some df => if csv_name (fst entry) then len df else 0%nat
  | None => 0%nat
  end.

(** The records under a directory of the file system: none when the
    directory does not exist, otherwise those of its files together. *)
Definition directory_records (w : World) (path : string) : nat :=
  match find (fun d => String.eqb (fst d) path) (directories w) with
  | Some d => list_sum (map file_records (snd d))
  | None => 0%nat
  end.

Definition chinese_directories : list string :=
  [ (BASE_PATH ++ "/data/raw/china_daily")%string;
    (BASE_PATH ++ "/data/raw/xinhua")%string;
    (BASE_PATH ++ "/data/raw/ecns")%string;
    (BASE_PATH ++ "/data/raw/global_times")%string ].

Definition western_directories : list string :=
  [ (BASE_PATH ++ "/data/raw/guardian")%string;
    (BASE_PATH ++ "/data/raw/gdelt_western")%string ].

Definition chinese_sources : list cell :=
  [ Val (Str "China Daily"); Val (Str "Xinhua"); Val (Str "ECNS");
    Val (Str "Global Times") ].

(** A world with two Xinhua files, one of them unreadable, a stray text
    file and one Guardian file. *)
Definition small_world : World :=
  mkWorld (Unseeded 3) 1700000000
    [ ((BASE_PATH ++ "/data/raw/xinhua")%string,
       [ ("a.csv", Some three_articles);
         ("broken.csv", None);
         ("notes.txt", Some two_missing_urls) ]);
      ((BASE_PATH ++ "/data/raw/guardian")%string,
       [ ("g.csv", Some copies_without_url) ]) ]
    [].

(** The test of the short-article filter on a row: a token count that is
    a number and at least [min_tokens]. *)
Definition enough_tokens (df : DataFrame) (min_tokens : Z) (r : row) : bool :=
  match row_get (columns df) "token_count" r with
  | Val (Int z) => Z.leb min_tokens z
  | _ => false
  end.

(** ** The layout of the balanced frame *)

(** The category and the year of a row of [df]. *)
Definition category_year (df : DataFrame) (r : row) : cell * cell :=
  (category_of df r, year_of df r).

(** The sample size of a year: the smaller of the two category counts. *)
Definition year_sample_size (df : DataFrame) (y : Z) : nat :=
  Nat.min (count_category_year df chinese_label y)
          (count_category_year df western_label y).

(** Year by year, as many Chinese rows as the sample size followed by as
    many Western rows. *)
Definition balanced_layout (df : DataFrame) (years : list Z)
  : list (cell * cell) :=
  flat_map
    (fun y =>
       repeat (chinese_label, Val (Int y)) (year_sample_size df y)
       ++ repeat (western_label, Val (Int y)) (year_sample_size df y))
    years.

(** Every row has one cell per label and no label occurs twice. *)
Definition well_formed (df : DataFrame) : Prop :=
  NoDup (columns df)
  /\ forall r, In r (rows df) -> length r = length (columns df).

(** ** The stages of the driver between loading and sampling *)

Section Preparation.

Variable word_tokenize : string -> list string.
Variable stop_words : list string.
Variable to_datetime_year : list cell -> result (list cell).

(** The frame [main] hands to the sampler: concatenate, standardise,
    extract the year, keep 2017..2024, deduplicate, preprocess, filter. *)
Definition prepare (chinese_df western_df : DataFrame) : result DataFrame :=
  rbind (pd_concat [chinese_df; western_df]) (fun combined_df =>
  rbind (where_ (extract_year to_datetime_year
                   (standardize_columns combined_df))
           "year" (cell_between 2017 2024)) (fun combined_df =>
  rbind (preprocess_articles word_tokenize stop_words
           (dedup_by_url combined_df)) (fun combined_df =>
  filter_short_articles combined_df MIN_TOKENS))).

End Preparation.

Definition output_dir : string := (BASE_PATH ++ "/data/processed")%string.

(** The frame written as CSV: the columns of [csv_columns] that the
    balanced frame has. *)
Definition csv_frame (balanced_df : DataFrame) : DataFrame :=
  project (filter (fun c => has_column c (columns balanced_df)) csv_columns)
          balanced_df.

(** The events at the end of a complete run. *)
Definition write_events (balanced_df : DataFrame) : list event :=
  [ MadeDirs output_dir;
    WroteCsv (output_dir ++ "/balanced_preprocessed.csv")%string
             (csv_frame balanced_df);
    WrotePickle (output_dir ++ "/balanced_preprocessed.pkl")%string
                balanced_df ].

(** The events of the write stage: the call of [os.makedirs] and the
    calls of [to_csv] and [to_pickle]. *)
Definition is_output (e : event) : bool :=
  match e with
  | MadeDirs _ | WroteCsv _ _ | WrotePickle _ _ => true
  | _ => false
  end.

(** A computation that reaches no call of the write stage, whose value and
    events do not depend on the world and which changes the trace only. *)
Definition quiet {A : Type} (m : M A) : Prop :=
  exists evs r,
    filter is_output evs = []
    /\ forall w, m w = (add_events w evs, r).

(** The labels from which [main] can get a year: the [year] column itself
    and the date columns the standardiser maps to [publication_date]. *)
Definition year_sources : list string :=
  ["year"; "publication_date"; "date"; "Date"; "pub_date"; "seendate"].

(** The labels from which [main] can get a text: [body_text] and its
    aliases. *)
Definition text_sources : list string :=
  ["body_text"; "body"; "Body"; "text"; "content"; "article_text"].

(** The frame [main] builds from what both loaders return. *)
Definition loaded (w : World) : DataFrame :=
  concat_frames [load_chinese_state_media w; load_western_media w].

(** Both categories have loaded records. *)
Definition both_loaded (w : World) : Prop :=
  Nat.eqb (len (load_chinese_state_media w)) 0
  || Nat.eqb (len (load_western_media w)) 0 = false.

(** A frame whose token count column holds a text. *)
Definition mislabelled_counts : DataFrame :=
  mkDataFrame ["headline"; "token_count"]
    [ [Val (Str "long"); Val (Int 30)];
      [Val (Str "worded"); Val (Str "many")] ].

(** One extract per category with a year and a title but no text. *)
Definition china_daily_headlines : DataFrame :=
  mkDataFrame ["url"; "title"; "year"]
    [ [Val (Str "http://chinadaily.example/1"); Val (Str "Railway");
       Val (Int 2019)] ].

Definition guardian_headlines : DataFrame :=
  mkDataFrame ["url"; "title"; "year"]
    [ [Val (Str "http://guardian.example/1"); Val (Str "Plateau");
       Val (Int 2019)] ].

Definition headlines_world : World :=
  mkWorld (Unseeded 5) 1700000000
    [ ((BASE_PATH ++ "/data/raw/china_daily")%string,
       [("china_daily_2019.csv", Some china_daily_headlines)]);
      ((BASE_PATH ++ "/data/raw/guardian")%string,
       [("guardian_2019.csv", Some guardian_headlines)]) ]
    [].

(** The frame the run on [common_year_world] returns, with a tokenizer
    that splits on spaces, no stop words, years taken as they stand and
    the reversing generator. *)
Definition common_year_balanced : DataFrame :=
  Eval vm_compute in
    match value_of (main plain_words [] (fun col => Ok col) reversing)
            common_year_world with
    | Ok (Some balanced_df) => balanced_df
    | _ => mkDataFrame [] []
    end.

(** A GDELT extract that names its outlet in [source_name]. *)
Definition gdelt_extract : DataFrame :=
  mkDataFrame ["url"; "source_name"; "source"]
    [ [Val (Str "http://bbc.example/1"); Val (Str "BBC"); Val (Str "gdelt")];
      [Val (Str "http://cnn.example/1"); Val (Str "CNN"); Val NaN] ].


(** * Properties *)

(** ** Basic facts about cells and columns *)

Lemma cell_eqb_eq (a b : cell) : cell_eqb a b = true <-> a = b.
Proof.
  unfold cell_eqb. destruct (cell_eq_dec a b); split; congruence.
Qed.

Lemma cell_eqb_refl (a : cell) : cell_eqb a a = true.
Proof. apply cell_eqb_eq. reflexivity. Qed.

Lemma cell_eqb_neq (a b : cell) : cell_eqb a b = false <-> a <> b.
Proof.
  unfold cell_eqb. destruct (cell_eq_dec a b); split; congruence.
Qed.

Lemma cell_eqb_sym (a b : cell) : cell_eqb a b = cell_eqb b a.
Proof.
  destruct (cell_eqb b a) eqn:E.
  - apply cell_eqb_eq in E. subst. apply cell_eqb_refl.
  - apply cell_eqb_neq in E. apply cell_eqb_neq. congruence.
Qed.

Lemma has_column_In (c : string) (cols : list string) :
  has_column c cols = true <-> In c cols.
Proof.
  unfold has_column. rewrite existsb_exists. split.
  - intros [x [Hin Heq]]. apply String.eqb_eq in Heq. subst. exact Hin.
  - intros Hin. exists c. split; [exact Hin | apply String.eqb_refl].
Qed.

Lemma has_column_not_In (c : string) (cols : list string) :
  has_column c cols = false <-> ~ In c cols.
Proof.
  rewrite <- has_column_In. destruct (has_column c cols); split; congruence.
Qed.

(** ** Deduplication *)

Section DropDuplicates.

Variable key : row -> cell.
Variable u : cell.

Let hit (r : row) : bool := cell_eqb (key r) u.

Lemma seen_other (seen : list cell) (r : row) :
  existsb (cell_eqb (key r)) seen = true ->
  existsb (cell_eqb u) seen = false ->
  hit r = false.
Proof.
  intros Hseen Hu. unfold hit. apply cell_eqb_neq. intros Heq.
  rewrite Heq in Hseen. congruence.
Qed.

(** A key survives once when it was not seen before and occurs at all. *)
Lemma drop_dup_rows_count (rs : list row) : forall seen,
  length (filter hit (drop_dup_rows key seen rs))
  = if existsb (cell_eqb u) seen then 0%nat
    else if existsb hit rs then 1%nat else 0%nat.
Proof.
  induction rs as [|r rest IH]; intros seen; simpl.
  - destruct (existsb (cell_eqb u) seen); reflexivity.
  - destruct (existsb (cell_eqb (key r)) seen) eqn:Hseen.
    + rewrite IH. destruct (existsb (cell_eqb u) seen) eqn:Hu; auto.
      rewrite (seen_other seen r Hseen Hu). reflexivity.
    + simpl. destruct (hit r) eqn:Hr; simpl.
      * rewrite IH. unfold hit in Hr. apply cell_eqb_eq in Hr.
        simpl. rewrite <- Hr, cell_eqb_refl, Hseen. reflexivity.
      * rewrite IH. simpl. unfold hit in Hr.
        rewrite cell_eqb_sym, Hr. reflexivity.
Qed.

(** The survivor is the first row carrying the key. *)
Lemma drop_dup_rows_find (rs : list row) : forall seen,
  find hit (drop_dup_rows key seen rs)
  = if existsb (cell_eqb u) seen then None else find hit rs.
Proof.
  induction rs as [|r rest IH]; intros seen; simpl.
  - destruct (existsb (cell_eqb u) seen); reflexivity.
  - destruct (existsb (cell_eqb (key r)) seen) eqn:Hseen.
    + rewrite IH. destruct (existsb (cell_eqb u) seen) eqn:Hu; auto.
      rewrite (seen_other seen r Hseen Hu). reflexivity.
    + simpl. destruct (hit r) eqn:Hr.
      * unfold hit in Hr. apply cell_eqb_eq in Hr.
        rewrite <- Hr, Hseen. reflexivity.
      * rewrite IH. simpl. unfold hit in Hr.
        rewrite cell_eqb_sym, Hr. reflexivity.
Qed.

(** Rows whose key nobody else carries are all kept, in order. *)
Lemma drop_dup_rows_sublist (rs : list row) : forall seen r,
  In r (drop_dup_rows key seen rs) -> In r rs.
Proof.
  induction rs as [|r0 rest IH]; intros seen r; simpl; auto.
  destruct (existsb (cell_eqb (key r0)) seen).
  - intros H. right. eapply IH. exact H.
  - intros [H | H]; [left; exact H | right; eapply IH; exact H].
Qed.

End DropDuplicates.

Lemma count_pos_exists (df : DataFrame) (u : cell) :
  (0 < count_url df u)%nat ->
  existsb (has_url df u) (rows df) = true.
Proof.
  unfold count_url. induction (rows df) as [|r rest IH]; simpl.
  - lia.
  - destruct (has_url df u r); simpl; auto.
Qed.

(** Whatever the url value, once the frame has a url column exactly the
    first of the rows carrying it is kept. *)
Lemma dedup_by_url_first (df : DataFrame) (u : cell) :
  has_column "url" (columns df) = true ->
  (0 < count_url df u)%nat ->
  count_url (dedup_by_url df) u = 1%nat
  /\ find (has_url (dedup_by_url df) u) (rows (dedup_by_url df))
     = find (has_url df u) (rows df).
Proof.
  intros Hcol Hpos. apply count_pos_exists in Hpos.
  unfold dedup_by_url. rewrite Hcol.
  unfold count_url, has_url, url_of, drop_duplicates; simpl. split.
  - rewrite drop_dup_rows_count. simpl.
    unfold has_url, url_of in Hpos. rewrite Hpos. reflexivity.
  - rewrite drop_dup_rows_find. reflexivity.
Qed.

Lemma find_hd_filter {A : Type} (p : A -> bool) (l : list A) :
  find p l = hd_error (filter p l).
Proof.
  induction l as [|a l IH]; simpl; auto.
  destruct (p a); simpl; auto.
Qed.

(** The rows kept for a url value are the first input row carrying it and
    nothing else. *)
Lemma dedup_by_url_survivor (df : DataFrame) (u : cell) :
  has_column "url" (columns df) = true ->
  (0 < count_url df u)%nat ->
  exists r,
    find (has_url df u) (rows df) = Some r
    /\ filter (has_url (dedup_by_url df) u) (rows (dedup_by_url df)) = [r].
Proof.
  intros Hcol Hpos.
  destruct (dedup_by_url_first df u Hcol Hpos) as [Hcount Hfind].
  unfold count_url in Hcount. rewrite find_hd_filter in Hfind.
  destruct (filter (has_url (dedup_by_url df) u) (rows (dedup_by_url df)))
    as [|r [|r' rest]] eqn:Hf; simpl in Hcount; try discriminate.
  exists r. split; [symmetry; exact Hfind | reflexivity].
Qed.

(** C3.  In a corpus with a url field, a url that occurs more than once
    before deduplication is carried by exactly one record afterwards, and
    that record is the first one with this url in traversal order. *)
Theorem dedup_keeps_first_occurrence (df : DataFrame) (u : cell) :
  has_column "url" (columns df) = true ->
  (1 < count_url df u)%nat ->
  count_url (dedup_by_url df) u = 1%nat
  /\ exists r,
       find (has_url df u) (rows df) = Some r
       /\ filter (has_url (dedup_by_url df) u) (rows (dedup_by_url df)) = [r].
Proof.
  intros Hcol Hmany.
  assert (Hpos : (0 < count_url df u)%nat) by lia.
  split.
  - apply dedup_by_url_first; assumption.
  - apply dedup_by_url_survivor; assumption.
Qed.

Lemma dedup_keeps_first_occurrence_witness :
  count_url (dedup_by_url three_articles) (Val (Str "http://a")) = 1%nat
  /\ exists r,
       find (has_url three_articles (Val (Str "http://a")))
            (rows three_articles) = Some r
       /\ filter (has_url (dedup_by_url three_articles) (Val (Str "http://a")))
                 (rows (dedup_by_url three_articles)) = [r].
Proof.
  apply (dedup_keeps_first_occurrence three_articles (Val (Str "http://a"))).
  - reflexivity.
  - vm_compute. lia.
Defined.

(** Two records without a url: the second is dropped as a duplicate of the
    first. *)
Lemma missing_urls_are_merged :
  ~ empty_urls_all_survive two_missing_urls.
Proof.
  unfold empty_urls_all_survive. vm_compute. discriminate.
Qed.

(** C4, as amended.  In a corpus with a url field, records whose url is
    missing are duplicates of one another like the records of any other
    url value, and so are records whose url is the empty string: of all
    records with that value only the first in traversal order survives. *)
Theorem empty_urls_deduplicated (df : DataFrame) (u : cell) :
  has_column "url" (columns df) = true ->
  is_empty_url u = true ->
  (0 < count_url df u)%nat ->
  exists r,
    find (has_url df u) (rows df) = Some r
    /\ filter (has_url (dedup_by_url df) u) (rows (dedup_by_url df)) = [r].
Proof.
  intros Hcol _ Hpos. apply dedup_by_url_survivor; assumption.
Qed.

Lemma empty_urls_deduplicated_witness :
  exists r,
    find (has_url two_missing_urls (Val NaN)) (rows two_missing_urls) = Some r
    /\ filter (has_url (dedup_by_url two_missing_urls) (Val NaN))
              (rows (dedup_by_url two_missing_urls)) = [r].
Proof.
  apply (empty_urls_deduplicated two_missing_urls (Val NaN)).
  - reflexivity.
  - reflexivity.
  - vm_compute. lia.
Defined.

(** C10.  When the combined corpus has no url column the deduplication
    step does nothing: the frame handed to preprocessing is the frame
    that came in, exact copies included. *)
Theorem dedup_skipped_without_url (df : DataFrame) :
  has_column "url" (columns df) = false ->
  dedup_by_url df = df.
Proof.
  intros Hcol. unfold dedup_by_url. rewrite Hcol. reflexivity.
Qed.

Lemma dedup_skipped_without_url_witness :
  dedup_by_url copies_without_url = copies_without_url.
Proof.
  apply (dedup_skipped_without_url copies_without_url). reflexivity.
Defined.

(** ** Row selection and the short-article filter *)

Lemma filter_rows_filter (test : row -> result bool) (rs kept : list row) :
  filter_rows test rs = Ok kept -> kept = filter (passes test) rs.
Proof.
  revert kept. induction rs as [|r rest IH]; simpl; intros kept H.
  - congruence.
  - unfold passes at 1. destruct (test r) as [b|e]; simpl in H; try discriminate.
    destruct (filter_rows test rest) as [kept'|e]; simpl in H; try discriminate.
    rewrite <- (IH kept' eq_refl). destruct b; congruence.
Qed.

Lemma filter_rows_returns (test : row -> result bool) (rs : list row) :
  (forall r, In r rs -> exists b, test r = Ok b) ->
  exists kept, filter_rows test rs = Ok kept.
Proof.
  induction rs as [|r rest IH]; simpl; intros Hall.
  - eexists. reflexivity.
  - destruct (Hall r (or_introl eq_refl)) as [b Hb]. rewrite Hb. simpl.
    destruct IH as [kept Hk]; [intros; apply Hall; auto|].
    rewrite Hk. simpl. eexists. reflexivity.
Qed.

Lemma filter_rows_cell_is (f : row -> cell) (v : cell) (rs : list row) :
  filter_rows (fun r => cell_is v (f r)) rs
  = Ok (filter (fun r => cell_eqb (f r) v) rs).
Proof.
  induction rs as [|r rest IH]; simpl; auto.
  rewrite IH. simpl. destruct (cell_eqb (f r) v); reflexivity.
Qed.

Lemma where_inv (df out : DataFrame) (c : string) (test : cell -> result bool) :
  where_ df c test = Ok out ->
  has_column c (columns df) = true
  /\ columns out = columns df
  /\ rows out
     = filter (passes (fun r => test (row_get (columns df) c r))) (rows df).
Proof.
  unfold where_. destruct (has_column c (columns df)); try discriminate.
  destruct (filter_rows _ (rows df)) as [kept|e] eqn:Hk; simpl; try discriminate.
  intros H. injection H as <-. simpl.
  apply filter_rows_filter in Hk. auto.
Qed.

Lemma where_cell_is (df : DataFrame) (c : string) (v : cell) :
  has_column c (columns df) = true ->
  where_ df c (cell_is v)
  = Ok (select_rows (fun r => cell_eqb (row_get (columns df) c r) v) df).
Proof.
  intros Hc. unfold where_. rewrite Hc, filter_rows_cell_is. reflexivity.
Qed.

(** The filter returns whenever the frame has a [token_count] column of
    numbers and missing values. *)
Lemma filter_short_articles_returns (df : DataFrame) (min_tokens : Z) :
  has_column "token_count" (columns df) = true ->
  (forall r, In r (rows df) ->
     row_get (columns df) "token_count" r = Val NaN
     \/ exists z, row_get (columns df) "token_count" r = Val (Int z)) ->
  exists out, filter_short_articles df min_tokens = Ok out.
Proof.
  intros Hc Hnum. unfold filter_short_articles, where_. rewrite Hc.
  destruct (filter_rows_returns
              (fun r => cell_ge min_tokens (row_get (columns df) "token_count" r))
              (rows df)) as [kept Hk].
  - intros r Hr. destruct (Hnum r Hr) as [E | [z E]]; rewrite E; simpl; eauto.
  - rewrite Hk. simpl. eauto.
Qed.

(** C6.  The short-article filter returns at most as many records as it
    was given, and every record it returns carries a token count that is
    at least the threshold. *)
Theorem content_filter_threshold (df out : DataFrame) (min_tokens : Z) :
  filter_short_articles df min_tokens = Ok out ->
  (len out <= len df)%nat
  /\ forall r, In r (rows out) ->
       In r (rows df)
       /\ exists z, row_get (columns out) "token_count" r = Val (Int z)
                    /\ (min_tokens <= z)%Z.
Proof.
  intros H. apply where_inv in H. destruct H as [_ [Hcols Hrows]].
  unfold len. rewrite Hrows, Hcols. split.
  - apply filter_length_le.
  - intros r Hr. apply filter_In in Hr. destruct Hr as [Hin Hpass].
    split; [exact Hin|]. unfold passes, cell_ge in Hpass.
    destruct (row_get (columns df) "token_count" r) as [[| s | z]| ts];
      try discriminate.
    exists z. split; [reflexivity | apply Z.leb_le; exact Hpass].
Qed.

Lemma content_filter_threshold_witness :
  (len (mkDataFrame ["headline"; "token_count"]
          [ [Val (Str "long"); Val (Int 25)];
            [Val (Str "exact"); Val (Int 20)] ])
   <= len scored_articles)%nat
  /\ forall r,
       In r [ [Val (Str "long"); Val (Int 25)];
              [Val (Str "exact"); Val (Int 20)] ] ->
       In r (rows scored_articles)
       /\ exists z, row_get ["headline"; "token_count"] "token_count" r
                    = Val (Int z)
                    /\ (MIN_TOKENS <= z)%Z.
Proof.
  apply (content_filter_threshold scored_articles
           (mkDataFrame ["headline"; "token_count"]
              [ [Val (Str "long"); Val (Int 25)];
                [Val (Str "exact"); Val (Int 20)] ])
           MIN_TOKENS).
  reflexivity.
Defined.

(** ** The load check of the driver *)

(** Loading reads the directories of the world and nothing else. *)
Lemma load_dir_directories (w w' : World) (path : string)
  (tag : DataFrame -> DataFrame) :
  directories w' = directories w -> load_dir w' path tag = load_dir w path tag.
Proof.
  intros H. unfold load_dir, listdir. rewrite H. reflexivity.
Qed.

Lemma load_chinese_directories (w w' : World) :
  directories w' = directories w ->
  load_chinese_state_media w' = load_chinese_state_media w.
Proof.
  intros H. unfold load_chinese_state_media.
  rewrite !(load_dir_directories w w') by exact H. reflexivity.
Qed.

Lemma load_western_directories (w w' : World) :
  directories w' = directories w ->
  load_western_media w' = load_western_media w.
Proof.
  intros H. unfold load_western_media.
  rewrite !(load_dir_directories w w') by exact H. reflexivity.
Qed.

Section LoadCheck.

Variable word_tokenize : string -> list string.
Variable stop_words : list string.
Variable to_datetime_year : list cell -> result (list cell).
Variable np_permutation : Z -> nat -> list nat.

(** C7.  When either category loads no record, [main] prints the load
    error and returns at once: the run ends in the world it started in,
    extended by the timestamp and the error line only, so nothing was
    sampled, the global generator was not seeded and no file was written. *)
Theorem missing_input_aborts (w : World) :
  len (load_chinese_state_media w) = 0%nat
  \/ len (load_western_media w) = 0%nat ->
  main word_tokenize stop_words to_datetime_year np_permutation w
  = (mkWorld (np_global w) (clock w) (directories w)
       (trace w ++ [Timestamp (clock w); Printed load_error]),
     Ok None).
Proof.
  intros Hzero.
  assert (Hcond : Nat.eqb (len (load_chinese_state_media w)) 0
                  || Nat.eqb (len (load_western_media w)) 0 = true).
  { apply orb_true_iff. destruct Hzero as [H | H]; rewrite H; auto. }
  unfold main.
  cbv beta iota delta [bind reads emit ret].
  set (w1 := mkWorld (np_global w) (clock w) (directories w)
               (trace w ++ [Timestamp (clock w)])).
  rewrite (load_chinese_directories w w1), (load_western_directories w w1)
    by reflexivity.
  rewrite Hcond. subst w1.
  cbv beta iota delta [np_global clock directories trace].
  rewrite <- app_assoc. reflexivity.
Qed.

End LoadCheck.

Lemma missing_input_aborts_witness :
  main (fun _ => []) [] (fun col => Ok col) (fun _ n => seq 0 n) bare_world
  = (mkWorld (np_global bare_world) (clock bare_world)
       (directories bare_world)
       (trace bare_world ++ [Timestamp (clock bare_world); Printed load_error]),
     Ok None).
Proof.
  apply (missing_input_aborts (fun _ => []) [] (fun col => Ok col)
           (fun _ n => seq 0 n) bare_world).
  left. reflexivity.
Defined.

(** ** Schema standardisation *)

Lemma standardize_fold (entries : list (string * string)) : forall df,
  fold_left standardize_step entries df
  = mkDataFrame (fold_left step_labels entries (columns df)) (rows df).
Proof.
  induction entries as [|[old_name new_name] rest IH]; intros [cols rs]; simpl.
  - reflexivity.
  - rewrite IH. unfold rename.
    destruct (has_column old_name cols && negb (has_column new_name cols));
      reflexivity.
Qed.

Lemma has_column_rename (old_name new_name : string) (cols : list string) :
  has_column old_name cols = true ->
  has_column new_name (map (rename_label old_name new_name) cols) = true.
Proof.
  rewrite !has_column_In. intros H. apply in_map_iff.
  exists old_name. split; [|exact H].
  unfold rename_label. rewrite String.eqb_refl. reflexivity.
Qed.

Section OneField.

Variable canon : string.

Let entries (olds : list string) : list (string * string) :=
  map (fun o => (o, canon)) olds.

Let proper (olds : list string) : list string :=
  filter (fun o => negb (String.eqb o canon)) olds.

(** Once the canonical label is there, none of its entries fires. *)
Lemma field_present (olds cols : list string) :
  has_column canon cols = true ->
  fold_left step_labels (entries olds) cols = cols.
Proof.
  intros Hc. induction olds as [|o rest IH]; simpl; auto.
  rewrite Hc, andb_false_r. exact IH.
Qed.

(** Otherwise the first alias present is renamed, and only that one. *)
Lemma field_absent (olds : list string) : forall cols,
  has_column canon cols = false ->
  fold_left step_labels (entries olds) cols
  = match find (fun a => has_column a cols) (proper olds) with
    | Some a => map (rename_label a canon) cols
    | None => cols
    end.
Proof.
  induction olds as [|o rest IH]; intros cols Hc; simpl; auto.
  rewrite Hc, andb_true_r.
  destruct (String.eqb_spec o canon) as [E | E]; simpl.
  - subst o. rewrite Hc. apply IH. exact Hc.
  - destruct (has_column o cols) eqn:Ho.
    + apply field_present. apply has_column_rename. exact Ho.
    + apply IH. exact Hc.
Qed.

End OneField.

Lemma find_ext_in {A : Type} (p q : A -> bool) (l : list A) :
  (forall x, In x l -> p x = q x) -> find p l = find q l.
Proof.
  induction l as [|a l IH]; simpl; intros H; auto.
  rewrite (H a (or_introl eq_refl)). destruct (q a); auto.
Qed.

Lemma first_alias_In (cols : list string) (canon a : string) :
  first_alias cols canon = Some a ->
  In a (aliases_of canon) /\ In a cols.
Proof.
  unfold first_alias. intros H. apply find_some in H.
  rewrite has_column_In in H. exact H.
Qed.

(** A label is changed by [rename_to] only into the canonical label, and
    only when that label is absent. *)
Lemma rename_to_cases (cols : list string) (canon c : string) :
  rename_to cols canon c = c
  \/ (rename_to cols canon c = canon
      /\ has_column canon cols = false
      /\ first_alias cols canon = Some c).
Proof.
  unfold rename_to. destruct (has_column canon cols); auto.
  destruct (first_alias cols canon) as [a|]; auto.
  destruct (String.eqb_spec c a); subst; auto.
Qed.

Lemma rename_to_fixed (cols : list string) (canon c : string) :
  ~ In c (aliases_of canon) -> rename_to cols canon c = c.
Proof.
  intros Hc. destruct (rename_to_cases cols canon c) as [E | [_ [_ E]]]; auto.
  apply first_alias_In in E. tauto.
Qed.

Lemma rename_to_first (cols : list string) (canon a : string) :
  has_column canon cols = false ->
  first_alias cols canon = Some a ->
  rename_to cols canon a = canon.
Proof.
  intros Hc Ha. unfold rename_to. rewrite Hc, Ha, String.eqb_refl. reflexivity.
Qed.

(** One field of the dictionary, handled by the loop. *)
Lemma field_labels (canon : string) (olds cols : list string) :
  filter (fun o => negb (String.eqb o canon)) olds = aliases_of canon ->
  fold_left step_labels (map (fun o => (o, canon)) olds) cols
  = map (rename_to cols canon) cols.
Proof.
  intros Holds. destruct (has_column canon cols) eqn:Hc.
  - rewrite field_present by exact Hc.
    rewrite <- (map_id cols) at 1. apply map_ext.
    intros c. unfold rename_to. rewrite Hc. reflexivity.
  - rewrite field_absent by exact Hc. rewrite Holds.
    unfold rename_to, first_alias. rewrite Hc.
    destruct (find (fun a => has_column a cols) (aliases_of canon)) as [a|].
    + apply map_ext. intros c. reflexivity.
    + symmetry. apply map_id.
Qed.

(** Renaming for one field does not disturb the labels of another. *)
Lemma has_column_rename_to (cols : list string) (canon x : string) :
  x <> canon -> ~ In x (aliases_of canon) ->
  has_column x (map (rename_to cols canon) cols) = has_column x cols.
Proof.
  intros Hx Hal.
  destruct (has_column x cols) eqn:E.
  - apply has_column_In. apply has_column_In in E. apply in_map_iff.
    exists x. split; [apply rename_to_fixed; exact Hal | exact E].
  - apply has_column_not_In. apply has_column_not_In in E.
    intros Hin. apply in_map_iff in Hin. destruct Hin as [c [Hc Hin]].
    destruct (rename_to_cases cols canon c) as [Hsame | [Hto _]];
      congruence.
Qed.

Lemma rename_to_ext (cols cols' : list string) (canon c : string) :
  (forall x, In x (canon :: aliases_of canon) ->
     has_column x cols' = has_column x cols) ->
  rename_to cols' canon c = rename_to cols canon c.
Proof.
  intros H. unfold rename_to, first_alias.
  rewrite (H canon (or_introl eq_refl)).
  rewrite (find_ext_in (fun a => has_column a cols')
             (fun a => has_column a cols)); auto.
  intros x Hx. apply H. right. exact Hx.
Qed.

(** The three fields share no label. *)
Lemma fields_apart (k k' x : string) :
  In k canonical_fields -> In k' canonical_fields -> k <> k' ->
  In x (k :: aliases_of k) -> x <> k' /\ ~ In x (aliases_of k').
Proof.
  intros Hk Hk' Hne Hx.
  assert (Hb : forallb (fun k => forallb (fun k' =>
            String.eqb k k'
            || forallb (fun x => negb (String.eqb x k')
                                 && negb (has_column x (aliases_of k')))
                 (k :: aliases_of k)) canonical_fields) canonical_fields
          = true) by (vm_compute; reflexivity).
  rewrite forallb_forall in Hb. specialize (Hb k Hk).
  rewrite forallb_forall in Hb. specialize (Hb k' Hk').
  apply orb_true_iff in Hb. destruct Hb as [Hb | Hb].
  - apply String.eqb_eq in Hb. contradiction.
  - rewrite forallb_forall in Hb. specialize (Hb x Hx).
    apply andb_true_iff in Hb. destruct Hb as [H1 H2].
    apply negb_true_iff in H1, H2. split.
    + apply String.eqb_neq. exact H1.
    + apply has_column_not_In. exact H2.
Qed.

Lemma canonical_no_alias (k k' : string) :
  In k canonical_fields -> In k' canonical_fields ->
  ~ In k (aliases_of k').
Proof.
  intros Hk Hk'.
  assert (Hb : forallb (fun k => forallb (fun k' =>
            negb (has_column k (aliases_of k'))) canonical_fields)
            canonical_fields = true) by (vm_compute; reflexivity).
  rewrite forallb_forall in Hb. specialize (Hb k Hk).
  rewrite forallb_forall in Hb. specialize (Hb k' Hk').
  apply negb_true_iff in Hb. apply has_column_not_In. exact Hb.
Qed.

(** The labels after [standardize_columns]. *)
Lemma standardize_labels (cols : list string) :
  fold_left step_labels column_mapping cols
  = map (standard_label cols) cols.
Proof.
  change column_mapping with
    (map (fun o => (o, "headline"))
         ["title"; "Title"; "headline"; "Headline"]
     ++ map (fun o => (o, "body_text"))
         ["body"; "Body"; "body_text"; "text"; "content"; "article_text"]
     ++ map (fun o => (o, "publication_date"))
         ["date"; "Date"; "publication_date"; "pub_date"; "seendate"]).
  rewrite !fold_left_app.
  rewrite (field_labels "headline") by reflexivity.
  set (cols1 := map (rename_to cols "headline") cols).
  rewrite (field_labels "body_text") by reflexivity.
  assert (H1 : forall k x, In k ["body_text"; "publication_date"] ->
            In x (k :: aliases_of k) ->
            has_column x cols1 = has_column x cols).
  { intros k x Hk Hx. unfold cols1.
    assert (Hk' : In k canonical_fields) by (simpl in *; tauto).
    assert (Hne : k <> "headline")
      by (simpl in Hk; destruct Hk as [<-|[<-|[]]]; discriminate).
    destruct (fields_apart k "headline" x Hk' (or_introl eq_refl) Hne Hx).
    apply has_column_rename_to; assumption. }
  rewrite (map_ext (rename_to cols1 "body_text") (rename_to cols "body_text"))
    by (intros c; apply rename_to_ext; intros x Hx;
        apply (H1 "body_text"); simpl; auto).
  set (cols2 := map (rename_to cols "body_text") cols1).
  rewrite (field_labels "publication_date") by reflexivity.
  assert (H2 : forall x, In x ("publication_date" :: aliases_of "publication_date") ->
            has_column x cols2 = has_column x cols).
  { intros x Hx. rewrite <- (H1 "publication_date" x) by (simpl; auto).
    unfold cols2.
    destruct (fields_apart "publication_date" "body_text" x) as [Ha Hb];
      simpl; auto; try discriminate.
    rewrite <- (map_ext (rename_to cols1 "body_text")
                  (rename_to cols "body_text"))
      by (intros c; apply rename_to_ext; intros y Hy;
          apply (H1 "body_text"); simpl; auto).
    apply has_column_rename_to; assumption. }
  rewrite (map_ext (rename_to cols2 "publication_date")
             (rename_to cols "publication_date"))
    by (intros c; apply rename_to_ext; exact H2).
  unfold cols2, cols1. rewrite !map_map. apply map_ext.
  intros c. reflexivity.
Qed.

(** A field that is present stays, and nothing is renamed into it. *)
Lemma standard_label_present (cols : list string) (canon c : string) :
  In canon canonical_fields -> In canon cols ->
  (standard_label cols c = canon <-> c = canon).
Proof.
  intros Hk Hin. apply has_column_In in Hin.
  assert (Hstay : forall k v, In k canonical_fields ->
            rename_to cols k v = canon -> v = canon).
  { intros k v _ Hv.
    destruct (rename_to_cases cols k v) as [E | [E [Habs _]]]; congruence. }
  unfold standard_label, canonical_fields. simpl. split.
  - intros H.
    apply (Hstay "publication_date") in H; [|simpl; auto].
    apply (Hstay "body_text") in H; [|simpl; auto].
    apply (Hstay "headline") in H; [|simpl; auto].
    exact H.
  - intros ->.
    assert (Hfix : forall k, In k canonical_fields ->
              rename_to cols k canon = canon)
      by (intros k Hk'; apply rename_to_fixed;
          apply canonical_no_alias; assumption).
    rewrite (Hfix "headline"), (Hfix "body_text"), (Hfix "publication_date");
      simpl; auto.
Qed.

(** The first alias present of an absent field takes the field's name. *)
Lemma standard_label_first_alias (cols : list string) (canon a : string) :
  In canon canonical_fields -> ~ In canon cols ->
  first_alias cols canon = Some a ->
  standard_label cols a = canon.
Proof.
  intros Hk Habs Ha. apply has_column_not_In in Habs.
  pose proof (first_alias_In cols canon a Ha) as [Hal _].
  assert (Hother : forall k, In k canonical_fields -> k <> canon ->
            rename_to cols k a = a /\ rename_to cols k canon = canon).
  { intros k Hk' Hne. split; apply rename_to_fixed.
    - apply (fields_apart canon k a); auto. right. exact Hal.
    - apply canonical_no_alias; assumption. }
  pose proof (rename_to_first cols canon a Habs Ha) as Hfirst.
  assert (Hself : rename_to cols canon canon = canon)
    by (apply rename_to_fixed; apply canonical_no_alias; assumption).
  unfold standard_label, canonical_fields. simpl.
  simpl in Hk. destruct Hk as [<- | [<- | [<- | []]]].
  - rewrite Hfirst.
    destruct (Hother "body_text") as [_ ->]; [simpl; auto | discriminate|].
    destruct (Hother "publication_date") as [_ ->];
      [simpl; auto | discriminate|]. reflexivity.
  - destruct (Hother "headline") as [-> _]; [simpl; auto | discriminate|].
    rewrite Hfirst.
    destruct (Hother "publication_date") as [_ ->];
      [simpl; auto | discriminate|]. reflexivity.
  - destruct (Hother "headline") as [-> _]; [simpl; auto | discriminate|].
    destruct (Hother "body_text") as [-> _]; [simpl; auto | discriminate|].
    exact Hfirst.
Qed.

(** Every other label is kept. *)
Lemma standard_label_other (cols : list string) (c : string) :
  (forall canon, In canon canonical_fields ->
     In canon cols \/ first_alias cols canon <> Some c) ->
  standard_label cols c = c.
Proof.
  intros H.
  assert (Hid : forall k, In k canonical_fields -> rename_to cols k c = c).
  { intros k Hk.
    destruct (rename_to_cases cols k c) as [E | [_ [Habs Hfa]]]; auto.
    apply has_column_not_In in Habs. destruct (H k Hk); contradiction. }
  unfold standard_label, canonical_fields. simpl.
  rewrite !Hid; simpl; auto.
Qed.

(** In [titled_frame] the column [title] is renamed to [headline], so the
    label [title] is gone from the output. *)
Lemma renamed_alias_disappears : ~ no_field_deleted titled_frame.
Proof.
  intros H. specialize (H "title").
  assert (Hin : In "title" (columns titled_frame)) by (simpl; auto).
  apply H in Hin. vm_compute in Hin.
  repeat (destruct Hin as [Hin | Hin]; [discriminate Hin|]).
  exact Hin.
Qed.

(** C9, as amended.  The standardiser changes column labels and nothing
    else: the rows are those of the input, and each label [c] becomes
    [standard_label cols c].  A canonical field that is present keeps its
    label and no other column is renamed into it; for an absent canonical
    field the first alias present, in the order of the dictionary, is
    renamed to it, so the alias label itself is no longer a label of the
    output; every other label is kept. *)
Theorem standardize_columns_renames (df : DataFrame) :
  rows (standardize_columns df) = rows df
  /\ columns (standardize_columns df)
     = map (standard_label (columns df)) (columns df)
  /\ (forall canon c,
        In canon canonical_fields -> In canon (columns df) ->
        (standard_label (columns df) c = canon <-> c = canon))
  /\ (forall canon a,
        In canon canonical_fields -> ~ In canon (columns df) ->
        first_alias (columns df) canon = Some a ->
        standard_label (columns df) a = canon)
  /\ (forall c,
        (forall canon, In canon canonical_fields ->
           In canon (columns df) \/ first_alias (columns df) canon <> Some c) ->
        standard_label (columns df) c = c).
Proof.
  unfold standardize_columns. rewrite standardize_fold.
  cbn [rows columns].
  split; [reflexivity|]. split; [apply standardize_labels|].
  split; [|split].
  - intros canon c. apply standard_label_present.
  - intros canon a. apply standard_label_first_alias.
  - intros c. apply standard_label_other.
Qed.

Lemma standardize_columns_renames_witness :
  rows (standardize_columns titled_frame) = rows titled_frame
  /\ columns (standardize_columns titled_frame)
     = ["url"; "headline"; "Title"; "body_text"].
Proof.
  destruct (standardize_columns_renames titled_frame) as [Hrows [Hcols _]].
  split; [exact Hrows | rewrite Hcols; vm_compute; reflexivity].
Defined.

(** ** Running the sampler *)

Lemma add_events_nil (w : World) : add_events w [] = w.
Proof.
  destruct w. unfold add_events. simpl. rewrite app_nil_r. reflexivity.
Qed.

Lemma add_events_app (w : World) (e1 e2 : list event) :
  add_events (add_events w e1) e2 = add_events w (e1 ++ e2).
Proof.
  unfold add_events. simpl. rewrite app_assoc. reflexivity.
Qed.

Lemma blind_ret {A : Type} (a : A) : blind (ret a).
Proof.
  exists [], (Ok a). intros w. rewrite add_events_nil. reflexivity.
Qed.

Lemma blind_lift {A : Type} (r : result A) : blind (lift r).
Proof.
  exists [], r. intros w. rewrite add_events_nil. reflexivity.
Qed.

Lemma blind_emit (e : event) : blind (emit e).
Proof.
  exists [e], (Ok tt). intros w. reflexivity.
Qed.

Lemma blind_bind {A B : Type} (m : M A) (k : A -> M B) :
  blind m -> (forall a, blind (k a)) -> blind (bind m k).
Proof.
  intros [evs [r Hm]] Hk. destruct r as [a | e].
  - destruct (Hk a) as [evs' [r' Hka]].
    exists (evs ++ evs'), r'. intros w. unfold bind.
    rewrite Hm, Hka, add_events_app. reflexivity.
  - exists evs, (Raise e). intros w. unfold bind. rewrite Hm. reflexivity.
Qed.

Section SamplerRuns.

Variable np_permutation : Z -> nat -> list nat.

Lemma blind_sample (df : DataFrame) (n : nat) (seed : Z) :
  blind (sample np_permutation df n seed).
Proof.
  unfold sample. destruct (Nat.ltb (len df) n).
  - apply blind_lift.
  - apply blind_bind; [apply blind_emit | intros; apply blind_ret].
Qed.

Lemma blind_sample_years (chinese_df western_df : DataFrame) (seed : Z)
  (years : list Z) :
  blind (sample_years np_permutation chinese_df western_df seed years).
Proof.
  induction years as [|year rest IH]; simpl.
  - apply blind_ret.
  - apply blind_bind; [apply blind_lift | intros chinese_year].
    apply blind_bind; [apply blind_lift | intros western_year].
    destruct (Nat.ltb 0 (Nat.min (len chinese_year) (len western_year))).
    + apply blind_bind; [apply blind_sample | intros cs].
      apply blind_bind; [apply blind_sample | intros ws].
      apply blind_bind; [exact IH | intros later]. apply blind_ret.
    + exact IH.
Qed.

(** A sample no larger than the frame is taken without error. *)
Lemma sample_run (df : DataFrame) (n : nat) (seed : Z) (w : World) :
  (n <= len df)%nat ->
  sample np_permutation df n seed w
  = (add_events w [Sampled seed (len df) n],
     Ok (take_sample np_permutation df n seed)).
Proof.
  intros Hn. unfold sample.
  destruct (Nat.ltb (len df) n) eqn:E.
  - apply Nat.ltb_lt in E. lia.
  - reflexivity.
Qed.

(** With a year column on both sides the loop ends without error and
    returns [balanced_frames]. *)
Lemma sample_years_run (chinese_df western_df : DataFrame) (seed : Z) :
  has_column "year" (columns chinese_df) = true ->
  has_column "year" (columns western_df) = true ->
  forall years w, exists evs,
    sample_years np_permutation chinese_df western_df seed years w
    = (add_events w evs,
       Ok (balanced_frames np_permutation chinese_df western_df seed years)).
Proof.
  intros Hc Hw. induction years as [|year rest IH]; intros w; simpl.
  - exists []. rewrite add_events_nil. reflexivity.
  - unfold bind at 1. unfold lift at 1.
    rewrite (where_cell_is chinese_df "year" _ Hc).
    unfold bind at 1. unfold lift at 1.
    rewrite (where_cell_is western_df "year" _ Hw).
    unfold year_rows, year_of.
    set (cy := select_rows _ chinese_df).
    set (wy := select_rows _ western_df).
    destruct (Nat.ltb 0 (Nat.min (len cy) (len wy))).
    + unfold bind at 1. rewrite sample_run by apply Nat.le_min_l.
      unfold bind at 1. rewrite sample_run by apply Nat.le_min_r.
      unfold bind at 1.
      destruct (IH (add_events
                      (add_events w [Sampled seed (len cy)
                                       (Nat.min (len cy) (len wy))])
                      [Sampled seed (len wy) (Nat.min (len cy) (len wy))]))
        as [evs Hrest].
      rewrite Hrest. unfold ret. rewrite !add_events_app.
      eexists. reflexivity.
    + apply IH.
Qed.

End SamplerRuns.

Section SamplerOutcome.

Variable np_permutation : Z -> nat -> list nat.

(** The run of the sampler on a frame that has its two columns. *)
Lemma create_balanced_dataset_run (df : DataFrame) (seed : Z)
  (years : list Z) :
  has_column "source_category" (columns df) = true ->
  available_years df = Ok years ->
  forall w, exists evs,
    create_balanced_dataset np_permutation df seed w
    = (mkWorld (Seeded seed) (clock w) (directories w) (trace w ++ evs),
       pd_concat
         (balanced_frames np_permutation
            (category_rows df chinese_label)
            (category_rows df western_label) seed years)).
Proof.
  intros Hcat Hyears w.
  assert (Hyear : has_column "year" (columns df) = true).
  { unfold available_years, get_column in Hyears.
    destruct (has_column "year" (columns df)); [reflexivity | discriminate]. }
  unfold create_balanced_dataset.
  unfold bind at 1. unfold np_random_seed at 1.
  unfold bind at 1. unfold lift at 1.
  rewrite (where_cell_is df "source_category" _ Hcat).
  unfold bind at 1. unfold lift at 1.
  rewrite (where_cell_is df "source_category" _ Hcat).
  unfold bind at 1. unfold lift at 1. rewrite Hyears.
  unfold bind at 1.
  destruct (sample_years_run np_permutation
              (category_rows df chinese_label)
              (category_rows df western_label) seed Hyear Hyear years
              (mkWorld (Seeded seed) (clock w) (directories w) (trace w)))
    as [evs Hrun].
  unfold category_rows, category_of in Hrun |- *. cbv beta.
  rewrite Hrun. exists evs. reflexivity.
Qed.

(** The sampler sets the global generator to the seed, adds events and
    returns a value that are the same in every world, and touches nothing
    else. *)
Lemma create_balanced_dataset_blind (df : DataFrame) (seed : Z) :
  exists evs r, forall w,
    create_balanced_dataset np_permutation df seed w
    = (mkWorld (Seeded seed) (clock w) (directories w) (trace w ++ evs), r).
Proof.
  assert (Hrest : forall k : M DataFrame, blind k ->
            exists evs r, forall w,
              bind (np_random_seed seed) (fun _ => k) w
              = (mkWorld (Seeded seed) (clock w) (directories w)
                   (trace w ++ evs), r)).
  { intros k [evs [r Hk]]. exists evs, r. intros w.
    unfold bind, np_random_seed. rewrite Hk. reflexivity. }
  apply Hrest.
  apply blind_bind; [apply blind_lift | intros chinese_df].
  apply blind_bind; [apply blind_lift | intros western_df].
  apply blind_bind; [apply blind_lift | intros years].
  apply blind_bind; [apply blind_sample_years | intros frames].
  apply blind_lift.
Qed.

(** C2.  Two runs of the sampler on the same frame with the same seed
    return the same value, whatever the worlds they start in: the clock,
    the entropy behind the global generator, the files and the earlier
    events have no influence.  Both runs add the same events, leave the
    global generator in the state of the seed and leave the clock and the
    files alone. *)
Theorem balanced_sampler_deterministic (df : DataFrame) (seed : Z)
  (w1 w2 : World) :
  let run := create_balanced_dataset np_permutation df seed in
  value_of run w1 = value_of run w2
  /\ (exists evs, events_of run w1 = trace w1 ++ evs
                  /\ events_of run w2 = trace w2 ++ evs)
  /\ np_global (fst (run w1)) = Seeded seed
  /\ np_global (fst (run w2)) = Seeded seed
  /\ clock (fst (run w1)) = clock w1
  /\ directories (fst (run w1)) = directories w1.
Proof.
  destruct (create_balanced_dataset_blind df seed) as [evs [r Hrun]].
  unfold value_of, events_of. cbv zeta. rewrite !Hrun. simpl.
  repeat split. exists evs. split; reflexivity.
Qed.

End SamplerOutcome.

(** ** A run in which no year has both categories *)

Section NoCommonYear.

Variable to_datetime_year : list cell -> result (list cell).
Variable np_permutation : Z -> nat -> list nat.

(** C8, the failing run.  Both categories load one substantive article,
    the Chinese one of 2019 and the Western one of 2021.  Either year has
    records in one category only, so the loop of the sampler appends
    nothing and [pd.concat] of the empty list raises: [main] ends with a
    [ValueError], and the trace shows that no directory was made and no
    file written. *)
Theorem no_common_year_is_fatal :
  main plain_words [] to_datetime_year np_permutation disjoint_years_world
  = (mkWorld (Seeded 42) (clock disjoint_years_world)
       (directories disjoint_years_world)
       [Timestamp (clock disjoint_years_world)],
     Raise (ValueError "No objects to concatenate")).
Proof.
  vm_compute. reflexivity.
Qed.

(** With both articles in 2019 the same run completes: one record per
    category is sampled and both files are written. *)
Lemma common_year_completes :
  exists out,
    value_of (main plain_words [] to_datetime_year reversing) common_year_world
    = Ok (Some out)
    /\ len out = 2%nat
    /\ length (filter is_write
                 (events_of (main plain_words [] to_datetime_year reversing)
                    common_year_world)) = 2%nat.
Proof.
  eexists. split; [vm_compute; reflexivity|].
  split; vm_compute; reflexivity.
Qed.

End NoCommonYear.

(** ** The years of the sampler *)

Lemma insert_year_In (y z : Z) (l : list Z) :
  In z (insert_year y l) <-> z = y \/ In z l.
Proof.
  induction l as [|x l IH]; simpl.
  - intuition.
  - destruct (Z.ltb y x) eqn:Hlt; simpl; [intuition|].
    destruct (Z.eqb_spec y x) as [-> | Hne]; simpl; [intuition|].
    rewrite IH. intuition.
Qed.

Lemma insert_year_sorted (y : Z) (l : list Z) :
  StronglySorted Z.lt l -> StronglySorted Z.lt (insert_year y l).
Proof.
  intros Hs. induction Hs as [|x l Hs IH Hall]; simpl.
  - constructor; constructor.
  - destruct (Z.ltb y x) eqn:Hlt.
    + apply Z.ltb_lt in Hlt. constructor.
      * constructor; assumption.
      * constructor; [exact Hlt|].
        eapply Forall_impl; [|exact Hall]. intros z Hz. simpl in Hz. lia.
    + apply Z.ltb_ge in Hlt.
      destruct (Z.eqb_spec y x) as [-> | Hne].
      * constructor; assumption.
      * constructor; [exact IH|].
        apply Forall_forall. intros z Hz. apply insert_year_In in Hz.
        destruct Hz as [-> | Hz]; [lia|].
        rewrite Forall_forall in Hall. apply Hall. exact Hz.
Qed.

Lemma sorted_unique_sorted (l : list Z) :
  StronglySorted Z.lt (sorted_unique l).
Proof.
  induction l as [|y l IH]; simpl.
  - constructor.
  - apply insert_year_sorted. exact IH.
Qed.

Lemma sorted_unique_In (l : list Z) (z : Z) :
  In z (sorted_unique l) <-> In z l.
Proof.
  induction l as [|y l IH]; simpl.
  - reflexivity.
  - rewrite insert_year_In, IH. intuition.
Qed.

Lemma strictly_sorted_NoDup (l : list Z) :
  StronglySorted Z.lt l -> NoDup l.
Proof.
  intros Hs. induction Hs as [|x l Hs IH Hall]; constructor; auto.
  intros Hin. rewrite Forall_forall in Hall. specialize (Hall x Hin). lia.
Qed.

(** The years the sampler visits are distinct. *)
Lemma available_years_NoDup (df : DataFrame) (years : list Z) :
  available_years df = Ok years -> NoDup years.
Proof.
  unfold available_years. destruct (get_column df "year") as [col|e];
    simpl; try discriminate.
  destruct (numbers_of col) as [ys|e]; simpl; try discriminate.
  intros H. injection H as <-.
  apply NoDup_filter, strictly_sorted_NoDup, sorted_unique_sorted.
Qed.

(** ** Concatenating frames with the same labels *)

Lemma filter_none {A : Type} (p : A -> bool) (l : list A) :
  (forall x, In x l -> p x = false) -> filter p l = [].
Proof.
  induction l as [|a l IH]; simpl; intros H; auto.
  rewrite (H a (or_introl eq_refl)). apply IH. intros x Hx. apply H. auto.
Qed.

Lemma filter_all {A : Type} (p : A -> bool) (l : list A) :
  (forall x, In x l -> p x = true) -> filter p l = l.
Proof.
  induction l as [|a l IH]; simpl; intros H; auto.
  rewrite (H a (or_introl eq_refl)). f_equal. apply IH.
  intros x Hx. apply H. auto.
Qed.

Lemma union_columns_step (cols : list string) (frames : list DataFrame) :
  (forall f, In f frames -> columns f = cols) ->
  fold_left
    (fun acc df =>
       acc ++ filter (fun c => negb (has_column c acc)) (columns df))
    frames cols
  = cols.
Proof.
  induction frames as [|f rest IH]; simpl; intros Hall; auto.
  rewrite (Hall f (or_introl eq_refl)).
  rewrite filter_none, app_nil_r.
  - apply IH. intros g Hg. apply Hall. auto.
  - intros c Hc. apply has_column_In in Hc. rewrite Hc. reflexivity.
Qed.

Lemma union_columns_same (cols : list string) (frames : list DataFrame) :
  frames <> [] ->
  (forall f, In f frames -> columns f = cols) ->
  union_columns frames = cols.
Proof.
  destruct frames as [|f rest]; [congruence|]. intros _ Hall.
  unfold union_columns. simpl.
  rewrite (Hall f (or_introl eq_refl)).
  rewrite filter_all by reflexivity.
  apply union_columns_step. intros g Hg. apply Hall. simpl. auto.
Qed.

Lemma col_index_map (f : string -> cell) (c : string) (cols : list string) :
  forall i, col_index c cols = Some i -> nth i (map f cols) (Val NaN) = f c.
Proof.
  induction cols as [|c' rest IH]; simpl; intros i Hi; try discriminate.
  destruct (String.eqb_spec c c') as [-> | Hne].
  - injection Hi as <-. reflexivity.
  - destruct (col_index c rest) as [j|]; simpl in Hi; try discriminate.
    injection Hi as <-. simpl. apply IH. reflexivity.
Qed.

Lemma col_index_has_column (c : string) (cols : list string) :
  has_column c cols = true -> exists i, col_index c cols = Some i.
Proof.
  induction cols as [|c' rest IH]; simpl; try discriminate.
  destruct (String.eqb c c'); simpl; [eauto|].
  intros H. destruct (IH H) as [i Hi]. rewrite Hi. simpl. eauto.
Qed.

(** Laying a row out under new labels keeps the cell of every label that
    is among the new ones. *)
Lemma row_get_reindex (cols new_cols : list string) (c : string) (r : row) :
  has_column c new_cols = true ->
  row_get new_cols c (reindex cols new_cols r) = row_get cols c r.
Proof.
  intros Hc. destruct (col_index_has_column c new_cols Hc) as [i Hi].
  unfold row_get at 1. rewrite Hi. unfold reindex.
  apply (col_index_map (fun c => row_get cols c r)). exact Hi.
Qed.

(** ** Counting in the balanced frame *)

Lemma filter_filter_and {A : Type} (p q : A -> bool) (l : list A) :
  filter p (filter q l) = filter (fun x => q x && p x) l.
Proof.
  induction l as [|a l IH]; simpl; auto.
  destruct (q a); simpl; [destruct (p a)|]; rewrite IH; reflexivity.
Qed.

Lemma filter_map_ext {A B : Type} (p : B -> bool) (q : A -> bool)
  (g : A -> B) (l : list A) :
  (forall x, In x l -> p (g x) = q x) ->
  length (filter p (map g l)) = length (filter q l).
Proof.
  induction l as [|a l IH]; simpl; intros H; auto.
  rewrite (H a (or_introl eq_refl)).
  destruct (q a); simpl; rewrite IH; auto.
Qed.

Lemma firstn_In {A : Type} (n : nat) (l : list A) (x : A) :
  In x (firstn n l) -> In x l.
Proof.
  revert l. induction n as [|n IH]; intros [|a l]; simpl; try tauto.
  intros [H | H]; [left; exact H | right; apply IH; exact H].
Qed.

Lemma int_cell_eqb (a b : Z) :
  cell_eqb (Val (Int a)) (Val (Int b)) = Z.eqb a b.
Proof.
  destruct (Z.eqb_spec a b) as [-> | Hne].
  - apply cell_eqb_refl.
  - apply cell_eqb_neq. congruence.
Qed.

Section BalancedCounts.

Variable np_permutation : Z -> nat -> list nat.

(** What numpy promises of [permutation(n)]: a rearrangement of
    [0 .. n-1]. *)
Hypothesis np_permutation_spec :
  forall seed n, Permutation (np_permutation seed n) (seq 0 n).

Lemma take_sample_In (f : DataFrame) (n : nat) (seed : Z) (r : row) :
  In r (rows (take_sample np_permutation f n seed)) -> In r (rows f).
Proof.
  unfold take_sample. simpl. intros H. apply in_map_iff in H.
  destruct H as [i [<- Hi]]. apply firstn_In in Hi.
  apply (Permutation_in _ (np_permutation_spec seed (len f))) in Hi.
  apply in_seq in Hi. apply nth_In. unfold len in Hi. lia.
Qed.

Lemma take_sample_len (f : DataFrame) (n : nat) (seed : Z) :
  (n <= len f)%nat -> len (take_sample np_permutation f n seed) = n.
Proof.
  intros Hn. unfold len at 1, take_sample. simpl.
  rewrite length_map. apply firstn_length_le.
  rewrite (Permutation_length (np_permutation_spec seed (len f))).
  rewrite length_seq. exact Hn.
Qed.

Variable df : DataFrame.
Variable seed : Z.
Variable label : cell.
Variable y : Z.

Hypothesis has_category : has_column "source_category" (columns df) = true.
Hypothesis has_year : has_column "year" (columns df) = true.

Let chinese_df : DataFrame := category_rows df chinese_label.
Let western_df : DataFrame := category_rows df western_label.

(** The test "category [label] and year [y]" on a row under the labels of
    [df]. *)
Let hit (r : row) : bool :=
  cell_eqb (row_get (columns df) "source_category" r) label
  && cell_eqb (row_get (columns df) "year" r) (Val (Int y)).

(** The rows a frame contributes to the concatenation. *)
Let laid_out (f : DataFrame) : list row :=
  map (reindex (columns f) (columns df)) (rows f).

(** A sample of one category and one year counts in full for that
    category and year and not at all for any other. *)
Lemma sample_count (own : cell) (year : Z) (n : nat) :
  (n <= len (year_rows (category_rows df own) year))%nat ->
  length (filter hit
            (laid_out (take_sample np_permutation
                         (year_rows (category_rows df own) year) n seed)))
  = if cell_eqb own label && Z.eqb year y then n else 0%nat.
Proof.
  intros Hn. set (f := year_rows (category_rows df own) year).
  assert (Hrow : forall r,
            In r (rows (take_sample np_permutation f n seed)) ->
            hit (reindex (columns df) (columns df) r)
            = cell_eqb own label && Z.eqb year y).
  { intros r Hr. apply take_sample_In in Hr.
    unfold f, year_rows, category_rows, select_rows in Hr. simpl in Hr.
    apply filter_In in Hr. destruct Hr as [Hr Hy].
    apply filter_In in Hr. destruct Hr as [_ Hc].
    unfold year_of in Hy. unfold category_of in Hc. simpl in Hy.
    apply cell_eqb_eq in Hy, Hc.
    unfold hit. rewrite !row_get_reindex by assumption.
    rewrite Hy, Hc, int_cell_eqb. reflexivity. }
  unfold laid_out.
  change (columns (take_sample np_permutation f n seed)) with (columns df).
  destruct (cell_eqb own label && Z.eqb year y).
  - rewrite filter_all.
    + rewrite length_map. apply (take_sample_len f n seed Hn).
    + intros r Hr. apply in_map_iff in Hr. destruct Hr as [r0 [<- Hr0]].
      apply Hrow. exact Hr0.
  - rewrite filter_none; [reflexivity|].
    intros r Hr. apply in_map_iff in Hr. destruct Hr as [r0 [<- Hr0]].
    apply Hrow. exact Hr0.
Qed.

(** The sample size of a year. *)
Let n_sample (year : Z) : nat :=
  Nat.min (len (year_rows chinese_df year)) (len (year_rows western_df year)).

(** Over distinct years, each year contributes its sample size once to
    either category. *)
Lemma frames_count (years : list Z) :
  label = chinese_label \/ label = western_label ->
  NoDup years ->
  length (filter hit
            (flat_map laid_out
               (balanced_frames np_permutation chinese_df western_df seed
                  years)))
  = if in_dec Z.eq_dec y years then n_sample y else 0%nat.
Proof.
  intros Hlabel Hnd. induction Hnd as [|year rest Hnotin Hnd IH].
  - reflexivity.
  - assert (Hrest_y : year = y ->
              length (filter hit
                        (flat_map laid_out
                           (balanced_frames np_permutation chinese_df
                              western_df seed rest))) = 0%nat).
    { intros ->. rewrite IH. destruct (in_dec Z.eq_dec y rest); tauto. }
    assert (Hpair :
              (length (filter hit
                  (laid_out (take_sample np_permutation
                     (year_rows chinese_df year) (n_sample year) seed)))
               + length (filter hit
                  (laid_out (take_sample np_permutation
                     (year_rows western_df year) (n_sample year) seed))))%nat
              = if Z.eqb year y then n_sample year else 0%nat).
    { unfold chinese_df, western_df.
      rewrite !sample_count
        by (unfold n_sample, chinese_df, western_df; lia).
      destruct Hlabel as [-> | ->]; vm_compute cell_eqb;
        destruct (Z.eqb year y); simpl; lia. }
    simpl balanced_frames. fold (n_sample year).
    destruct (in_dec Z.eq_dec y (year :: rest)) as [Hin | Hout].
    + destruct (Nat.ltb 0 (n_sample year)) eqn:Hpos.
      * simpl flat_map. rewrite !filter_app, !length_app, Nat.add_assoc, Hpair.
        destruct (Z.eqb_spec year y) as [E | E].
        -- rewrite (Hrest_y E). subst. lia.
        -- rewrite IH. destruct (in_dec Z.eq_dec y rest); [reflexivity|].
           destruct Hin; contradiction.
      * apply Nat.ltb_ge in Hpos.
        destruct (Z.eq_dec year y) as [E | E].
        -- rewrite (Hrest_y E). subst. lia.
        -- rewrite IH. destruct (in_dec Z.eq_dec y rest); [reflexivity|].
           destruct Hin; contradiction.
    + assert (Hne : year <> y) by (intros ->; apply Hout; left; reflexivity).
      assert (Hnot : ~ In y rest) by (intros H; apply Hout; right; exact H).
      destruct (Nat.ltb 0 (n_sample year)).
      * simpl flat_map. rewrite !filter_app, !length_app, Nat.add_assoc, Hpair.
        apply Z.eqb_neq in Hne. rewrite Hne, IH.
        destruct (in_dec Z.eq_dec y rest); tauto.
      * rewrite IH. destruct (in_dec Z.eq_dec y rest); tauto.
Qed.

End BalancedCounts.

(** The per-category count of a year is the size of that category's frame
    for the year. *)
Lemma count_category_year_rows (df : DataFrame) (label : cell) (y : Z) :
  count_category_year df label y = len (year_rows (category_rows df label) y).
Proof.
  unfold count_category_year, len, year_rows, category_rows, select_rows.
  simpl. rewrite filter_filter_and. reflexivity.
Qed.

Section BalancedOutput.

Variable np_permutation : Z -> nat -> list nat.

Hypothesis np_permutation_spec :
  forall seed n, Permutation (np_permutation seed n) (seq 0 n).

Variable df : DataFrame.
Variable seed : Z.

Let chinese_df : DataFrame := category_rows df chinese_label.
Let western_df : DataFrame := category_rows df western_label.

Lemma balanced_frames_columns (years : list Z) (f : DataFrame) :
  In f (balanced_frames np_permutation chinese_df western_df seed years) ->
  columns f = columns df.
Proof.
  induction years as [|year rest IH]; simpl; [tauto|].
  destruct (Nat.ltb 0 _); [|exact IH].
  intros [<- | [<- | H]]; [reflexivity | reflexivity | apply IH; exact H].
Qed.

(** Every row of a sampled frame belongs to a visited year. *)
Lemma balanced_frames_year (years : list Z) (f : DataFrame) (r : row) :
  In f (balanced_frames np_permutation chinese_df western_df seed years) ->
  In r (rows f) ->
  exists year, In year years /\ year_of df r = Val (Int year).
Proof.
  induction years as [|year rest IH]; simpl; [tauto|].
  assert (Hyear : forall own n,
            In r (rows (take_sample np_permutation
                          (year_rows (category_rows df own) year) n seed)) ->
            year_of df r = Val (Int year)).
  { intros own n Hr. apply (take_sample_In _ np_permutation_spec) in Hr.
    unfold year_rows, select_rows in Hr. simpl in Hr.
    apply filter_In in Hr. destruct Hr as [_ Hy].
    apply cell_eqb_eq in Hy. exact Hy. }
  destruct (Nat.ltb 0 _).
  - intros [<- | [<- | H]] Hr.
    + exists year. split; [left; reflexivity | eapply Hyear; exact Hr].
    + exists year. split; [left; reflexivity | eapply Hyear; exact Hr].
    + destruct (IH H Hr) as [y' [Hin Hy']]. exists y'. auto.
  - intros H Hr. destruct (IH H Hr) as [y' [Hin Hy']]. exists y'. auto.
Qed.

(** A returned value comes from frames with both columns, over the
    available years. *)
Lemma balanced_value_inv (w : World) (out : DataFrame) :
  value_of (create_balanced_dataset np_permutation df seed) w = Ok out ->
  has_column "source_category" (columns df) = true
  /\ exists years,
       available_years df = Ok years
       /\ pd_concat (balanced_frames np_permutation chinese_df western_df
                       seed years) = Ok out.
Proof.
  unfold value_of.
  destruct (has_column "source_category" (columns df)) eqn:Hcat.
  - destruct (available_years df) as [years | e] eqn:Hyears.
    + destruct (create_balanced_dataset_run np_permutation df seed years
                  Hcat Hyears w) as [evs Hrun].
      rewrite Hrun. simpl. intros H. split; [reflexivity|].
      exists years. split; [reflexivity | exact H].
    + unfold create_balanced_dataset.
      unfold bind at 1. unfold np_random_seed at 1.
      unfold bind at 1. unfold lift at 1.
      rewrite (where_cell_is df "source_category" _ Hcat).
      unfold bind at 1. unfold lift at 1.
      rewrite (where_cell_is df "source_category" _ Hcat).
      unfold bind at 1. unfold lift at 1. rewrite Hyears.
      simpl. discriminate.
  - unfold create_balanced_dataset.
    unfold bind at 1. unfold np_random_seed at 1.
    unfold bind at 1. unfold lift at 1. unfold where_ at 1.
    rewrite Hcat. simpl. discriminate.
Qed.

(** C1.  In the frame the sampler returns, every year that appears has as
    many Chinese State Media records as Western Media records, and that
    number is the smaller of the two counts of the year in the input. *)
Theorem balanced_counts (w : World) (out : DataFrame) (y : Z) :
  value_of (create_balanced_dataset np_permutation df seed) w = Ok out ->
  year_appears out y ->
  count_category_year out chinese_label y
  = count_category_year out western_label y
  /\ count_category_year out chinese_label y
     = Nat.min (count_category_year df chinese_label y)
               (count_category_year df western_label y).
Proof.
  intros Hval Happears.
  destruct (balanced_value_inv w out Hval) as [Hcat [years [Hyears Hcat_out]]].
  assert (Hyear : has_column "year" (columns df) = true).
  { unfold available_years, get_column in Hyears.
    destruct (has_column "year" (columns df)); [reflexivity | discriminate]. }
  pose proof (available_years_NoDup df years Hyears) as Hnd.
  set (frames := balanced_frames np_permutation chinese_df western_df
                   seed years) in *.
  assert (Hne : frames <> []).
  { intros E. rewrite E in Hcat_out. discriminate. }
  assert (Hout : out = concat_frames frames).
  { destruct frames; [congruence|]. simpl in Hcat_out. congruence. }
  assert (Hunion : union_columns frames = columns df).
  { apply union_columns_same; [exact Hne|].
    intros f Hf. apply (balanced_frames_columns years). exact Hf. }
  assert (Hcols : columns out = columns df).
  { rewrite Hout. exact Hunion. }
  assert (Hrows : rows out
                  = flat_map (fun f => map (reindex (columns f) (columns df))
                                           (rows f)) frames).
  { rewrite Hout. unfold concat_frames. cbn [rows].
    rewrite Hunion. reflexivity. }
  assert (Hcount : forall label,
            label = chinese_label \/ label = western_label ->
            count_category_year out label y
            = if in_dec Z.eq_dec y years
              then Nat.min (len (year_rows chinese_df y))
                           (len (year_rows western_df y))
              else 0%nat).
  { intros label Hlabel.
    unfold count_category_year, category_of, year_of. rewrite Hcols, Hrows.
    apply (frames_count np_permutation np_permutation_spec df seed label y
             Hcat Hyear years Hlabel Hnd). }
  assert (Hin : In y years).
  { destruct Happears as [r [Hr Hy]]. rewrite Hrows in Hr.
    apply in_flat_map in Hr. destruct Hr as [f [Hf Hr]].
    apply in_map_iff in Hr. destruct Hr as [r0 [<- Hr0]].
    unfold year_of in Hy. rewrite Hcols in Hy.
    rewrite (balanced_frames_columns years f Hf) in Hy.
    rewrite row_get_reindex in Hy by exact Hyear.
    destruct (balanced_frames_year years f r0 Hf Hr0) as [y' [Hy' Hr0y]].
    unfold year_of in Hr0y. rewrite Hr0y in Hy.
    injection Hy as <-. exact Hy'. }
  rewrite !Hcount by auto.
  destruct (in_dec Z.eq_dec y years); [|contradiction].
  rewrite !count_category_year_rows. split; reflexivity.
Qed.

End BalancedOutput.

Lemma reversing_spec (seed : Z) (n : nat) :
  Permutation (reversing seed n) (seq 0 n).
Proof.
  unfold reversing. symmetry. apply Permutation_rev.
Qed.

Lemma balanced_counts_witness :
  count_category_year stratified_balanced chinese_label 2021
  = count_category_year stratified_balanced western_label 2021
  /\ count_category_year stratified_balanced chinese_label 2021
     = Nat.min (count_category_year stratified_articles chinese_label 2021)
               (count_category_year stratified_articles western_label 2021).
Proof.
  apply (balanced_counts reversing reversing_spec stratified_articles 42
           bare_world stratified_balanced 2021).
  - vm_compute. reflexivity.
  - exists [Val (Str "c3"); Val (Str "Chinese State Media"); Val (Int 2021);
            Val (Int 33)].
    split; [left; reflexivity | reflexivity].
Defined.

(** The sampler returns a frame as soon as one available year has records
    in both categories. *)
Lemma create_balanced_dataset_returns (np_permutation : Z -> nat -> list nat)
  (df : DataFrame) (seed : Z) (years : list Z) (y : Z) (w : World) :
  has_column "source_category" (columns df) = true ->
  available_years df = Ok years ->
  In y years ->
  (0 < Nat.min (count_category_year df chinese_label y)
               (count_category_year df western_label y))%nat ->
  exists out,
    value_of (create_balanced_dataset np_permutation df seed) w = Ok out.
Proof.
  intros Hcat Hyears Hin Hpos.
  destruct (create_balanced_dataset_run np_permutation df seed years
              Hcat Hyears w) as [evs Hrun].
  unfold value_of. rewrite Hrun. simpl.
  rewrite !count_category_year_rows in Hpos.
  set (chinese_df := category_rows df chinese_label) in *.
  set (western_df := category_rows df western_label) in *.
  assert (Hne : balanced_frames np_permutation chinese_df western_df seed
                  years <> []).
  { clear Hrun Hyears. induction years as [|year rest IH]; simpl in *.
    - contradiction.
    - destruct (Nat.ltb 0 (Nat.min (len (year_rows chinese_df year))
                                   (len (year_rows western_df year))))
        eqn:Hn; [discriminate|].
      destruct Hin as [-> | Hin]; [|apply IH; exact Hin].
      apply Nat.ltb_ge in Hn. lia. }
  destruct (balanced_frames np_permutation chinese_df western_df seed years)
    as [|f rest]; [congruence|].
  eexists. reflexivity.
Qed.

(** ** Substitution, step by step *)

Local Arguments Ascii.eqb : simpl never.
Local Arguments isspace : simpl never.
Local Arguments whitelisted : simpl never.

Lemma list_length_ind {A : Type} (P : list A -> Prop) :
  (forall l, (forall l', (length l' < length l)%nat -> P l') -> P l) ->
  forall l, P l.
Proof.
  intros H l.
  assert (Hn : forall n l, (length l < n)%nat -> P l).
  { induction n as [|n IH]; intros l0 Hl; [lia|].
    apply H. intros l' Hl'. apply IH. lia. }
  apply (Hn (S (length l))). lia.
Qed.

Lemma skipn_exact {A : Type} (pre rest : list A) :
  skipn (length pre) (pre ++ rest) = rest.
Proof.
  induction pre as [|a pre IH]; simpl; auto.
Qed.

Lemma re_sub_from_skip (r : regex) (repl : list ascii) (l : list ascii) :
  forall k, re_sub_from r repl k l = re_sub_from r repl 0 (skipn k l).
Proof.
  induction l as [|c t IH]; intros [|k]; try reflexivity.
  simpl. apply IH.
Qed.

Lemma re_sub_from_cons (r : regex) (repl : list ascii) (c : ascii)
  (t : list ascii) :
  re_sub_from r repl 0 (c :: t)
  = match match_end r (c :: t) with
    | Some rest =>
        match (length (c :: t) - length rest)%nat with
        | S k => repl ++ re_sub_from r repl k t
        | O => c :: re_sub_from r repl 0 t
        end
    | None => c :: re_sub_from r repl 0 t
    end.
Proof. reflexivity. Qed.

(** Where the expression matches, the match gives way to the replacement
    and the scan resumes behind it. *)
Lemma re_sub_match (r : regex) (repl pre rest : list ascii) :
  pre <> [] ->
  match_end r (pre ++ rest) = Some rest ->
  re_sub_from r repl 0 (pre ++ rest) = repl ++ re_sub_from r repl 0 rest.
Proof.
  destruct pre as [|c pre]; [congruence|]. intros _ Hm.
  change ((c :: pre) ++ rest) with (c :: (pre ++ rest)) in *.
  rewrite re_sub_from_cons, Hm.
  replace (length (c :: pre ++ rest) - length rest)%nat with (S (length pre))
    by (change (length (c :: pre ++ rest)) with (S (length (pre ++ rest)));
        rewrite length_app; lia).
  rewrite re_sub_from_skip, skipn_exact. reflexivity.
Qed.

(** Elsewhere the character is copied. *)
Lemma re_sub_nomatch (r : regex) (repl : list ascii) (c : ascii)
  (t : list ascii) :
  match_end r (c :: t) = None ->
  re_sub_from r repl 0 (c :: t) = c :: re_sub_from r repl 0 t.
Proof.
  intros Hm. rewrite re_sub_from_cons, Hm. reflexivity.
Qed.

Lemma skip_while_split (p : ascii -> bool) (l : list ascii) :
  exists pre, l = pre ++ skip_while p l /\ forallb p pre = true.
Proof.
  induction l as [|c t [pre [Hl Hp]]]; simpl.
  - exists []. auto.
  - destruct (p c) eqn:Hc.
    + exists (c :: pre). simpl. rewrite Hc, Hp. split; [f_equal; exact Hl | auto].
    + exists []. auto.
Qed.

Lemma skip_while_length (p : ascii -> bool) (l : list ascii) :
  (length (skip_while p l) <= length l)%nat.
Proof.
  induction l as [|c t IH]; simpl; auto.
  destruct (p c); simpl; lia.
Qed.

(** A greedy repetition on its own takes the whole run. *)
Lemma match_end_plus (p : ascii -> bool) (l : list ascii) :
  match_end (Plus p) l
  = match l with
    | c :: t => if p c then Some (skip_while p t) else None
    | [] => None
    end.
Proof.
  unfold match_end. simpl.
  induction l as [|c t IH]; [reflexivity|].
  destruct (p c); [|reflexivity].
  rewrite IH. destruct t as [|c' t']; [reflexivity|].
  simpl. destruct (p c'); reflexivity.
Qed.

(** ** The four substitutions of [clean_text] *)

Lemma blank_specials_sub (l : list ascii) :
  re_sub special_re " " l = blank_specials l.
Proof.
  unfold re_sub. simpl list_ascii_of_string.
  induction l as [|c t IH]; [reflexivity|].
  simpl blank_specials. destruct (whitelisted c) eqn:Hc.
  - rewrite re_sub_nomatch; [rewrite IH; reflexivity|].
    unfold match_end, special_re. simpl. rewrite Hc. reflexivity.
  - rewrite (re_sub_match special_re _ [c] t); [rewrite IH; reflexivity| |].
    + discriminate.
    + unfold match_end, special_re. simpl. rewrite Hc. reflexivity.
Qed.

Lemma collapse_after_space (l : list ascii) :
  collapse_spaces true l = collapse_spaces false (skip_while isspace l).
Proof.
  induction l as [|c t IH]; [reflexivity|].
  simpl. destruct (isspace c) eqn:Hc; [exact IH|].
  simpl. rewrite Hc. reflexivity.
Qed.

Lemma collapse_spaces_sub (l : list ascii) :
  re_sub space_re " " l = collapse_spaces false l.
Proof.
  unfold re_sub. simpl list_ascii_of_string.
  induction l as [l IH] using list_length_ind.
  destruct l as [|c t]; [reflexivity|].
  pose proof (match_end_plus isspace (c :: t)) as Hm. simpl in Hm.
  simpl collapse_spaces. destruct (isspace c) eqn:Hc.
  - destruct (skip_while_split isspace t) as [pre [Ht Hpre]].
    rewrite Ht in Hm at 1. rewrite Ht at 1.
    rewrite (re_sub_match space_re _ (c :: pre) (skip_while isspace t));
      [| discriminate | exact Hm].
    rewrite IH by (simpl; pose proof (skip_while_length isspace t); lia).
    rewrite collapse_after_space. reflexivity.
  - rewrite re_sub_nomatch by exact Hm.
    rewrite IH by (simpl; lia). reflexivity.
Qed.

(** A greedy repetition followed by one character of a class disjoint
    from it: the repetition takes the whole run, and the next character
    decides. *)
Lemma plus_then_class (p q : ascii -> bool) :
  (forall c, q c = true -> p c = false) ->
  forall l,
    re_match (Plus p) l (fun l' => re_match (Class q) l' Some)
    = match l with
      | c :: t =>
          if p c
          then match skip_while p t with
               | c' :: t' => if q c' then Some t' else None
               | [] => None
               end
          else None
      | [] => None
      end.
Proof.
  intros Hpq. simpl.
  induction l as [|c t IH]; [reflexivity|].
  destruct (p c); [|reflexivity].
  rewrite IH. destruct t as [|c' t']; [reflexivity|].
  simpl. destruct (p c') eqn:Hc'.
  - assert (Hq : q c' = false).
    { destruct (q c') eqn:Hq; [|reflexivity]. apply Hpq in Hq. congruence. }
    rewrite Hq.
    destruct (skip_while p t') as [|c2 t2]; [|destruct (q c2)]; reflexivity.
  - reflexivity.
Qed.

(** Behind a run without [>] comes a [>] or the end of the text. *)
Lemma skip_not_gt (t : list ascii) :
  (skip_while not_gt t = [] /\ existsb (Ascii.eqb ">") t = false)
  \/ (exists t', skip_while not_gt t = ">"%char :: t'
                 /\ existsb (Ascii.eqb ">") t = true).
Proof.
  induction t as [|c t IH]; [left; auto|].
  cbn [skip_while existsb]. unfold not_gt at 1 3.
  destruct (Ascii.eqb_spec ">"%char c) as [<- | Hne]; cbn [negb orb].
  - right. eauto.
  - exact IH.
Qed.

Lemma match_end_tag (l : list ascii) :
  match_end tag_re l
  = if opens_tag l
    then match l with
         | _ :: _ :: t =>
             match skip_while not_gt t with
             | _ :: t' => Some t'
             | [] => None
             end
         | _ => None
         end
    else None.
Proof.
  unfold match_end, tag_re.
  change (re_match (Cat (Class (Ascii.eqb "<"))
                      (Cat (Plus (fun c => negb (Ascii.eqb ">" c)))
                           (Class (Ascii.eqb ">")))) l Some)
    with (re_match (Class (Ascii.eqb "<")) l
            (fun l1 => re_match (Plus not_gt) l1
               (fun l2 => re_match (Class (Ascii.eqb ">")) l2 Some))).
  assert (Hclass : forall (A : Type) q l (k : list ascii -> option A),
            re_match (Class q) l k
            = match l with
              | c :: t => if q c then k t else None
              | [] => None
              end) by reflexivity.
  rewrite Hclass. unfold opens_tag.
  destruct l as [|a [|c t]].
  - reflexivity.
  - destruct (Ascii.eqb "<" a); reflexivity.
  - destruct (Ascii.eqb "<" a); [|reflexivity].
    rewrite plus_then_class
      by (intros x Hx; unfold not_gt; rewrite Hx; reflexivity).
    fold (not_gt c). destruct (not_gt c); [|reflexivity].
    cbn [andb].
    destruct (skip_not_gt t) as [[-> ->] | [t' [-> ->]]]; reflexivity.
Qed.

(** Within a tag everything up to the first [>] is dropped. *)
Lemma delete_tags_inside (l : list ascii) :
  delete_tags true l
  = match skip_while not_gt l with
    | _ :: t' => delete_tags false t'
    | [] => []
    end.
Proof.
  induction l as [|c t IH]; [reflexivity|].
  simpl. unfold not_gt at 1.
  destruct (Ascii.eqb ">" c); simpl; [reflexivity | exact IH].
Qed.

Lemma delete_tags_sub (l : list ascii) :
  re_sub tag_re EmptyString l = delete_tags false l.
Proof.
  unfold re_sub. simpl list_ascii_of_string.
  induction l as [l IH] using list_length_ind.
  destruct l as [|a t]; [reflexivity|].
  pose proof (match_end_tag (a :: t)) as Hm.
  cbn [delete_tags]. destruct (opens_tag (a :: t)) eqn:Hopen.
  - destruct t as [|c t]; [discriminate|]. cbv iota in Hm.
    assert (Hc : not_gt c = true).
    { unfold opens_tag in Hopen. unfold not_gt.
      destruct (Ascii.eqb "<" a); [|discriminate].
      destruct (Ascii.eqb ">" c); [discriminate | reflexivity]. }
    rewrite delete_tags_inside. simpl skip_while. rewrite Hc.
    destruct (skip_while_split not_gt t) as [pre [Ht _]].
    destruct (skip_while not_gt t) as [|g rest] eqn:Hskip.
    + unfold opens_tag in Hopen.
      destruct (skip_not_gt t) as [[_ He] | [t' [Hs _]]]; [|congruence].
      rewrite He, andb_false_r in Hopen. discriminate.
    + assert (Hl : a :: c :: t = (a :: c :: pre ++ [g]) ++ rest).
      { simpl. rewrite <- app_assoc. simpl. rewrite <- Ht. reflexivity. }
      rewrite Hl in Hm |- *.
      rewrite (re_sub_match tag_re [] _ rest); [| discriminate | exact Hm].
      simpl. apply IH. rewrite Ht.
      simpl. rewrite length_app. simpl. lia.
  - rewrite re_sub_nomatch by exact Hm.
    rewrite IH by (simpl; lia). reflexivity.
Qed.

Lemma strip_prefix_app (s l t : list ascii) :
  strip_prefix s l = Some t -> l = s ++ t.
Proof.
  revert l. induction s as [|a s IH]; intros l H; simpl in H.
  - injection H as <-. reflexivity.
  - destruct l as [|c l]; [discriminate|].
    destruct (Ascii.eqb_spec a c) as [<- | Hne]; [|discriminate].
    simpl. f_equal. apply IH. exact H.
Qed.

Lemma skip_while_app (p : ascii -> bool) (s t : list ascii) :
  forallb p s = true -> skip_while p (s ++ t) = skip_while p t.
Proof.
  induction s as [|a s IH]; simpl; auto.
  intros H. apply andb_true_iff in H. destruct H as [Ha Hs].
  rewrite Ha. apply IH. exact Hs.
Qed.

Lemma match_end_url (l : list ascii) :
  match_end url_re l
  = if starts_url l then Some (skip_while nonspace l) else None.
Proof.
  assert (Hpre : forall s,
            forallb nonspace (list_ascii_of_string s) = true ->
            match strip_prefix (list_ascii_of_string s) l with
            | Some t => re_match (Plus nonspace) t Some
            | None => None
            end
            = if continues s l then Some (skip_while nonspace l) else None).
  { intros s Hs. unfold continues.
    destruct (strip_prefix (list_ascii_of_string s) l) as [t1|] eqn:Ht1;
      [|reflexivity].
    change (re_match (Plus nonspace) t1 Some)
      with (match_end (Plus nonspace) t1).
    rewrite match_end_plus.
    destruct t1 as [|c t]; [reflexivity|].
    destruct (nonspace c) eqn:Hc; [|reflexivity].
    apply strip_prefix_app in Ht1. rewrite Ht1.
    rewrite skip_while_app by exact Hs. simpl. rewrite Hc. reflexivity. }
  unfold match_end, url_re, starts_url.
  change (fun c => negb (isspace c)) with nonspace.
  change (re_match (Alt (Cat (Lit "http") (Plus nonspace))
                        (Cat (Lit "www") (Plus nonspace))) l Some)
    with (match
            match strip_prefix (list_ascii_of_string "http") l with
            | Some t => re_match (Plus nonspace) t Some
            | None => None
            end
          with
          | Some x => Some x
          | None =>
              match strip_prefix (list_ascii_of_string "www") l with
              | Some t => re_match (Plus nonspace) t Some
              | None => None
              end
          end).
  rewrite (Hpre "http"), (Hpre "www") by reflexivity.
  destruct (continues "http" l), (continues "www" l); reflexivity.
Qed.

Lemma continues_nonspace (s : string) (c : ascii) (t : list ascii) :
  (exists a rest, list_ascii_of_string s = a :: rest /\ nonspace a = true) ->
  continues s (c :: t) = true -> nonspace c = true.
Proof.
  intros [a [rest [Hs Ha]]]. unfold continues. rewrite Hs. simpl.
  destruct (Ascii.eqb_spec a c) as [<- | Hne]; [auto | discriminate].
Qed.

Lemma starts_url_nonspace (c : ascii) (t : list ascii) :
  starts_url (c :: t) = true -> isspace c = false.
Proof.
  unfold starts_url. intros H. apply orb_true_iff in H.
  assert (Hc : nonspace c = true).
  { destruct H as [H | H];
      eapply continues_nonspace; try exact H;
      do 2 eexists; split; reflexivity. }
  unfold nonspace in Hc. apply negb_true_iff in Hc. exact Hc.
Qed.

(** Within a URL-like substring everything up to the next whitespace is
    dropped. *)
Lemma delete_urls_inside (l : list ascii) :
  delete_urls true l = delete_urls false (skip_while nonspace l).
Proof.
  induction l as [|c t IH]; [reflexivity|].
  cbn [delete_urls skip_while]. unfold nonspace at 1.
  destruct (isspace c) eqn:Hc; cbn [negb orb].
  - cbn [delete_urls]. rewrite Hc. reflexivity.
  - exact IH.
Qed.

Lemma delete_urls_sub (l : list ascii) :
  re_sub url_re EmptyString l = delete_urls false l.
Proof.
  unfold re_sub. simpl list_ascii_of_string.
  induction l as [l IH] using list_length_ind.
  destruct l as [|c t]; [reflexivity|].
  pose proof (match_end_url (c :: t)) as Hm.
  cbn [delete_urls orb].
  destruct (starts_url (c :: t)) eqn:Hstart.
  - pose proof (starts_url_nonspace c t Hstart) as Hc. rewrite Hc.
    assert (Hskip : skip_while nonspace (c :: t) = skip_while nonspace t).
    { cbn [skip_while]. unfold nonspace at 1. rewrite Hc. reflexivity. }
    rewrite Hskip in Hm.
    destruct (skip_while_split nonspace t) as [pre [Ht _]].
    assert (Hl : c :: t = (c :: pre) ++ skip_while nonspace t)
      by (simpl; f_equal; exact Ht).
    rewrite Hl in Hm. rewrite Hl at 1.
    rewrite (re_sub_match url_re [] _ _); [| discriminate | exact Hm].
    rewrite delete_urls_inside. simpl. apply IH.
    simpl. pose proof (skip_while_length nonspace t). lia.
  - rewrite re_sub_nomatch by exact Hm.
    rewrite IH by (simpl; lia).
    destruct (isspace c); reflexivity.
Qed.

(** The code and the wording of the specification agree. *)
Lemma clean_chars_steps (text : list ascii) :
  clean_chars text = clean_steps text.
Proof.
  unfold clean_chars, clean_steps.
  rewrite delete_urls_sub, delete_tags_sub, blank_specials_sub,
    collapse_spaces_sub.
  reflexivity.
Qed.

(** ** What the cleaned text looks like *)

Lemma lstrip_suffix (l : list ascii) : exists pre, l = pre ++ lstrip l.
Proof.
  induction l as [|c t [pre IH]]; simpl.
  - exists []. reflexivity.
  - destruct (isspace c).
    + exists (c :: pre). simpl. f_equal. exact IH.
    + exists []. reflexivity.
Qed.















(** * Further properties of the pipeline *)

(** ** Assigning a column *)

Lemma col_index_none (c : string) (cols : list string) :
  col_index c cols = None <-> has_column c cols = false.
Proof.
  induction cols as [|c' rest IH]; simpl.
  - tauto.
  - destruct (String.eqb c c'); simpl.
    + split; discriminate.
    + rewrite <- IH. destruct (col_index c rest); simpl; split;
        congruence.
Qed.

Lemma col_index_bound (c : string) (cols : list string) : forall i,
  col_index c cols = Some i ->
  (i < length cols)%nat /\ nth i cols EmptyString = c.
Proof.
  induction cols as [|c' rest IH]; simpl; intros i Hi; [discriminate|].
  destruct (String.eqb_spec c c') as [-> | Hne].
  - injection Hi as <-. split; [lia | reflexivity].
  - destruct (col_index c rest) as [j|]; simpl in Hi; [|discriminate].
    injection Hi as <-. destruct (IH j eq_refl). split; [lia | assumption].
Qed.

Lemma col_index_app (c c' : string) (cols : list string) :
  col_index c' (cols ++ [c])
  = match col_index c' cols with
    | Some i => Some i
    | None => if String.eqb c' c then Some (length cols) else None
    end.
Proof.
  induction cols as [|x rest IH]; simpl.
  - destruct (String.eqb c' c); reflexivity.
  - destruct (String.eqb c' x); [reflexivity|].
    rewrite IH. destruct (col_index c' rest); simpl; [reflexivity|].
    destruct (String.eqb c' c); reflexivity.
Qed.

Lemma fit_length (n : nat) (r : row) : length (fit n r) = n.
Proof.
  unfold fit. apply firstn_length_le.
  rewrite length_app, repeat_length. lia.
Qed.

Lemma fit_nth (n i : nat) (r : row) :
  (i < n)%nat -> nth i (fit n r) (Val NaN) = nth i r (Val NaN).
Proof.
  intros Hi. unfold fit. rewrite nth_firstn.
  destruct (Nat.ltb_spec i n); [|lia].
  destruct (Nat.lt_ge_cases i (length r)) as [Hlt | Hge].
  - apply app_nth1. exact Hlt.
  - rewrite app_nth2 by exact Hge.
    rewrite nth_repeat. symmetry. apply nth_overflow. exact Hge.
Qed.

Lemma fit_exact {n : nat} (r : row) : length r = n -> fit n r = r.
Proof.
  intros <-. unfold fit. rewrite firstn_app, Nat.sub_diag, firstn_all.
  simpl. apply app_nil_r.
Qed.

Lemma set_nth_same (i : nat) (v : cell) (r : row) :
  (i < length r)%nat -> nth i (set_nth i v r) (Val NaN) = v.
Proof.
  revert r. induction i as [|i IH]; intros [|c t]; simpl; try lia; auto.
  intros H. apply IH. lia.
Qed.

Lemma set_nth_other (i j : nat) (v : cell) (r : row) :
  i <> j -> nth j (set_nth i v r) (Val NaN) = nth j r (Val NaN).
Proof.
  revert j r. induction i as [|i IH]; intros [|j] [|c t]; simpl;
    try congruence; auto.
Qed.

Lemma set_nth_length (i : nat) (v : cell) (r : row) :
  length (set_nth i v r) = length r.
Proof.
  revert r. induction i as [|i IH]; intros [|c t]; simpl; auto.
Qed.

(** The new row holds the value under the assigned label and the old cells
    under every other label. *)
Lemma put_cell_same (cols : list string) (c : string) (r : row) (v : cell) :
  row_get (columns_with cols c) c (put_cell cols c (r, v)) = v.
Proof.
  unfold columns_with, put_cell, row_get.
  destruct (col_index c cols) as [i|] eqn:Hi.
  - assert (Hc : has_column c cols = true).
    { destruct (has_column c cols) eqn:E; [reflexivity|].
      apply col_index_none in E. congruence. }
    rewrite Hc, Hi. simpl.
    apply set_nth_same. rewrite fit_length.
    apply (col_index_bound c cols i Hi).
  - pose proof (proj1 (col_index_none c cols) Hi) as Hc. rewrite Hc.
    rewrite col_index_app, Hi, String.eqb_refl. simpl.
    rewrite app_nth2 by (rewrite fit_length; lia).
    rewrite fit_length, Nat.sub_diag. reflexivity.
Qed.

Lemma put_cell_other (cols : list string) (c c' : string) (r : row)
  (v : cell) :
  c' <> c ->
  row_get (columns_with cols c) c' (put_cell cols c (r, v))
  = row_get cols c' r.
Proof.
  intros Hne. unfold columns_with, put_cell, row_get.
  destruct (col_index c cols) as [i|] eqn:Hi.
  - assert (Hc : has_column c cols = true).
    { destruct (has_column c cols) eqn:E; [reflexivity|].
      apply col_index_none in E. congruence. }
    rewrite Hc. simpl.
    destruct (col_index c' cols) as [j|] eqn:Hj; [|reflexivity].
    destruct (col_index_bound c cols i Hi) as [_ Hci].
    destruct (col_index_bound c' cols j Hj) as [Hjn Hcj].
    rewrite set_nth_other by congruence.
    apply fit_nth. exact Hjn.
  - pose proof (proj1 (col_index_none c cols) Hi) as Hc. rewrite Hc.
    rewrite col_index_app.
    destruct (col_index c' cols) as [j|] eqn:Hj.
    + destruct (col_index_bound c' cols j Hj) as [Hjn _]. simpl.
      rewrite app_nth1 by (rewrite fit_length; exact Hjn).
      apply fit_nth. exact Hjn.
    + apply String.eqb_neq in Hne. rewrite Hne. reflexivity.
Qed.

Lemma set_column_rows (c : string) (values : list cell) (df : DataFrame) :
  set_column c values df
  = mkDataFrame (columns_with (columns df) c)
      (map (put_cell (columns df) c)
           (combine (rows df) (fit (len df) values))).
Proof.
  unfold set_column, columns_with, put_cell.
  destruct (col_index c (columns df)) as [i|] eqn:Hi.
  - assert (Hc : has_column c (columns df) = true).
    { destruct (has_column c (columns df)) eqn:E; [reflexivity|].
      apply col_index_none in E. congruence. }
    rewrite Hc. reflexivity.
  - rewrite (proj1 (col_index_none c (columns df)) Hi). reflexivity.
Qed.

Lemma set_column_len (c : string) (values : list cell) (df : DataFrame) :
  len (set_column c values df) = len df.
Proof.
  rewrite set_column_rows. unfold len. simpl.
  rewrite length_map, length_combine, fit_length. apply Nat.min_id.
Qed.

Lemma has_column_with (cols : list string) (c c' : string) :
  has_column c' (columns_with cols c)
  = has_column c' cols || String.eqb c' c.
Proof.
  unfold columns_with. destruct (has_column c cols) eqn:Hc.
  - destruct (String.eqb_spec c' c) as [-> | Hne].
    + rewrite Hc. reflexivity.
    + rewrite orb_false_r. reflexivity.
  - unfold has_column. rewrite existsb_app. simpl.
    rewrite orb_false_r. reflexivity.
Qed.

(** ** Preprocessing *)

Lemma combine_map_pair {A B C : Type} (g : A -> B) (f : A -> C) (l : list A) :
  combine (map g l) (map f l) = map (fun x => (g x, f x)) l.
Proof.
  induction l as [|a l IH]; simpl; [reflexivity | rewrite IH; reflexivity].
Qed.

(** Assigning values computed from the rows a frame was made of. *)
Lemma set_column_map {A : Type} (c : string) (f : A -> cell) (g : A -> row)
  (base : list A) (df : DataFrame) :
  rows df = map g base ->
  set_column c (map f base) df
  = mkDataFrame (columns_with (columns df) c)
      (map (fun x => put_cell (columns df) c (g x, f x)) base).
Proof.
  intros Hrows. rewrite set_column_rows. f_equal.
  unfold len. rewrite Hrows, length_map.
  rewrite fit_exact by apply length_map.
  rewrite combine_map_pair, map_map. reflexivity.
Qed.

Lemma map_result_clean (cells : list cell) (cleaned : list string) :
  map_result apply_clean_text cells = Ok cleaned ->
  cleaned = map clean_cell cells
  /\ forall c, In c cells -> apply_clean_text c = Ok (clean_cell c).
Proof.
  revert cleaned. induction cells as [|c rest IH]; simpl; intros cleaned H.
  - injection H as <-. split; [reflexivity | tauto].
  - destruct (apply_clean_text c) as [s|e] eqn:Hc; simpl in H;
      [|discriminate].
    destruct (map_result apply_clean_text rest) as [ss|e]; simpl in H;
      [|discriminate].
    injection H as <-. destruct (IH ss eq_refl) as [-> Hall].
    assert (Hcc : clean_cell c = s)
      by (unfold clean_cell; rewrite Hc; reflexivity).
    simpl. rewrite Hcc. split; [reflexivity|].
    intros x [<- | Hx]; [rewrite Hcc; exact Hc | auto].
Qed.

Lemma Forall2_map_self {A B : Type} (P : A -> B -> Prop) (h : A -> B)
  (l : list A) :
  (forall x, In x l -> P x (h x)) -> Forall2 P l (map h l).
Proof.
  induction l as [|a l IH]; simpl; intros H; constructor.
  - apply H. auto.
  - apply IH. intros x Hx. apply H. auto.
Qed.

Lemma passes_cell_ge (df : DataFrame) (min_tokens : Z) (r : row) :
  passes (fun r => cell_ge min_tokens (row_get (columns df) "token_count" r)) r
  = enough_tokens df min_tokens r.
Proof.
  unfold passes, enough_tokens, cell_ge.
  destruct (row_get (columns df) "token_count" r) as [[| s | z] | ts];
    reflexivity.
Qed.

Section PreprocessInvariant.

Variable word_tokenize : string -> list string.
Variable stop_words : list string.

Let tokens_of (s : string) : list string :=
  tokenize_text word_tokenize stop_words s.

(** What preprocessing makes of one row [r]: row [r'] under the labels
    [cols']. *)
Let processed (cols : list string) (text_col : string) (cols' : list string)
  (r r' : row) : Prop :=
  let s := clean_cell (row_get cols text_col r) in
  apply_clean_text (row_get cols text_col r) = Ok s
  /\ row_get cols' "clean_text" r' = Val (Str s)
  /\ row_get cols' "tokens" r' = Toks (tokens_of s)
  /\ row_get cols' "token_count" r'
     = Val (Int (Z.of_nat (length (tokens_of s))))
  /\ forall c, c <> "clean_text" -> c <> "tokens" -> c <> "token_count" ->
               row_get cols' c r' = row_get cols c r.

Lemma preprocess_articles_cells (df out : DataFrame) (text_col : string) :
  text_column df = Some text_col ->
  preprocess_articles word_tokenize stop_words df = Ok out ->
  len out = len df
  /\ Forall2 (processed (columns df) text_col (columns out))
             (rows df) (rows out).
Proof.
  intros Hcol Hpre. unfold preprocess_articles in Hpre.
  unfold text_column in Hcol. rewrite Hcol in Hpre.
  destruct (map_result apply_clean_text
              (map (row_get (columns df) text_col) (rows df)))
    as [cleaned|e] eqn:Hclean; simpl in Hpre; [|discriminate].
  destruct (map_result_clean _ _ Hclean) as [-> Hok].
  rewrite !map_map in Hpre. cbv beta in Hpre.
  set (cell_of := fun r : row => row_get (columns df) text_col r) in *.
  rewrite (set_column_map "clean_text"
             (fun r => Val (Str (clean_cell (cell_of r))))
             (fun r => r) (rows df) df) in Hpre
    by (symmetry; apply map_id).
  match type of Hpre with
  | context [set_column "tokens" _ ?d] =>
      rewrite (set_column_map "tokens"
                 (fun r => Toks (tokenize_text word_tokenize stop_words
                                   (clean_cell (cell_of r))))
                 _ (rows df) d) in Hpre by reflexivity
  end.
  cbv beta in Hpre.
  match type of Hpre with
  | context [set_column "token_count" _ ?d] =>
      rewrite (set_column_map "token_count"
                 (fun r => Val (Int (Z.of_nat
                            (length (tokenize_text word_tokenize stop_words
                                       (clean_cell (cell_of r)))))))
                 _ (rows df) d) in Hpre by reflexivity
  end.
  injection Hpre as <-. cbn [columns rows]. split.
  - unfold len. cbn [rows]. apply length_map.
  - apply Forall2_map_self. intros r Hr. unfold processed. cbv zeta.
    fold (cell_of r). split.
    + apply Hok. apply in_map. exact Hr.
    + split; [|split; [|split]].
      * rewrite put_cell_other by discriminate.
        rewrite put_cell_other by discriminate.
        apply put_cell_same.
      * rewrite put_cell_other by discriminate.
        apply put_cell_same.
      * apply put_cell_same.
      * intros c H1 H2 H3.
        rewrite !put_cell_other by assumption. reflexivity.
Qed.

(** Preprocessing keeps every row, in order, writes the cleaned text, its
    tokens and their number into three columns and leaves the cells of
    every other column alone: the token count of a row is always the
    number of tokens of its own cleaned text. *)
Theorem preprocess_articles_rows (df out : DataFrame) (text_col : string) :
  text_column df = Some text_col ->
  preprocess_articles word_tokenize stop_words df = Ok out ->
  len out = len df
  /\ Forall2 (processed (columns df) text_col (columns out))
             (rows df) (rows out).
Proof. apply preprocess_articles_cells. Qed.

(** A record whose text is missing or is no string gets the empty cleaned
    text and a token count of zero, and the short-article filter drops it
    at any positive threshold. *)
Theorem missing_text_is_filtered (df processed_df filtered_df : DataFrame)
  (text_col : string) (min_tokens : Z) (i : nat) (r : row) :
  text_column df = Some text_col ->
  preprocess_articles word_tokenize stop_words df = Ok processed_df ->
  filter_short_articles processed_df min_tokens = Ok filtered_df ->
  (0 < min_tokens)%Z ->
  nth_error (rows df) i = Some r ->
  (forall s, row_get (columns df) text_col r <> Val (Str s)) ->
  exists r',
    nth_error (rows processed_df) i = Some r'
    /\ row_get (columns processed_df) "clean_text" r' = Val (Str EmptyString)
    /\ row_get (columns processed_df) "token_count" r' = Val (Int 0)
    /\ ~ In r' (rows filtered_df).
Proof.
  intros Hcol Hpre Hfilter Hmin Hnth Hmissing.
  destruct (preprocess_articles_cells df processed_df text_col Hcol Hpre)
    as [_ Hall].
  assert (Hrow : exists r', nth_error (rows processed_df) i = Some r'
                            /\ processed (columns df) text_col
                                 (columns processed_df) r r').
  { clear - Hall Hnth. revert i Hnth.
    induction Hall as [|a b l l' Hab _ IH]; intros [|i] Hnth;
      try discriminate.
    - injection Hnth as ->. exists b. split; [reflexivity | exact Hab].
    - apply (IH i Hnth). }
  destruct Hrow as [r' [Hnth' [_ [Hclean [_ [Hcount _]]]]]].
  assert (Hempty : clean_cell (row_get (columns df) text_col r)
                   = EmptyString).
  { unfold clean_cell, apply_clean_text.
    destruct (row_get (columns df) text_col r) as [[| s | z] | ts];
      try reflexivity.
    - exfalso. apply (Hmissing s). reflexivity.
    - destruct ts as [|t [|t' ts]]; reflexivity. }
  rewrite Hempty in Hclean, Hcount.
  exists r'. split; [exact Hnth'|]. split; [exact Hclean|].
  split; [exact Hcount|].
  unfold filter_short_articles in Hfilter. apply where_inv in Hfilter.
  destruct Hfilter as [_ [_ Hrows]]. rewrite Hrows. intros Hin.
  apply filter_In in Hin. destruct Hin as [_ Hpass].
  rewrite passes_cell_ge in Hpass. unfold enough_tokens in Hpass.
  rewrite Hcount in Hpass. unfold tokens_of, tokenize_text in Hpass.
  cbn [String.eqb length Z.of_nat] in Hpass.
  apply Z.leb_le in Hpass. lia.
Qed.

End PreprocessInvariant.

Lemma preprocess_articles_rows_witness :
  len raw_articles_preprocessed = len raw_articles
  /\ Forall2
       (fun r r' =>
          apply_clean_text (row_get (columns raw_articles) "body" r)
          = Ok (clean_cell (row_get (columns raw_articles) "body" r))
          /\ row_get (columns raw_articles_preprocessed) "clean_text" r'
             = Val (Str (clean_cell (row_get (columns raw_articles) "body" r)))
          /\ row_get (columns raw_articles_preprocessed) "tokens" r'
             = Toks (tokenize_text plain_words []
                       (clean_cell (row_get (columns raw_articles) "body" r)))
          /\ row_get (columns raw_articles_preprocessed) "token_count" r'
             = Val (Int (Z.of_nat (length
                   (tokenize_text plain_words []
                      (clean_cell
                         (row_get (columns raw_articles) "body" r))))))
          /\ forall c, c <> "clean_text" -> c <> "tokens" ->
                       c <> "token_count" ->
                       row_get (columns raw_articles_preprocessed) c r'
                       = row_get (columns raw_articles) c r)
       (rows raw_articles) (rows raw_articles_preprocessed).
Proof.
  apply (preprocess_articles_rows plain_words [] raw_articles
           raw_articles_preprocessed "body").
  - reflexivity.
  - vm_compute. reflexivity.
Defined.

(** ** Loading *)

Lemma load_dir_map (w : World) (path : string)
  (tag : DataFrame -> DataFrame) :
  load_dir w path tag = map tag (readable_csv w path).
Proof.
  unfold readable_csv, load_dir. destruct (listdir w path) as [entries|];
    [|reflexivity].
  induction entries as [|[name parsed] rest IH]; simpl; [reflexivity|].
  destruct (endswith name ".csv"); [|exact IH].
  destruct parsed as [df|]; simpl; [f_equal|]; exact IH.
Qed.

Lemma concat_frames_len (frames : list DataFrame) :
  len (concat_frames frames) = list_sum (map len frames).
Proof.
  unfold len, concat_frames. cbn [rows]. rewrite length_flat_map.
  f_equal. apply map_ext. intros f. apply length_map.
Qed.

Lemma set_column_const_len (c : string) (v : cell) (df : DataFrame) :
  len (set_column_const c v df) = len df.
Proof. apply set_column_len. Qed.

Lemma map_len_tag (tag : DataFrame -> DataFrame) (frames : list DataFrame) :
  (forall df, len (tag df) = len df) ->
  map len (map tag frames) = map len frames.
Proof.
  intros H. rewrite map_map. apply map_ext. exact H.
Qed.

Lemma gdelt_source_len (df : DataFrame) : len (gdelt_source df) = len df.
Proof.
  unfold gdelt_source.
  destruct (has_column "source_name" (columns df));
    [apply set_column_len|].
  destruct (has_column "source" (columns df)); simpl;
    [reflexivity | apply set_column_len].
Qed.

(** Tagging and concatenation keep the number of records. *)
Lemma load_chinese_len (w : World) :
  len (load_chinese_state_media w)
  = list_sum (map len (flat_map (readable_csv w) chinese_directories)).
Proof.
  unfold load_chinese_state_media, chinese_directories.
  rewrite !load_dir_map. cbn [flat_map]. rewrite app_nil_r.
  rewrite !map_app.
  rewrite <- (map_len_tag (set_column_const "source" (Val (Str "China Daily")))
                (readable_csv w (BASE_PATH ++ "/data/raw/china_daily")))
    by (intros; apply set_column_len).
  rewrite <- (map_len_tag (set_column_const "source" (Val (Str "Xinhua")))
                (readable_csv w (BASE_PATH ++ "/data/raw/xinhua")))
    by (intros; apply set_column_len).
  rewrite <- (map_len_tag (set_column_const "source" (Val (Str "ECNS")))
                (readable_csv w (BASE_PATH ++ "/data/raw/ecns")))
    by (intros; apply set_column_len).
  rewrite <- (map_len_tag (set_column_const "source" (Val (Str "Global Times")))
                (readable_csv w (BASE_PATH ++ "/data/raw/global_times")))
    by (intros; apply set_column_len).
  rewrite <- !map_app.
  match goal with
  | |- context [match ?l with [] => _ | _ :: _ => _ end] =>
      destruct l as [|f rest] eqn:Hall
  end.
  - reflexivity.
  - rewrite set_column_const_len, concat_frames_len. reflexivity.
Qed.

Lemma load_western_len (w : World) :
  len (load_western_media w)
  = list_sum (map len (flat_map (readable_csv w) western_directories)).
Proof.
  unfold load_western_media, western_directories.
  rewrite !load_dir_map. cbn [flat_map]. rewrite app_nil_r.
  rewrite !map_app.
  rewrite <- (map_len_tag (set_column_const "source" (Val (Str "The Guardian")))
                (readable_csv w (BASE_PATH ++ "/data/raw/guardian")))
    by (intros; apply set_column_len).
  rewrite <- (map_len_tag gdelt_source
                (readable_csv w (BASE_PATH ++ "/data/raw/gdelt_western")))
    by apply gdelt_source_len.
  rewrite <- !map_app.
  match goal with
  | |- context [match ?l with [] => _ | _ :: _ => _ end] =>
      destruct l as [|f rest] eqn:Hall
  end.
  - reflexivity.
  - rewrite set_column_const_len, concat_frames_len. reflexivity.
Qed.

Lemma chars_append (a b : string) :
  list_ascii_of_string (a ++ b)
  = list_ascii_of_string a ++ list_ascii_of_string b.
Proof.
  induction a as [|c a IH]; simpl; [reflexivity | rewrite IH; reflexivity].
Qed.

Lemma strip_prefix_self (s t : list ascii) : strip_prefix s (s ++ t) = Some t.
Proof.
  induction s as [|a s IH]; simpl; [reflexivity|].
  rewrite Ascii.eqb_refl. exact IH.
Qed.

(** [endswith] holds of the names that are a stem followed by the
    suffix. *)
Lemma endswith_stem (name suffix : string) :
  endswith name suffix = true <-> exists stem, name = (stem ++ suffix)%string.
Proof.
  unfold endswith. split.
  - destruct (strip_prefix _ _) as [t|] eqn:Ht; [|discriminate]. intros _.
    apply strip_prefix_app in Ht.
    exists (string_of_list_ascii (rev t)).
    rewrite <- (string_of_list_ascii_of_string name).
    rewrite <- (string_of_list_ascii_of_string
                  (string_of_list_ascii (rev t) ++ suffix)).
    f_equal. rewrite chars_append, list_ascii_of_string_of_list_ascii.
    rewrite <- (rev_involutive (list_ascii_of_string name)), Ht.
    rewrite rev_app_distr, rev_involutive. reflexivity.
  - intros [stem ->]. rewrite chars_append, rev_app_distr.
    rewrite strip_prefix_self. reflexivity.
Qed.

Lemma csv_name_stem (name : string) :
  csv_name name = true <-> exists stem, name = (stem ++ ".csv")%string.
Proof.
  induction name as [|c rest IH].
  - split; [discriminate|]. intros [[|a stem] H]; discriminate H.
  - cbn [csv_name]. rewrite orb_true_iff, IH, String.eqb_eq. split.
    + intros [-> | [stem ->]].
      * exists EmptyString. reflexivity.
      * exists (String c stem). reflexivity.
    + intros [[|a stem] H].
      * left. exact H.
      * right. exists stem. simpl in H. injection H as _ H. exact H.
Qed.

Lemma endswith_csv_name (name : string) :
  endswith name ".csv" = csv_name name.
Proof.
  destruct (endswith name ".csv") eqn:He; destruct (csv_name name) eqn:Hc;
    try reflexivity.
  - apply endswith_stem, csv_name_stem in He. congruence.
  - apply csv_name_stem, endswith_stem in Hc. congruence.
Qed.

(** What [load_dir] reads under a directory holds the records of the
    directory. *)
Lemma readable_csv_records (w : World) (path : string) :
  list_sum (map len (readable_csv w path)) = directory_records w path.
Proof.
  unfold readable_csv, load_dir, listdir, directory_records.
  destruct (find (fun d => String.eqb (fst d) path) (directories w))
    as [[name entries]|]; [|reflexivity].
  cbn [option_map snd].
  induction entries as [|[file parsed] rest IH]; [reflexivity|].
  cbn [flat_map map list_sum fst snd]. unfold file_records at 1.
  cbn [fst snd]. rewrite endswith_csv_name.
  unfold list_sum in *.
  destruct parsed as [df|]; destruct (csv_name file);
    cbn [app map fold_right]; rewrite IH; reflexivity.
Qed.

Lemma list_sum_flat_map {A B : Type} (size : B -> nat) (f : A -> list B)
  (l : list A) :
  list_sum (map size (flat_map f l))
  = list_sum (map (fun a => list_sum (map size (f a))) l).
Proof.
  induction l as [|a l IH]; [reflexivity|].
  cbn [flat_map map list_sum]. rewrite map_app, list_sum_app, IH.
  reflexivity.
Qed.

(** The Chinese loader returns exactly the records of the file system
    under its four directories: for each directory that exists, those of
    every file whose name ends in [.csv] and that reads without error.
    Files of another name, files that fail to read and missing directories
    add nothing, and nothing that is there is lost. *)
Theorem load_chinese_count (w : World) :
  len (load_chinese_state_media w)
  = list_sum (map (directory_records w) chinese_directories).
Proof.
  rewrite load_chinese_len, list_sum_flat_map.
  f_equal. apply map_ext. intros path. apply readable_csv_records.
Qed.

(** The same for the Western loader and its two directories. *)
Theorem load_western_count (w : World) :
  len (load_western_media w)
  = list_sum (map (directory_records w) western_directories).
Proof.
  rewrite load_western_len, list_sum_flat_map.
  f_equal. apply map_ext. intros path. apply readable_csv_records.
Qed.

(** In [small_world] the Xinhua directory holds one readable [.csv] file
    of three records, an unreadable one and a text file; the Guardian
    directory holds one file of two records; no other directory exists. *)
Lemma load_chinese_count_witness :
  len (load_chinese_state_media small_world) = 3%nat.
Proof.
  exact (eq_trans (load_chinese_count small_world) eq_refl).
Defined.

Lemma load_western_count_witness :
  len (load_western_media small_world) = 2%nat.
Proof.
  exact (eq_trans (load_western_count small_world) eq_refl).
Defined.

Lemma set_column_const_cells (c : string) (v : cell) (df : DataFrame)
  (r' : row) :
  In r' (rows (set_column_const c v df)) ->
  row_get (columns (set_column_const c v df)) c r' = v
  /\ exists r, In r (rows df)
       /\ forall c', c' <> c ->
            row_get (columns (set_column_const c v df)) c' r'
            = row_get (columns df) c' r.
Proof.
  unfold set_column_const. rewrite set_column_rows. cbn [rows columns].
  rewrite fit_exact by apply repeat_length.
  intros H. apply in_map_iff in H. destruct H as [[r v'] [<- Hin]].
  pose proof (in_combine_l _ _ _ _ Hin) as Hr.
  apply in_combine_r in Hin. apply repeat_spec in Hin. subst v'.
  split; [apply put_cell_same|].
  exists r. split; [exact Hr|].
  intros c' Hne. apply put_cell_other. exact Hne.
Qed.

Lemma union_step_acc (frames : list DataFrame) : forall acc c,
  In c acc ->
  In c (fold_left
          (fun acc df =>
             acc ++ filter (fun c => negb (has_column c acc)) (columns df))
          frames acc).
Proof.
  induction frames as [|f rest IH]; intros acc c H; simpl; [exact H|].
  apply IH. apply in_or_app. left. exact H.
Qed.

Lemma union_step_frame (frames : list DataFrame) : forall acc f c,
  In f frames -> In c (columns f) ->
  In c (fold_left
          (fun acc df =>
             acc ++ filter (fun c => negb (has_column c acc)) (columns df))
          frames acc).
Proof.
  induction frames as [|f0 rest IH]; intros acc f c Hf Hc; simpl.
  - contradiction.
  - destruct Hf as [<- | Hf]; [|apply (IH _ f); assumption].
    apply union_step_acc. apply in_or_app.
    destruct (has_column c acc) eqn:E.
    + left. apply has_column_In. exact E.
    + right. apply filter_In. split; [exact Hc | rewrite E; reflexivity].
Qed.

(** Concatenation keeps, for every row, the cells under the labels of the
    frame the row came from. *)
Lemma concat_frames_cells (frames : list DataFrame) (r' : row) :
  In r' (rows (concat_frames frames)) ->
  exists f r,
    In f frames /\ In r (rows f)
    /\ forall c, In c (columns f) ->
         row_get (columns (concat_frames frames)) c r'
         = row_get (columns f) c r.
Proof.
  unfold concat_frames. cbn [rows columns]. intros H.
  apply in_flat_map in H. destruct H as [f [Hf H]].
  apply in_map_iff in H. destruct H as [r [<- Hr]].
  exists f, r. split; [exact Hf|]. split; [exact Hr|].
  intros c Hc. apply row_get_reindex. apply has_column_In.
  unfold union_columns. apply (union_step_frame frames [] f c Hf Hc).
Qed.

Lemma tagged_source (name : string) (df : DataFrame) (r : row) :
  In r (rows (set_column_const "source" (Val (Str name)) df)) ->
  In "source" (columns (set_column_const "source" (Val (Str name)) df))
  /\ row_get (columns (set_column_const "source" (Val (Str name)) df))
       "source" r = Val (Str name).
Proof.
  intros H. split.
  - apply has_column_In. unfold set_column_const.
    rewrite set_column_rows. cbn [columns].
    rewrite has_column_with, String.eqb_refl. apply orb_true_r.
  - apply (set_column_const_cells "source" (Val (Str name)) df r H).
Qed.

(** Every record the Chinese loader returns is labelled Chinese State
    Media and carries the source name of the directory it was read from,
    whatever the file itself said. *)
Theorem load_chinese_labels (w : World) (r : row) :
  In r (rows (load_chinese_state_media w)) ->
  category_of (load_chinese_state_media w) r = chinese_label
  /\ In (row_get (columns (load_chinese_state_media w)) "source" r)
        chinese_sources.
Proof.
  unfold load_chinese_state_media, category_of.
  rewrite !load_dir_map.
  match goal with
  | |- context [match ?l with [] => _ | _ :: _ => _ end] =>
      remember l as all eqn:Hall; destruct all as [|f0 rest]
  end; [intros []|].
  intros Hr.
  destruct (set_column_const_cells _ _ _ r Hr) as [Hcat [r1 [Hr1 Hsame]]].
  split; [exact Hcat|].
  rewrite (Hsame "source") by discriminate.
  destruct (concat_frames_cells _ r1 Hr1) as [f [r0 [Hf [Hr0 Hcells]]]].
  rewrite Hall in Hf.
  assert (Htag : exists name df,
            In (Val (Str name)) chinese_sources
            /\ f = set_column_const "source" (Val (Str name)) df).
  { repeat (apply in_app_or in Hf; destruct Hf as [Hf | Hf]);
      apply in_map_iff in Hf; destruct Hf as [df [<- _]];
      eexists; exists df; (split; [|reflexivity]); simpl; auto. }
  destruct Htag as [name [df [Hname ->]]].
  destruct (tagged_source name df r0 Hr0) as [Hin Hsrc].
  rewrite (Hcells "source" Hin), Hsrc. exact Hname.
Qed.

(** Every record the Western loader returns is labelled Western Media. *)
Theorem load_western_labels (w : World) (r : row) :
  In r (rows (load_western_media w)) ->
  category_of (load_western_media w) r = western_label.
Proof.
  unfold load_western_media, category_of.
  match goal with
  | |- context [match ?l with [] => _ | _ :: _ => _ end] =>
      destruct l as [|f0 rest]
  end; [intros []|].
  intros Hr. apply (set_column_const_cells _ _ _ r Hr).
Qed.

Lemma load_chinese_labels_witness :
  category_of (load_chinese_state_media small_world)
    [Val (Str "http://b"); Val (Str "other"); Val (Str "Xinhua");
     Val (Str "Chinese State Media")]
  = chinese_label
  /\ In (row_get (columns (load_chinese_state_media small_world)) "source"
           [Val (Str "http://b"); Val (Str "other"); Val (Str "Xinhua");
            Val (Str "Chinese State Media")])
        chinese_sources.
Proof.
  apply (load_chinese_labels small_world). vm_compute. auto.
Defined.

Lemma load_western_labels_witness :
  category_of (load_western_media small_world)
    [Val (Str "same"); Val (Str "text"); Val (Str "The Guardian");
     Val (Str "Western Media")]
  = western_label.
Proof.
  apply (load_western_labels small_world). vm_compute. auto.
Defined.

(** ** Year extraction *)

Section YearExtractionFacts.

Variable to_datetime_year : list cell -> result (list cell).

Lemma year_from_cases (candidates : list string) (df : DataFrame) :
  year_from to_datetime_year candidates df = df
  \/ exists years,
       year_from to_datetime_year candidates df = set_column "year" years df.
Proof.
  induction candidates as [|c rest IH]; simpl; [auto|].
  destruct (has_column c (columns df)); [|exact IH].
  destruct (to_datetime_year _) as [years|e]; [eauto | exact IH].
Qed.

Lemma set_column_has (c : string) (values : list cell) (df : DataFrame) :
  has_column c (columns (set_column c values df)) = true.
Proof.
  rewrite set_column_rows. cbn [columns].
  rewrite has_column_with, String.eqb_refl. apply orb_true_r.
Qed.

(** Extracting the year a second time changes nothing, and extraction
    never adds or drops a row. *)
Theorem extract_year_idempotent (df : DataFrame) :
  extract_year to_datetime_year (extract_year to_datetime_year df)
  = extract_year to_datetime_year df
  /\ len (extract_year to_datetime_year df) = len df.
Proof.
  unfold extract_year at 2 3 4.
  destruct (has_column "year" (columns df)) eqn:Hy.
  - split; [|reflexivity]. unfold extract_year. rewrite Hy. reflexivity.
  - destruct (has_column "publication_date" (columns df)) eqn:Hp.
    + destruct (year_from_cases ["publication_date"; "seendate"; "date"] df)
        as [E | [years E]]; rewrite E.
      * split; [|reflexivity]. unfold extract_year. rewrite Hy, Hp. exact E.
      * split; [|apply set_column_len].
        unfold extract_year. rewrite set_column_has. reflexivity.
    + split; [|reflexivity]. unfold extract_year. rewrite Hy, Hp.
      reflexivity.
Qed.

End YearExtractionFacts.

(** ** More on the standardiser *)

(** A label is kept, or it was the first alias of an absent field and
    takes that field's name. *)
Lemma standard_label_cases (cols : list string) (c : string) :
  standard_label cols c = c
  \/ exists canon,
       In canon canonical_fields
       /\ standard_label cols c = canon
       /\ ~ In canon cols
       /\ first_alias cols canon = Some c.
Proof.
  assert (Hfix : forall k k', In k canonical_fields ->
            In k' canonical_fields -> rename_to cols k k' = k')
    by (intros k k' Hk Hk'; apply rename_to_fixed;
        apply canonical_no_alias; assumption).
  assert (H1 : In "headline" canonical_fields) by (simpl; auto).
  assert (H2 : In "body_text" canonical_fields) by (simpl; auto).
  assert (H3 : In "publication_date" canonical_fields) by (simpl; auto).
  unfold standard_label. cbn [canonical_fields fold_left].
  destruct (rename_to_cases cols "headline" c) as [E1 | [E1 [A1 F1]]];
    rewrite E1.
  - destruct (rename_to_cases cols "body_text" c) as [E2 | [E2 [A2 F2]]];
      rewrite E2.
    + destruct (rename_to_cases cols "publication_date" c)
        as [E3 | [E3 [A3 F3]]]; rewrite E3; [left; reflexivity|].
      right. exists "publication_date".
      apply has_column_not_In in A3. auto.
    + rewrite (Hfix _ _ H3 H2). right. exists "body_text".
      apply has_column_not_In in A2. auto.
  - rewrite (Hfix _ _ H2 H1), (Hfix _ _ H3 H1). right. exists "headline".
    apply has_column_not_In in A1. auto.
Qed.

(** Distinct labels stay distinct: standardising never makes two columns
    share a name. *)
Theorem standardize_columns_distinct (df : DataFrame) :
  NoDup (columns df) -> NoDup (columns (standardize_columns df)).
Proof.
  intros Hnd. unfold standardize_columns.
  rewrite standardize_fold. cbn [columns]. rewrite standardize_labels.
  apply NoDup_map_NoDup_ForallPairs; [|exact Hnd].
  intros x y Hx Hy Heq.
  destruct (standard_label_cases (columns df) x) as [Ex | [kx [_ [Ex [Ax Fx]]]]];
    destruct (standard_label_cases (columns df) y)
      as [Ey | [ky [_ [Ey [Ay Fy]]]]].
  - congruence.
  - exfalso. apply Ay. rewrite <- Ey, <- Heq, Ex. exact Hx.
  - exfalso. apply Ax. rewrite <- Ex, Heq, Ey. exact Hy.
  - assert (kx = ky) by congruence. subst ky. congruence.
Qed.

Lemma standardize_columns_distinct_witness :
  NoDup (columns (standardize_columns titled_frame)).
Proof.
  apply (standardize_columns_distinct titled_frame).
  repeat constructor; simpl; intuition discriminate.
Defined.

(** Standardising a standardised frame changes nothing. *)
Theorem standardize_columns_idempotent (df : DataFrame) :
  standardize_columns (standardize_columns df) = standardize_columns df.
Proof.
  unfold standardize_columns. rewrite !standardize_fold. cbn [columns rows].
  f_equal. rewrite !standardize_labels.
  set (cols := columns df). set (cols' := map (standard_label cols) cols).
  transitivity (map (fun c : string => c) cols'); [|apply map_id].
  apply map_ext_in.
  intros c' Hc'. apply standard_label_other. intros canon Hk.
  destruct (has_column canon cols) eqn:Hcanon.
  - left. apply has_column_In in Hcanon. unfold cols'. apply in_map_iff.
    exists canon. split; [|exact Hcanon].
    apply (standard_label_present cols canon canon Hk Hcanon). reflexivity.
  - apply has_column_not_In in Hcanon.
    destruct (first_alias cols canon) as [a|] eqn:Ha.
    + left. unfold cols'. apply in_map_iff. exists a. split.
      * apply standard_label_first_alias; assumption.
      * apply (first_alias_In cols canon a Ha).
    + right. intros Hsome. apply first_alias_In in Hsome.
      destruct Hsome as [Halias Hin]. unfold cols' in Hin.
      apply in_map_iff in Hin. destruct Hin as [c [Hc Hcin]].
      destruct (standard_label_cases cols c) as [E | [k [Hk' [E _]]]].
      * unfold first_alias in Ha.
        apply (find_none _ _ Ha c') in Halias.
        rewrite <- Hc, E in Halias.
        apply has_column_not_In in Halias. contradiction.
      * rewrite <- Hc, E in Halias.
        apply (canonical_no_alias k canon Hk' Hk). exact Halias.
Qed.

(** ** More on deduplication *)

Section DropDuplicatesKeys.

Variable key : row -> cell.

Lemma drop_dup_rows_keys (rs : list row) : forall seen,
  NoDup (map key (drop_dup_rows key seen rs))
  /\ forall r, In r (drop_dup_rows key seen rs) ->
       existsb (cell_eqb (key r)) seen = false.
Proof.
  induction rs as [|r0 rest IH]; intros seen; simpl.
  - split; [constructor | tauto].
  - destruct (existsb (cell_eqb (key r0)) seen) eqn:Hseen; [apply IH|].
    destruct (IH (key r0 :: seen)) as [Hnd Hfresh]. split.
    + simpl. constructor; [|exact Hnd].
      intros Hin. apply in_map_iff in Hin. destruct Hin as [r [Hk Hr]].
      specialize (Hfresh r Hr). simpl in Hfresh.
      rewrite Hk, cell_eqb_refl in Hfresh. discriminate.
    + intros r [<- | Hr]; [exact Hseen|].
      specialize (Hfresh r Hr). simpl in Hfresh.
      apply orb_false_iff in Hfresh. tauto.
Qed.

(** Rows with distinct keys, none of them seen before, are all kept. *)
Lemma drop_dup_rows_distinct (rs : list row) : forall seen,
  NoDup (map key rs) ->
  (forall r, In r rs -> existsb (cell_eqb (key r)) seen = false) ->
  drop_dup_rows key seen rs = rs.
Proof.
  induction rs as [|r0 rest IH]; intros seen Hnd Hfresh; simpl;
    [reflexivity|].
  rewrite (Hfresh r0 (or_introl eq_refl)). f_equal.
  simpl in Hnd. inversion Hnd as [|k ks Hnotin Hnd']. subst.
  apply IH; [exact Hnd'|].
  intros r Hr. simpl. rewrite (Hfresh r (or_intror Hr)), orb_false_r.
  apply cell_eqb_neq. intros Heq. apply Hnotin. rewrite <- Heq.
  apply in_map. exact Hr.
Qed.

End DropDuplicatesKeys.

(** After deduplication no two records share a url value, the missing
    value included. *)
Theorem dedup_by_url_distinct (df : DataFrame) :
  has_column "url" (columns df) = true ->
  NoDup (map (url_of df) (rows (dedup_by_url df))).
Proof.
  intros Hcol. unfold dedup_by_url. rewrite Hcol.
  unfold drop_duplicates, url_of. cbn [rows].
  apply drop_dup_rows_keys.
Qed.

Lemma dedup_by_url_distinct_witness :
  NoDup (map (url_of three_articles) (rows (dedup_by_url three_articles))).
Proof.
  apply (dedup_by_url_distinct three_articles). reflexivity.
Defined.

(** A frame whose url values are already distinct passes unchanged, and
    deduplicating twice is deduplicating once. *)
Theorem dedup_by_url_idempotent (df : DataFrame) :
  (NoDup (map (url_of df) (rows df)) -> dedup_by_url df = df)
  /\ dedup_by_url (dedup_by_url df) = dedup_by_url df.
Proof.
  assert (Hfix : forall d, NoDup (map (url_of d) (rows d)) ->
            dedup_by_url d = d).
  { intros [cols rs] Hnd. unfold dedup_by_url. cbn [columns].
    destruct (has_column "url" cols); [|reflexivity].
    unfold drop_duplicates. cbn [columns rows]. f_equal.
    apply drop_dup_rows_distinct; [exact Hnd | reflexivity]. }
  split; [apply Hfix|].
  destruct (has_column "url" (columns df)) eqn:Hcol.
  - apply Hfix.
    assert (Hcols : columns (dedup_by_url df) = columns df)
      by (unfold dedup_by_url; rewrite Hcol; reflexivity).
    unfold url_of. rewrite Hcols. apply (dedup_by_url_distinct df Hcol).
  - unfold dedup_by_url. rewrite Hcol, Hcol. reflexivity.
Qed.

(** ** More on the short-article filter *)

(** The filter keeps exactly the rows with enough tokens, in their order
    and under the same labels: no row that qualifies is dropped. *)
Theorem filter_short_articles_exact (df out : DataFrame) (min_tokens : Z) :
  filter_short_articles df min_tokens = Ok out ->
  columns out = columns df
  /\ rows out = filter (enough_tokens df min_tokens) (rows df).
Proof.
  intros H. apply where_inv in H. destruct H as [_ [Hcols Hrows]].
  split; [exact Hcols|]. rewrite Hrows. apply filter_ext.
  intros r. apply passes_cell_ge.
Qed.

Lemma filter_short_articles_exact_witness :
  columns (mkDataFrame ["headline"; "token_count"]
             [ [Val (Str "long"); Val (Int 25)];
               [Val (Str "exact"); Val (Int 20)] ])
  = columns scored_articles
  /\ rows (mkDataFrame ["headline"; "token_count"]
             [ [Val (Str "long"); Val (Int 25)];
               [Val (Str "exact"); Val (Int 20)] ])
     = filter (enough_tokens scored_articles MIN_TOKENS)
              (rows scored_articles).
Proof.
  apply (filter_short_articles_exact scored_articles _ MIN_TOKENS).
  reflexivity.
Defined.

(** The filter raises instead of returning: [KeyError] without a
    [token_count] column, [TypeError] when a count is a [str] or a token
    list. *)
Theorem filter_short_articles_raises (df : DataFrame) (min_tokens : Z) :
  (has_column "token_count" (columns df) = false ->
   filter_short_articles df min_tokens = Raise (KeyError "token_count"))
  /\ (has_column "token_count" (columns df) = true ->
      (exists r, In r (rows df)
                 /\ cell_ge min_tokens
                       (row_get (columns df) "token_count" r)
                    = Raise TypeError) ->
      filter_short_articles df min_tokens = Raise TypeError).
Proof.
  unfold filter_short_articles, where_. split.
  - intros ->. reflexivity.
  - intros -> [r [Hr Hbad]].
    assert (Hrows : filter_rows
                      (fun r => cell_ge min_tokens
                                  (row_get (columns df) "token_count" r))
                      (rows df) = Raise TypeError).
    { induction (rows df) as [|r0 rest IH]; [contradiction|]. simpl.
      destruct Hr as [-> | Hr]; [rewrite Hbad; reflexivity|].
      destruct (cell_ge min_tokens (row_get (columns df) "token_count" r0))
        as [b|e] eqn:E0.
      - simpl. rewrite (IH Hr). reflexivity.
      - simpl. unfold cell_ge in E0.
        destruct (row_get (columns df) "token_count" r0) as [[| s | z] | ts];
          congruence. }
    rewrite Hrows. reflexivity.
Qed.

(** ** More on the balanced sampler *)

Lemma map_flat_map {A B C : Type} (f : B -> C) (g : A -> list B)
  (l : list A) :
  map f (flat_map g l) = flat_map (fun x => map f (g x)) l.
Proof.
  induction l as [|a l IH]; simpl; [reflexivity|].
  rewrite map_app, IH. reflexivity.
Qed.

Lemma flat_map_ext_in {A B : Type} (f g : A -> list B) (l : list A) :
  (forall x, In x l -> f x = g x) -> flat_map f l = flat_map g l.
Proof.
  induction l as [|a l IH]; simpl; intros H; [reflexivity|].
  rewrite (H a (or_introl eq_refl)), IH; [reflexivity|].
  intros x Hx. apply H. auto.
Qed.

Lemma map_const_repeat {A B : Type} (f : A -> B) (k : B) (l : list A) :
  (forall x, In x l -> f x = k) -> map f l = repeat k (length l).
Proof.
  induction l as [|a l IH]; simpl; intros H; [reflexivity|].
  rewrite (H a (or_introl eq_refl)), IH; [reflexivity|].
  intros x Hx. apply H. auto.
Qed.

Lemma strictly_sorted_filter (p : Z -> bool) (l : list Z) :
  StronglySorted Z.lt l -> StronglySorted Z.lt (filter p l).
Proof.
  intros Hs. induction Hs as [|x l Hs IH Hall]; simpl; [constructor|].
  destruct (p x); [|exact IH].
  constructor; [exact IH|].
  apply Forall_forall. intros z Hz. apply filter_In in Hz.
  rewrite Forall_forall in Hall. apply Hall. tauto.
Qed.

(** The years the sampler visits are in ascending order and lie in
    2017..2024, and each of them is the year of some row. *)
Lemma available_years_facts (df : DataFrame) (years : list Z) :
  available_years df = Ok years ->
  StronglySorted Z.lt years
  /\ forall y, In y years -> (2017 <= y <= 2024)%Z.
Proof.
  unfold available_years. destruct (get_column df "year") as [col|e];
    simpl; try discriminate.
  destruct (numbers_of col) as [ys|e]; simpl; try discriminate.
  intros H. injection H as <-. split.
  - apply strictly_sorted_filter, sorted_unique_sorted.
  - intros y Hy. apply filter_In in Hy. destruct Hy as [_ Hy].
    apply andb_true_iff in Hy. destruct Hy as [H1 H2].
    apply Z.leb_le in H1, H2. lia.
Qed.

Lemma reindex_id (cols : list string) (r : row) :
  NoDup cols -> length r = length cols -> reindex cols cols r = r.
Proof.
  intros Hnd Hlen. unfold reindex.
  apply (nth_ext _ _ (Val NaN) (Val NaN)).
  - rewrite length_map. symmetry. exact Hlen.
  - intros i Hi. rewrite length_map in Hi.
    rewrite (nth_indep _ (Val NaN) (row_get cols EmptyString r))
      by (rewrite length_map; exact Hi).
    rewrite (map_nth (fun c => row_get cols c r) cols EmptyString i).
    unfold row_get.
    destruct (col_index (nth i cols EmptyString) cols) as [j|] eqn:Hj.
    + destruct (col_index_bound _ _ _ Hj) as [Hjn Hjc].
      rewrite (proj1 (NoDup_nth cols EmptyString) Hnd j i Hjn Hi Hjc).
      reflexivity.
    + apply col_index_none, has_column_not_In in Hj.
      exfalso. apply Hj. apply nth_In. exact Hi.
Qed.

Section SamplerFacts.

Variable np_permutation : Z -> nat -> list nat.

Hypothesis np_permutation_spec :
  forall seed n, Permutation (np_permutation seed n) (seq 0 n).

Variable df : DataFrame.
Variable seed : Z.

Let chinese_df : DataFrame := category_rows df chinese_label.
Let western_df : DataFrame := category_rows df western_label.

Let frames (years : list Z) : list DataFrame :=
  balanced_frames np_permutation chinese_df western_df seed years.

Let laid_out (f : DataFrame) : list row :=
  map (reindex (columns df) (columns df)) (rows f).

(** A sampled row is a row of the input with the category and the year
    of its sample. *)
Lemma sample_rows_facts (own : cell) (year : Z) (n : nat) (r : row) :
  In r (rows (take_sample np_permutation
                (year_rows (category_rows df own) year) n seed)) ->
  In r (rows df) /\ category_of df r = own /\ year_of df r = Val (Int year).
Proof.
  intros Hr. apply (take_sample_In _ np_permutation_spec) in Hr.
  unfold year_rows, category_rows, select_rows in Hr. simpl in Hr.
  apply filter_In in Hr. destruct Hr as [Hr Hy].
  apply filter_In in Hr. destruct Hr as [Hr Hc].
  apply cell_eqb_eq in Hy, Hc. auto.
Qed.

Lemma frames_rows_facts (years : list Z) (f : DataFrame) (r : row) :
  In f (frames years) -> In r (rows f) ->
  In r (rows df)
  /\ (category_of df r = chinese_label \/ category_of df r = western_label)
  /\ exists year, In year years /\ year_of df r = Val (Int year).
Proof.
  unfold frames. induction years as [|year rest IH]; simpl; [tauto|].
  destruct (Nat.ltb 0 _).
  - intros [<- | [<- | H]] Hr.
    + destruct (sample_rows_facts _ _ _ _ Hr) as [H1 [H2 H3]].
      split; [exact H1|]. split; [left; exact H2|].
      exists year. split; [left; reflexivity | exact H3].
    + destruct (sample_rows_facts _ _ _ _ Hr) as [H1 [H2 H3]].
      split; [exact H1|]. split; [right; exact H2|].
      exists year. split; [left; reflexivity | exact H3].
    + destruct (IH H Hr) as [H1 [H2 [y [H3 H4]]]].
      split; [exact H1|]. split; [exact H2|].
      exists y. split; [right; exact H3 | exact H4].
  - intros H Hr. destruct (IH H Hr) as [H1 [H2 [y [H3 H4]]]].
    split; [exact H1|]. split; [exact H2|].
    exists y. split; [right; exact H3 | exact H4].
Qed.

(** The shape of a returned frame: the labels of the input, and the rows
    of the sampled frames one after the other. *)
Lemma balanced_output_shape (w : World) (out : DataFrame) :
  value_of (create_balanced_dataset np_permutation df seed) w = Ok out ->
  exists years,
    available_years df = Ok years
    /\ has_column "source_category" (columns df) = true
    /\ has_column "year" (columns df) = true
    /\ columns out = columns df
    /\ rows out = flat_map laid_out (frames years).
Proof.
  intros Hval.
  destruct (balanced_value_inv np_permutation df seed w out Hval)
    as [Hcat [years [Hyears Hconcat]]].
  exists years. split; [exact Hyears|]. split; [exact Hcat|].
  assert (Hyear : has_column "year" (columns df) = true).
  { unfold available_years, get_column in Hyears.
    destruct (has_column "year" (columns df)); [reflexivity | discriminate]. }
  split; [exact Hyear|].
  fold chinese_df western_df in Hconcat. fold (frames years) in Hconcat.
  assert (Hne : frames years <> [])
    by (intros E; rewrite E in Hconcat; discriminate).
  assert (Hout : out = concat_frames (frames years)).
  { destruct (frames years); [congruence|]. simpl in Hconcat. congruence. }
  assert (Hunion : union_columns (frames years) = columns df).
  { apply union_columns_same; [exact Hne|].
    intros f Hf. apply (balanced_frames_columns np_permutation df seed years).
    exact Hf. }
  rewrite Hout. unfold concat_frames. cbn [columns rows]. rewrite Hunion.
  split; [reflexivity|].
  apply flat_map_ext_in. intros f Hf. unfold laid_out.
  rewrite (balanced_frames_columns np_permutation df seed years f Hf).
  reflexivity.
Qed.

Lemma balanced_rows_source (w : World) (out : DataFrame) (r' : row) :
  value_of (create_balanced_dataset np_permutation df seed) w = Ok out ->
  In r' (rows out) ->
  columns out = columns df
  /\ exists r,
       In r (rows df)
       /\ r' = reindex (columns df) (columns df) r
       /\ (forall c, In c (columns df) ->
             row_get (columns out) c r' = row_get (columns df) c r)
       /\ (category_of df r = chinese_label
           \/ category_of df r = western_label)
       /\ exists y, year_of df r = Val (Int y) /\ (2017 <= y <= 2024)%Z.
Proof.
  intros Hval Hr'.
  destruct (balanced_output_shape w out Hval)
    as [years [Hyears [Hcat [Hyear [Hcols Hrows]]]]].
  split; [exact Hcols|].
  rewrite Hrows in Hr'. apply in_flat_map in Hr'.
  destruct Hr' as [f [Hf Hr']]. unfold laid_out in Hr'.
  apply in_map_iff in Hr'. destruct Hr' as [r [<- Hr]].
  destruct (frames_rows_facts years f r Hf Hr) as [Hin [Hlab [y [Hy Hry]]]].
  exists r. split; [exact Hin|]. split; [reflexivity|]. split.
  - intros c Hc. rewrite Hcols. apply row_get_reindex.
    apply has_column_In. exact Hc.
  - split; [exact Hlab|]. exists y. split; [exact Hry|].
    apply (available_years_facts df years Hyears). exact Hy.
Qed.

(** Every record of the balanced frame is a record of the input, laid out
    under the same labels with the same cells; it is Chinese State Media
    or Western Media and its year lies in 2017..2024.  Records of another
    category, without a year or of another year never get in. *)
Theorem balanced_rows_from_input (w : World) (out : DataFrame) (r' : row) :
  value_of (create_balanced_dataset np_permutation df seed) w = Ok out ->
  In r' (rows out) ->
  columns out = columns df
  /\ exists r,
       In r (rows df)
       /\ r' = reindex (columns df) (columns df) r
       /\ (forall c, In c (columns df) ->
             row_get (columns out) c r' = row_get (columns df) c r)
       /\ (category_of df r = chinese_label
           \/ category_of df r = western_label)
       /\ exists y, year_of df r = Val (Int y) /\ (2017 <= y <= 2024)%Z.
Proof. apply balanced_rows_source. Qed.

End SamplerFacts.

Lemma numbers_of_In (col : list cell) (ys : list Z) (z : Z) :
  numbers_of col = Ok ys -> (In z ys <-> In (Val (Int z)) col).
Proof.
  revert ys. induction col as [|c rest IH]; simpl; intros ys H.
  - injection H as <-. tauto.
  - destruct c as [[| s | z0] | ts]; try discriminate.
    + rewrite (IH ys H). split; [auto | intros [E | E]; [discriminate | auto]].
    + destruct (numbers_of rest) as [zs|e]; simpl in H; [|discriminate].
      injection H as <-. simpl. rewrite (IH zs eq_refl).
      split; intros [E | E]; auto; left; congruence.
Qed.

(** The sampler visits exactly the years of 2017..2024 that some row
    carries. *)
Lemma available_years_In (df : DataFrame) (years : list Z) (y : Z) :
  available_years df = Ok years ->
  (In y years <->
   (2017 <= y <= 2024)%Z
   /\ exists r, In r (rows df) /\ year_of df r = Val (Int y)).
Proof.
  unfold available_years, get_column.
  destruct (has_column "year" (columns df)); simpl; [|discriminate].
  destruct (numbers_of _) as [ys|e] eqn:Hnum; simpl; [|discriminate].
  intros H. injection H as <-.
  rewrite filter_In, sorted_unique_In, (numbers_of_In _ _ y Hnum).
  rewrite in_map_iff, andb_true_iff, !Z.leb_le. unfold year_of.
  split.
  - intros [[r [Hr Hin]] Hrange]. split; [lia | eauto].
  - intros [Hrange [r [Hin Hr]]]. split; [eauto | lia].
Qed.

Lemma NoDup_firstn {A : Type} (n : nat) (l : list A) :
  NoDup l -> NoDup (firstn n l).
Proof.
  intros H. rewrite <- (firstn_skipn n l) in H.
  apply NoDup_app_remove_r in H. exact H.
Qed.

Section SamplerLayout.

Variable np_permutation : Z -> nat -> list nat.

Hypothesis np_permutation_spec :
  forall seed n, Permutation (np_permutation seed n) (seq 0 n).

Variable df : DataFrame.
Variable seed : Z.

Let chinese_df : DataFrame := category_rows df chinese_label.
Let western_df : DataFrame := category_rows df western_label.

Let frames (years : list Z) : list DataFrame :=
  balanced_frames np_permutation chinese_df western_df seed years.

Lemma frames_layout (years : list Z) :
  flat_map (fun f => map (category_year df) (rows f)) (frames years)
  = balanced_layout df years.
Proof.
  unfold frames, balanced_layout.
  induction years as [|y rest IH]; [reflexivity|].
  cbn [balanced_frames flat_map].
  unfold year_sample_size at 1 2. rewrite !count_category_year_rows.
  fold chinese_df western_df.
  set (n := Nat.min (len (year_rows chinese_df y))
                    (len (year_rows western_df y))).
  assert (Hkey : forall own r,
            In r (rows (take_sample np_permutation
                          (year_rows (category_rows df own) y) n seed)) ->
            category_year df r = (own, Val (Int y))).
  { intros own r Hr.
    destruct (sample_rows_facts np_permutation np_permutation_spec df seed
                own y n r Hr) as [_ [Hc Hy]].
    unfold category_year. rewrite Hc, Hy. reflexivity. }
  destruct (Nat.ltb 0 n) eqn:Hn.
  - cbn [flat_map]. rewrite IH, app_assoc. f_equal. f_equal.
    + rewrite (map_const_repeat _ (chinese_label, Val (Int y)))
        by (apply Hkey).
      f_equal. apply (take_sample_len np_permutation np_permutation_spec).
      apply Nat.le_min_l.
    + rewrite (map_const_repeat _ (western_label, Val (Int y)))
        by (apply Hkey).
      f_equal. apply (take_sample_len np_permutation np_permutation_spec).
      apply Nat.le_min_r.
  - apply Nat.ltb_ge in Hn. assert (Hz : n = 0%nat) by lia.
    rewrite Hz. exact IH.
Qed.

(** The balanced frame is laid out year by year in ascending order, and
    within a year the Chinese sample comes first and the Western sample of
    the same size second. *)
Theorem balanced_frame_layout (w : World) (out : DataFrame) :
  value_of (create_balanced_dataset np_permutation df seed) w = Ok out ->
  exists years,
    available_years df = Ok years
    /\ StronglySorted Z.lt years
    /\ map (category_year out) (rows out) = balanced_layout df years.
Proof.
  intros Hval.
  destruct (balanced_output_shape np_permutation df seed w out Hval)
    as [years [Hyears [Hcat [Hyear [Hcols Hrows]]]]].
  exists years. split; [exact Hyears|].
  split; [apply (available_years_facts df years Hyears)|].
  rewrite Hrows, map_flat_map, <- frames_layout.
  apply flat_map_ext. intros f. rewrite map_map. apply map_ext.
  intros r. unfold category_year, category_of, year_of. rewrite Hcols.
  rewrite !row_get_reindex by assumption. reflexivity.
Qed.

Lemma frames_member (years : list Z) (y : Z) :
  In y years ->
  (0 < Nat.min (len (year_rows chinese_df y))
               (len (year_rows western_df y)))%nat ->
  In (take_sample np_permutation (year_rows chinese_df y)
        (Nat.min (len (year_rows chinese_df y))
                 (len (year_rows western_df y))) seed)
     (frames years)
  /\ In (take_sample np_permutation (year_rows western_df y)
          (Nat.min (len (year_rows chinese_df y))
                   (len (year_rows western_df y))) seed)
       (frames years).
Proof.
  intros Hin Hpos. unfold frames.
  induction years as [|year rest IH]; [contradiction|].
  cbn [balanced_frames].
  destruct Hin as [-> | Hin].
  - apply Nat.ltb_lt in Hpos. rewrite Hpos. simpl. auto.
  - destruct (IH Hin) as [H1 H2].
    destruct (Nat.ltb 0 _); simpl; auto.
Qed.

(** A sample as large as the frame holds every row of the frame. *)
Lemma take_sample_all (f : DataFrame) (r : row) :
  In r (rows f) ->
  In r (rows (take_sample np_permutation f (len f) seed)).
Proof.
  intros Hr. unfold take_sample. cbn [rows].
  destruct (In_nth _ _ [] Hr) as [i [Hi Hnth]].
  apply in_map_iff. exists i. split; [exact Hnth|].
  rewrite firstn_all2.
  - apply (Permutation_in _
             (Permutation_sym (np_permutation_spec seed (len f)))).
    apply in_seq. unfold len. unfold row in *. clear - Hi. lia.
  - rewrite (Permutation_length (np_permutation_spec seed (len f))).
    rewrite length_seq. apply Nat.le_refl.
Qed.

(** Only the larger category of a year is cut down: every record of the
    category with the fewer records in a year of 2017..2024 is in the
    balanced frame. *)
Theorem smaller_category_kept (w : World) (out : DataFrame)
  (own other : cell) (y : Z) (r : row) :
  value_of (create_balanced_dataset np_permutation df seed) w = Ok out ->
  (own = chinese_label /\ other = western_label)
  \/ (own = western_label /\ other = chinese_label) ->
  (2017 <= y <= 2024)%Z ->
  (count_category_year df own y <= count_category_year df other y)%nat ->
  In r (rows df) ->
  category_of df r = own ->
  year_of df r = Val (Int y) ->
  In (reindex (columns df) (columns df) r) (rows out).
Proof.
  intros Hval Hlabels Hrange Hle Hr Hc Hy.
  destruct (balanced_output_shape np_permutation df seed w out Hval)
    as [years [Hyears [Hcat [Hyear [Hcols Hrows]]]]].
  assert (Hin : In y years).
  { apply (available_years_In df years y Hyears). split; [exact Hrange|].
    exists r. auto. }
  rewrite !count_category_year_rows in Hle.
  assert (Hown : In r (rows (year_rows (category_rows df own) y))).
  { unfold year_rows, category_rows, select_rows. cbn [rows columns].
    apply filter_In. split.
    - apply filter_In. split; [exact Hr|]. apply cell_eqb_eq. exact Hc.
    - apply cell_eqb_eq. exact Hy. }
  assert (Hpos : (0 < len (year_rows (category_rows df own) y))%nat).
  { unfold len. destruct (rows (year_rows (category_rows df own) y));
      [contradiction | simpl; lia]. }
  rewrite Hrows. apply in_flat_map.
  destruct Hlabels as [[-> ->] | [-> ->]].
  - fold chinese_df western_df in Hle, Hown, Hpos.
    destruct (frames_member years y Hin) as [Hf _]; [lia|].
    rewrite Nat.min_l in Hf by exact Hle.
    eexists. split; [exact Hf|]. apply in_map. apply take_sample_all.
    exact Hown.
  - fold chinese_df western_df in Hle, Hown, Hpos.
    destruct (frames_member years y Hin) as [_ Hf]; [lia|].
    rewrite Nat.min_r in Hf by exact Hle.
    eexists. split; [exact Hf|]. apply in_map. apply take_sample_all.
    exact Hown.
Qed.

Lemma take_sample_NoDup (f : DataFrame) (n : nat) :
  NoDup (rows f) -> NoDup (rows (take_sample np_permutation f n seed)).
Proof.
  intros Hnd. unfold take_sample. cbn [rows].
  assert (Hperm : NoDup (firstn n (np_permutation seed (len f)))).
  { apply NoDup_firstn.
    apply (Permutation_NoDup
             (Permutation_sym (np_permutation_spec seed (len f)))).
    apply seq_NoDup. }
  apply NoDup_map_NoDup_ForallPairs; [|exact Hperm].
  intros i j Hi Hj Heq.
  assert (Hlt : forall k, In k (firstn n (np_permutation seed (len f))) ->
            (k < length (rows f))%nat).
  { intros k Hk. apply firstn_In in Hk.
    apply (Permutation_in _ (np_permutation_spec seed (len f))) in Hk.
    apply in_seq in Hk. unfold len in Hk. lia. }
  apply (proj1 (NoDup_nth (rows f) []) Hnd i j (Hlt i Hi) (Hlt j Hj) Heq).
Qed.

Lemma frames_NoDup (years : list Z) :
  NoDup (rows df) -> NoDup years ->
  NoDup (flat_map rows (frames years)).
Proof.
  intros Hrows Hnd. unfold frames.
  induction Hnd as [|y rest Hnotin Hnd IH]; [constructor|].
  cbn [balanced_frames]. destruct (Nat.ltb 0 _); [|exact IH].
  cbn [flat_map].
  assert (Hsel : forall own, NoDup (rows (year_rows (category_rows df own) y))).
  { intros own. unfold year_rows, category_rows, select_rows.
    cbn [rows columns]. apply NoDup_filter, NoDup_filter. exact Hrows. }
  assert (Hrest : forall own n r,
            In r (rows (take_sample np_permutation
                          (year_rows (category_rows df own) y) n seed)) ->
            ~ In r (flat_map rows
                      (balanced_frames np_permutation chinese_df western_df
                         seed rest))).
  { intros own n r Hr Hin. apply in_flat_map in Hin.
    destruct Hin as [f [Hf Hrf]].
    destruct (sample_rows_facts np_permutation np_permutation_spec df seed
                own y n r Hr) as [_ [_ Hy]].
    destruct (frames_rows_facts np_permutation np_permutation_spec df seed
                rest f r Hf Hrf) as [_ [_ [y' [Hy' Hry']]]].
    rewrite Hy in Hry'. injection Hry' as <-. contradiction. }
  apply NoDup_app; [apply take_sample_NoDup, Hsel | |].
  - apply NoDup_app; [apply take_sample_NoDup, Hsel | exact IH |].
    intros r Hr. apply (Hrest western_label _ r Hr).
  - intros r Hr Hin. apply in_app_or in Hin. destruct Hin as [Hin | Hin].
    + destruct (sample_rows_facts np_permutation np_permutation_spec df seed
                  chinese_label y _ r Hr) as [_ [Hc _]].
      destruct (sample_rows_facts np_permutation np_permutation_spec df seed
                  western_label y _ r Hin) as [_ [Hc' _]].
      rewrite Hc in Hc'. discriminate.
    + apply (Hrest chinese_label _ r Hr). exact Hin.
Qed.

(** Sampling is without replacement: when the input frame is well formed
    and holds no record twice, neither does the balanced frame, and its
    rows are rows of the input as they stand. *)
Theorem balanced_rows_distinct (w : World) (out : DataFrame) :
  well_formed df ->
  NoDup (rows df) ->
  value_of (create_balanced_dataset np_permutation df seed) w = Ok out ->
  NoDup (rows out) /\ incl (rows out) (rows df).
Proof.
  intros [Hcols_nd Hlen] Hnd Hval.
  destruct (balanced_output_shape np_permutation df seed w out Hval)
    as [years [Hyears [Hcat [Hyear [Hcols Hrows]]]]].
  assert (Hflat : rows out = flat_map rows (frames years)).
  { rewrite Hrows. apply flat_map_ext_in. intros f Hf.
    transitivity (map (fun r : row => r) (rows f)); [|apply map_id].
    apply map_ext_in. intros r Hr. apply reindex_id; [exact Hcols_nd|].
    apply Hlen.
    apply (frames_rows_facts np_permutation np_permutation_spec df seed
             years f r Hf Hr). }
  rewrite Hflat. split.
  - apply frames_NoDup; [exact Hnd|]. apply strictly_sorted_NoDup.
    apply (available_years_facts df years Hyears).
  - intros r Hr. apply in_flat_map in Hr. destruct Hr as [f [Hf Hr]].
    apply (frames_rows_facts np_permutation np_permutation_spec df seed
             years f r Hf Hr).
Qed.

End SamplerLayout.

(** ** The driver as a whole *)

Lemma quiet_ret {A : Type} (a : A) : quiet (ret a).
Proof.
  exists [], (Ok a). split; [reflexivity|].
  intros w. rewrite add_events_nil. reflexivity.
Qed.

Lemma quiet_lift {A : Type} (r : result A) : quiet (lift r).
Proof.
  exists [], r. split; [reflexivity|].
  intros w. rewrite add_events_nil. reflexivity.
Qed.

Lemma quiet_bind {A B : Type} (m : M A) (k : A -> M B) :
  quiet m -> (forall a, quiet (k a)) -> quiet (bind m k).
Proof.
  intros [evs [r [Hq Hm]]] Hk. destruct r as [a | e].
  - destruct (Hk a) as [evs' [r' [Hq' Hka]]].
    exists (evs ++ evs'), r'. split.
    + rewrite filter_app, Hq, Hq'. reflexivity.
    + intros w. unfold bind. rewrite Hm, Hka, add_events_app. reflexivity.
  - exists evs, (Raise e). split; [exact Hq|].
    intros w. unfold bind. rewrite Hm. reflexivity.
Qed.

Section DriverRuns.

Variable word_tokenize : string -> list string.
Variable stop_words : list string.
Variable to_datetime_year : list cell -> result (list cell).
Variable np_permutation : Z -> nat -> list nat.

Lemma quiet_sample (df : DataFrame) (n : nat) (seed : Z) :
  quiet (sample np_permutation df n seed).
Proof.
  unfold sample. destruct (Nat.ltb (len df) n); [apply quiet_lift|].
  apply quiet_bind; [|intros; apply quiet_ret].
  exists [Sampled seed (len df) n], (Ok tt). split; reflexivity.
Qed.

Lemma quiet_sample_years (chinese_df western_df : DataFrame) (seed : Z)
  (years : list Z) :
  quiet (sample_years np_permutation chinese_df western_df seed years).
Proof.
  induction years as [|year rest IH]; simpl.
  - apply quiet_ret.
  - apply quiet_bind; [apply quiet_lift | intros chinese_year].
    apply quiet_bind; [apply quiet_lift | intros western_year].
    destruct (Nat.ltb 0 (Nat.min (len chinese_year) (len western_year))).
    + apply quiet_bind; [apply quiet_sample | intros cs].
      apply quiet_bind; [apply quiet_sample | intros ws].
      apply quiet_bind; [exact IH | intros later]. apply quiet_ret.
    + exact IH.
Qed.

(** The sampler makes no directory and writes no file: it seeds the
    global generator, adds events that are no writes and leaves the rest
    of the world alone. *)
Lemma create_balanced_dataset_quiet (df : DataFrame) (seed : Z) :
  exists evs r,
    filter is_output evs = []
    /\ forall w,
         create_balanced_dataset np_permutation df seed w
         = (mkWorld (Seeded seed) (clock w) (directories w) (trace w ++ evs),
            r).
Proof.
  assert (Hrest : forall k : M DataFrame, quiet k ->
            exists evs r,
              filter is_output evs = []
              /\ forall w,
                   bind (np_random_seed seed) (fun _ => k) w
                   = (mkWorld (Seeded seed) (clock w) (directories w)
                        (trace w ++ evs), r)).
  { intros k [evs [r [Hq Hk]]]. exists evs, r. split; [exact Hq|].
    intros w. unfold bind, np_random_seed. rewrite Hk. reflexivity. }
  apply Hrest.
  apply quiet_bind; [apply quiet_lift | intros chinese_df].
  apply quiet_bind; [apply quiet_lift | intros western_df].
  apply quiet_bind; [apply quiet_lift | intros years].
  apply quiet_bind; [apply quiet_sample_years | intros frames].
  apply quiet_lift.
Qed.

Let run : M (option DataFrame) :=
  main word_tokenize stop_words to_datetime_year np_permutation.

(** [main] once both categories have loaded records: the stages up to the
    filter, then the sampler, then the three events of writing. *)
Lemma main_run (w : World) :
  Nat.eqb (len (load_chinese_state_media w)) 0
  || Nat.eqb (len (load_western_media w)) 0 = false ->
  run w
  = match prepare word_tokenize stop_words to_datetime_year
            (load_chinese_state_media w) (load_western_media w) with
    | Raise e => (add_events w [Timestamp (clock w)], Raise e)
    | Ok filtered_df =>
        match create_balanced_dataset np_permutation filtered_df 42
                (add_events w [Timestamp (clock w)]) with
        | (w2, Ok balanced_df) =>
            (add_events w2 (write_events balanced_df), Ok (Some balanced_df))
        | (w2, Raise e) => (w2, Raise e)
        end
    end.
Proof.
  intros Hloaded. unfold run, main.
  cbv beta iota delta [bind reads emit ret lift].
  set (w1 := mkWorld (np_global w) (clock w) (directories w)
               (trace w ++ [Timestamp (clock w)])).
  rewrite (load_chinese_directories w w1), (load_western_directories w w1)
    by reflexivity.
  rewrite Hloaded.
  change (add_events w [Timestamp (clock w)]) with w1.
  unfold prepare.
  destruct (pd_concat [load_chinese_state_media w; load_western_media w])
    as [combined|e]; [|reflexivity].
  cbn [rbind].
  destruct (where_ (extract_year to_datetime_year
                      (standardize_columns combined))
              "year" (cell_between 2017 2024)) as [ranged|e];
    [|reflexivity].
  cbn [rbind].
  destruct (preprocess_articles word_tokenize stop_words
              (dedup_by_url ranged)) as [processed|e]; [|reflexivity].
  cbn [rbind].
  destruct (filter_short_articles processed MIN_TOKENS) as [filtered|e];
    [|reflexivity].
  destruct (create_balanced_dataset np_permutation filtered 42 w1)
    as [w2 [balanced|e]]; [|reflexivity].
  unfold add_events, write_events, csv_frame, output_dir.
  cbn [np_global clock directories trace].
  rewrite <- !app_assoc. reflexivity.
Qed.

End DriverRuns.

(** What [df[labels]] holds: the rows of the frame, cell for cell, under
    the labels asked for. *)
Lemma project_cells (labels : list string) (df : DataFrame) :
  len (project labels df) = len df
  /\ Forall2
       (fun r r' =>
          forall c, In c labels ->
            row_get (columns (project labels df)) c r'
            = row_get (columns df) c r)
       (rows df) (rows (project labels df)).
Proof.
  unfold project, len. cbn [rows columns]. split; [apply length_map|].
  apply Forall2_map_self. intros r _ c Hc.
  apply row_get_reindex. apply has_column_In. exact Hc.
Qed.

(** The CSV artifact is the balanced frame cut down to the nine CSV
    columns it has: same rows, same cells, in the fixed column order, and
    never the token lists. *)
Theorem csv_frame_contents (balanced_df : DataFrame) :
  len (csv_frame balanced_df) = len balanced_df
  /\ columns (csv_frame balanced_df)
     = filter (fun c => has_column c (columns balanced_df)) csv_columns
  /\ ~ In "tokens" (columns (csv_frame balanced_df))
  /\ Forall2
       (fun r r' =>
          forall c, In c (columns (csv_frame balanced_df)) ->
            row_get (columns (csv_frame balanced_df)) c r'
            = row_get (columns balanced_df) c r)
       (rows balanced_df) (rows (csv_frame balanced_df)).
Proof.
  unfold csv_frame.
  set (labels := filter (fun c => has_column c (columns balanced_df))
                        csv_columns).
  destruct (project_cells labels balanced_df) as [Hlen Hcells].
  split; [exact Hlen|]. split; [reflexivity|]. split; [|exact Hcells].
  cbn [project columns]. unfold labels. intros Hin.
  apply filter_In in Hin. destruct Hin as [Hin _].
  unfold csv_columns in Hin. simpl in Hin.
  repeat (destruct Hin as [Hin | Hin]; [discriminate Hin|]). exact Hin.
Qed.

Section DriverFacts.

Variable word_tokenize : string -> list string.
Variable stop_words : list string.
Variable to_datetime_year : list cell -> result (list cell).
Variable np_permutation : Z -> nat -> list nat.

Let run : M (option DataFrame) :=
  main word_tokenize stop_words to_datetime_year np_permutation.

(** [main] when a category loaded nothing. *)
Lemma main_load_error (w : World) :
  Nat.eqb (len (load_chinese_state_media w)) 0
  || Nat.eqb (len (load_western_media w)) 0 = true ->
  run w
  = (add_events w [Timestamp (clock w); Printed load_error], Ok None).
Proof.
  intros Hcond. unfold run, main.
  cbv beta iota delta [bind reads emit ret].
  set (w1 := mkWorld (np_global w) (clock w) (directories w)
               (trace w ++ [Timestamp (clock w)])).
  rewrite (load_chinese_directories w w1), (load_western_directories w w1)
    by reflexivity.
  rewrite Hcond. subst w1. unfold add_events.
  cbv beta iota delta [np_global clock directories trace].
  rewrite <- app_assoc. reflexivity.
Qed.

(** Nothing is written before the sampler has returned.  When a category
    loads no record, when a stage between loading and sampling raises, or
    when the sampler raises, [main] has by then reached none of
    [os.makedirs], [to_csv] and [to_pickle]: the run adds no event of the
    write stage to those that were there. *)
Theorem nothing_written_before_sampling (w : World) :
  Nat.eqb (len (load_chinese_state_media w)) 0
  || Nat.eqb (len (load_western_media w)) 0 = true
  \/ (exists e,
        prepare word_tokenize stop_words to_datetime_year
          (load_chinese_state_media w) (load_western_media w) = Raise e)
  \/ (exists filtered_df e,
        prepare word_tokenize stop_words to_datetime_year
          (load_chinese_state_media w) (load_western_media w)
        = Ok filtered_df
        /\ value_of (create_balanced_dataset np_permutation filtered_df 42) w
           = Raise e) ->
  filter is_output (events_of run w) = filter is_output (trace w).
Proof.
  unfold value_of, events_of.
  destruct (Nat.eqb (len (load_chinese_state_media w)) 0
            || Nat.eqb (len (load_western_media w)) 0) eqn:Hcond.
  - intros _. rewrite (main_load_error w Hcond). cbn [fst snd add_events trace].
    rewrite filter_app. cbn [filter is_output]. apply app_nil_r.
  - unfold run. rewrite (main_run _ _ _ _ w Hcond).
    intros [Hload | [[e Hprep] | [filtered_df [e [Hprep Hraise]]]]];
      [discriminate Hload | |]; rewrite Hprep.
    + cbn [fst snd add_events trace].
      rewrite filter_app. cbn [filter is_output]. apply app_nil_r.
    + destruct (create_balanced_dataset_quiet np_permutation filtered_df 42)
        as [evs [r [Hq Hrun]]].
      rewrite Hrun in Hraise |- *. cbn [snd] in Hraise. subst r.
      cbn [fst snd add_events trace].
      rewrite !filter_app, Hq. cbn [filter is_output app].
      rewrite !app_nil_r. reflexivity.
Qed.

End DriverFacts.

(** A label of the standardised frame is a label of the input or a
    canonical field one of whose aliases is a label of the input. *)
Lemma standardize_columns_label (df : DataFrame) (x : string) :
  In x (columns (standardize_columns df)) ->
  In x (columns df)
  \/ (In x canonical_fields
      /\ exists a, In a (aliases_of x) /\ In a (columns df)).
Proof.
  unfold standardize_columns. rewrite standardize_fold. cbn [columns].
  rewrite standardize_labels. intros H. apply in_map_iff in H.
  destruct H as [c [Hc Hin]].
  destruct (standard_label_cases (columns df) c) as [E | [k [Hk [E [_ Hfa]]]]].
  - left. congruence.
  - right. rewrite Hc in E. subst k. split; [exact Hk|].
    exists c. split; [apply (first_alias_In _ _ _ Hfa) | exact Hin].
Qed.

(** A label that is neither a canonical field nor an alias is where it
    was: same position, hence same cells. *)
Lemma standardize_columns_keeps (df : DataFrame) (x : string) (r : row) :
  ~ In x canonical_fields ->
  (forall k, In k canonical_fields -> ~ In x (aliases_of k)) ->
  row_get (columns (standardize_columns df)) x r = row_get (columns df) x r
  /\ has_column x (columns (standardize_columns df))
     = has_column x (columns df).
Proof.
  intros Hcanon Halias.
  unfold standardize_columns. rewrite standardize_fold. cbn [columns].
  rewrite standardize_labels. set (cols := columns df).
  assert (Hiff : forall c, String.eqb x (standard_label cols c)
                           = String.eqb x c).
  { intros c.
    destruct (standard_label_cases cols c) as [E | [k [Hk [E [_ Hfa]]]]].
    - rewrite E. reflexivity.
    - rewrite E.
      assert (H1 : x <> k) by (intros ->; contradiction).
      assert (H2 : x <> c).
      { intros ->. apply (Halias k Hk).
        apply (first_alias_In _ _ _ Hfa). }
      apply String.eqb_neq in H1, H2. congruence. }
  assert (Hidx : forall l, col_index x (map (standard_label cols) l)
                           = col_index x l).
  { induction l as [|c l IH]; [reflexivity|]. simpl.
    rewrite Hiff, IH. reflexivity. }
  split.
  - unfold row_get. rewrite Hidx. reflexivity.
  - unfold has_column.
    assert (Hhas : forall l, existsb (String.eqb x)
                               (map (standard_label cols) l)
                             = existsb (String.eqb x) l).
    { induction l as [|c l IH]; [reflexivity|]. simpl.
      rewrite Hiff, IH. reflexivity. }
    apply Hhas.
Qed.

Lemma dedup_by_url_columns (df : DataFrame) :
  columns (dedup_by_url df) = columns df.
Proof.
  unfold dedup_by_url. destruct (has_column "url" (columns df)); reflexivity.
Qed.

Lemma preprocess_no_text (word_tokenize : string -> list string)
  (stop_words : list string) (df : DataFrame) :
  text_column df = None ->
  preprocess_articles word_tokenize stop_words df = Ok df.
Proof.
  unfold text_column, preprocess_articles. intros ->. reflexivity.
Qed.

Lemma filter_short_no_count (df : DataFrame) (min_tokens : Z) :
  has_column "token_count" (columns df) = false ->
  filter_short_articles df min_tokens = Raise (KeyError "token_count").
Proof.
  unfold filter_short_articles, where_. intros ->. reflexivity.
Qed.

Lemma where_columns (df : DataFrame) (c : string)
  (test : cell -> result bool) :
  has_column c (columns df) = true ->
  (forall r, In r (rows df) ->
     exists b, test (row_get (columns df) c r) = Ok b) ->
  exists out, where_ df c test = Ok out /\ columns out = columns df.
Proof.
  intros Hc Hall. unfold where_. rewrite Hc.
  destruct (filter_rows_returns
              (fun r => test (row_get (columns df) c r)) (rows df) Hall)
    as [kept Hkept].
  rewrite Hkept. eexists. split; reflexivity.
Qed.

Lemma standardize_columns_rows (df : DataFrame) :
  rows (standardize_columns df) = rows df.
Proof.
  unfold standardize_columns. rewrite standardize_fold. reflexivity.
Qed.

(** The preparation of a combined frame without any text column. *)
Lemma prepare_no_text (word_tokenize : string -> list string)
  (stop_words : list string)
  (to_datetime_year : list cell -> result (list cell))
  (raw : DataFrame) :
  In "year" (columns raw) ->
  (forall r, In r (rows raw) ->
     year_of raw r = Val NaN \/ exists z, year_of raw r = Val (Int z)) ->
  (forall c, In c ("token_count" :: text_sources) ->
     ~ In c (columns raw)) ->
  rbind (where_ (extract_year to_datetime_year (standardize_columns raw))
           "year" (cell_between 2017 2024)) (fun combined_df =>
  rbind (preprocess_articles word_tokenize stop_words
           (dedup_by_url combined_df)) (fun combined_df =>
  filter_short_articles combined_df MIN_TOKENS))
  = Raise (KeyError "token_count").
Proof.
  intros Hyear Hnum Hnone.
  assert (Hkeep : forall r,
            row_get (columns (standardize_columns raw)) "year" r
            = row_get (columns raw) "year" r
            /\ has_column "year" (columns (standardize_columns raw))
               = has_column "year" (columns raw)).
  { intros r. apply standardize_columns_keeps.
    - simpl. intros [E | [E | [E | []]]]; discriminate E.
    - intros k Hk. simpl in Hk.
      destruct Hk as [<- | [<- | [<- | []]]]; vm_compute;
        intuition discriminate. }
  assert (Hhas : has_column "year" (columns (standardize_columns raw))
                 = true).
  { rewrite (proj2 (Hkeep [])). apply has_column_In. exact Hyear. }
  assert (Habsent : forall x, In x ["body_text"; "text"; "content"; "body";
                                    "token_count"] ->
            has_column x (columns (standardize_columns raw)) = false).
  { intros x Hx. apply has_column_not_In. intros Hin.
    apply standardize_columns_label in Hin.
    destruct Hin as [Hin | [Hcanon [a [Ha Hin]]]].
    - apply (Hnone x); [|exact Hin].
      simpl in Hx. unfold text_sources. simpl. tauto.
    - apply (Hnone a); [|exact Hin].
      simpl in Hx, Hcanon.
      destruct Hx as [<- | [<- | [<- | [<- | [<- | []]]]]];
        try (destruct Hcanon as [E | [E | [E | []]]]; discriminate E).
      vm_compute in Ha. unfold text_sources. simpl. tauto. }
  assert (Hnumeric : forall r, In r (rows (standardize_columns raw)) ->
            exists b, cell_between 2017 2024
                        (row_get (columns (standardize_columns raw))
                           "year" r) = Ok b).
  { intros r Hr. rewrite (proj1 (Hkeep r)).
    rewrite standardize_columns_rows in Hr.
    destruct (Hnum r Hr) as [E | [z E]]; unfold year_of in E; rewrite E;
      eexists; reflexivity. }
  revert Hhas Habsent Hnumeric.
  generalize (standardize_columns raw). intros std Hhas Habsent Hnumeric.
  assert (Hext : extract_year to_datetime_year std = std).
  { unfold extract_year. rewrite Hhas. reflexivity. }
  rewrite Hext.
  destruct (where_columns std "year" (cell_between 2017 2024) Hhas Hnumeric)
    as [ranged [Hranged Hcols]].
  rewrite Hranged. cbn [rbind].
  rewrite preprocess_no_text.
  - cbn [rbind]. apply filter_short_no_count.
    rewrite dedup_by_url_columns, Hcols. apply Habsent.
    do 4 right. left. reflexivity.
  - unfold text_column. rewrite dedup_by_url_columns, Hcols.
    cbn [find]. rewrite !Habsent by (simpl; auto). reflexivity.
Qed.

Section DriverOutcomes.

Variable word_tokenize : string -> list string.
Variable stop_words : list string.
Variable to_datetime_year : list cell -> result (list cell).
Variable np_permutation : Z -> nat -> list nat.

Let run : M (option DataFrame) :=
  main word_tokenize stop_words to_datetime_year np_permutation.

Let prepared (w : World) : result DataFrame :=
  prepare word_tokenize stop_words to_datetime_year
    (load_chinese_state_media w) (load_western_media w).

(** A run whose preparation raises ends with that exception. *)
Lemma main_prepare_raises (w : World) (e : exn) :
  both_loaded w -> prepared w = Raise e -> value_of run w = Raise e.
Proof.
  intros Hloaded Hprep. unfold value_of, run.
  rewrite (main_run _ _ _ _ w Hloaded).
  fold (prepared w). rewrite Hprep. reflexivity.
Qed.

(** A run that returns a frame went through every stage. *)
Lemma main_complete_inv (w : World) (out : DataFrame) :
  value_of run w = Ok (Some out) ->
  exists filtered w1,
    prepared w = Ok filtered
    /\ value_of (create_balanced_dataset np_permutation filtered 42) w1
       = Ok out.
Proof.
  unfold value_of, run.
  destruct (Nat.eqb (len (load_chinese_state_media w)) 0
            || Nat.eqb (len (load_western_media w)) 0) eqn:Hcond.
  - rewrite (main_load_error _ _ _ _ w Hcond). simpl. discriminate.
  - rewrite (main_run _ _ _ _ w Hcond). fold (prepared w).
    destruct (prepared w) as [filtered|e]; [|simpl; discriminate].
    destruct (create_balanced_dataset np_permutation filtered 42
                (add_events w [Timestamp (clock w)]))
      as [w2 [balanced|e]] eqn:Hrun; simpl; [|discriminate].
    intros H. injection H as <-.
    exists filtered, (add_events w [Timestamp (clock w)]).
    split; [reflexivity|]. rewrite Hrun. reflexivity.
Qed.

Lemma prepare_filtered (w : World) (filtered : DataFrame) :
  prepared w = Ok filtered ->
  exists processed,
    filter_short_articles processed MIN_TOKENS = Ok filtered.
Proof.
  unfold prepared, prepare. cbn [pd_concat rbind].
  destruct (where_ _ "year" _) as [d2|e]; cbn [rbind]; [|discriminate].
  destruct (preprocess_articles _ _ _) as [d3|e]; cbn [rbind];
    [|discriminate].
  eauto.
Qed.

(** Without a [year] column and without any date column in what was
    loaded, [main] ends with [KeyError('year')]: the year extractor
    returns the frame as it is and the range filter finds no column. *)
Theorem no_date_column_is_fatal (w : World) :
  both_loaded w ->
  (forall c, In c year_sources -> ~ In c (columns (loaded w))) ->
  value_of run w = Raise (KeyError "year").
Proof.
  intros Hloaded Hnone. apply (main_prepare_raises w _ Hloaded).
  unfold prepared, prepare. cbn [pd_concat rbind]. fold (loaded w).
  assert (Habsent : forall x, In x ["year"; "publication_date"] ->
            has_column x (columns (standardize_columns (loaded w))) = false).
  { intros x Hx. apply has_column_not_In. intros Hin.
    apply standardize_columns_label in Hin.
    destruct Hin as [Hin | [Hcanon [a [Ha Hin]]]].
    - apply (Hnone x); [|exact Hin].
      simpl in Hx. unfold year_sources. simpl. tauto.
    - apply (Hnone a); [|exact Hin].
      simpl in Hx, Hcanon. destruct Hx as [<- | [<- | []]].
      + destruct Hcanon as [E | [E | [E | []]]]; discriminate E.
      + vm_compute in Ha. unfold year_sources. simpl. tauto. }
  unfold extract_year.
  rewrite (Habsent "year"), (Habsent "publication_date") by (simpl; auto).
  unfold where_. rewrite (Habsent "year") by (simpl; auto). reflexivity.
Qed.

(** With a numeric [year] column but without any text column in what was
    loaded, [main] ends with [KeyError('token_count')]: preprocessing
    reports the missing text column by returning the frame as it is, and
    the content filter then looks for a column that was never made. *)
Theorem no_text_column_is_fatal (w : World) :
  both_loaded w ->
  In "year" (columns (loaded w)) ->
  (forall r, In r (rows (loaded w)) ->
     year_of (loaded w) r = Val NaN
     \/ exists z, year_of (loaded w) r = Val (Int z)) ->
  (forall c, In c ("token_count" :: text_sources) ->
     ~ In c (columns (loaded w))) ->
  value_of run w = Raise (KeyError "token_count").
Proof.
  intros Hloaded Hyear Hnum Hnone. apply (main_prepare_raises w _ Hloaded).
  unfold prepared, prepare. cbn [pd_concat rbind].
  apply (prepare_no_text word_tokenize stop_words to_datetime_year
           (loaded w) Hyear Hnum Hnone).
Qed.

End DriverOutcomes.

Section CompletedRuns.

Variable word_tokenize : string -> list string.
Variable stop_words : list string.
Variable to_datetime_year : list cell -> result (list cell).
Variable np_permutation : Z -> nat -> list nat.

Hypothesis np_permutation_spec :
  forall seed n, Permutation (np_permutation seed n) (seq 0 n).

(** Every record of the frame a complete run returns went through every
    stage: it has at least [MIN_TOKENS] tokens, one of the two category
    labels and a year of 2017..2024. *)
Theorem completed_run_records (w : World) (out : DataFrame) (r' : row) :
  value_of (main word_tokenize stop_words to_datetime_year np_permutation) w
  = Ok (Some out) ->
  In r' (rows out) ->
  enough_tokens out MIN_TOKENS r' = true
  /\ (category_of out r' = chinese_label
      \/ category_of out r' = western_label)
  /\ exists y, year_of out r' = Val (Int y) /\ (2017 <= y <= 2024)%Z.
Proof.
  intros Hrun Hr'.
  destruct (main_complete_inv _ _ _ _ w out Hrun)
    as [filtered [w1 [Hprep Hval]]].
  destruct (prepare_filtered _ _ _ w filtered Hprep) as [processed Hfilter].
  unfold filter_short_articles in Hfilter. apply where_inv in Hfilter.
  destruct Hfilter as [Hcount [Hcols Hrows]].
  destruct (balanced_output_shape np_permutation filtered 42 w1 out Hval)
    as [years [_ [Hcat [Hyear [_ _]]]]].
  destruct (balanced_rows_source np_permutation np_permutation_spec
              filtered 42 w1 out r' Hval Hr')
    as [Hout [r [Hr [_ [Hcells [Hlabel [y [Hy Hrange]]]]]]]].
  apply has_column_In in Hcat, Hyear, Hcount. rewrite <- Hcols in Hcount.
  split; [|split].
  - unfold enough_tokens. rewrite (Hcells "token_count" Hcount).
    rewrite Hrows in Hr. apply filter_In in Hr. destruct Hr as [_ Hpass].
    rewrite passes_cell_ge in Hpass. unfold enough_tokens in Hpass.
    rewrite Hcols. exact Hpass.
  - unfold category_of in *. rewrite (Hcells "source_category" Hcat).
    exact Hlabel.
  - exists y. unfold year_of in *. rewrite (Hcells "year" Hyear).
    split; [exact Hy | exact Hrange].
Qed.

End CompletedRuns.

(** ** The length of the cleaned text *)

Lemma delete_urls_length (l : list ascii) : forall inside,
  (length (delete_urls inside l) <= length l)%nat.
Proof.
  induction l as [|c t IH]; intros inside; [apply Nat.le_refl|].
  cbn [delete_urls].
  pose proof (IH false) as Hf. pose proof (IH true) as Ht.
  destruct (isspace c); [cbn [length]; lia|].
  destruct (inside || starts_url (c :: t)); cbn [length]; lia.
Qed.

Lemma delete_tags_length (l : list ascii) : forall inside,
  (length (delete_tags inside l) <= length l)%nat.
Proof.
  induction l as [|c t IH]; intros inside; [apply Nat.le_refl|].
  cbn [delete_tags].
  pose proof (IH false) as Hf. pose proof (IH true) as Ht.
  destruct inside.
  - destruct (Ascii.eqb ">" c); cbn [length]; lia.
  - destruct (opens_tag (c :: t)); cbn [length]; lia.
Qed.

Lemma collapse_spaces_length (l : list ascii) : forall after_space,
  (length (collapse_spaces after_space l) <= length l)%nat.
Proof.
  induction l as [|c t IH]; intros after_space; [apply Nat.le_refl|].
  cbn [collapse_spaces].
  pose proof (IH false) as Hf. pose proof (IH true) as Ht.
  destruct (isspace c); [destruct after_space|]; cbn [length]; lia.
Qed.

Lemma lstrip_length (l : list ascii) : (length (lstrip l) <= length l)%nat.
Proof.
  destruct (lstrip_suffix l) as [pre H]. rewrite H at 2.
  rewrite length_app. lia.
Qed.

Lemma strip_length (l : list ascii) : (length (strip l) <= length l)%nat.
Proof.
  unfold strip. rewrite length_rev.
  pose proof (lstrip_length (rev (lstrip l))) as H1.
  pose proof (lstrip_length l) as H2.
  rewrite length_rev in H1. lia.
Qed.

Lemma string_length_chars (s : string) :
  String.length s = length (list_ascii_of_string s).
Proof.
  induction s as [|c s IH]; simpl; [reflexivity | rewrite IH; reflexivity].
Qed.

(** Cleaning never makes a text longer: every substitution puts at most
    one character where it found at least one. *)
Theorem clean_text_never_longer (s : string) :
  (String.length (clean_text (Str s)) <= String.length s)%nat.
Proof.
  unfold clean_text. rewrite !string_length_chars.
  rewrite list_ascii_of_string_of_list_ascii, clean_chars_steps.
  unfold clean_steps, blank_specials.
  set (l := list_ascii_of_string s).
  pose proof (delete_urls_length l false) as H1.
  pose proof (delete_tags_length (delete_urls false l) false) as H2.
  pose proof (collapse_spaces_length
                (map (fun c => if whitelisted c then c else " "%char)
                   (delete_tags false (delete_urls false l))) false) as H3.
  rewrite length_map in H3.
  pose proof (strip_length
                (collapse_spaces false
                   (map (fun c => if whitelisted c then c else " "%char)
                      (delete_tags false (delete_urls false l))))) as H4.
  lia.
Qed.

(** ** The theorems at sample inputs *)

Lemma missing_text_is_filtered_witness :
  exists r',
    nth_error (rows raw_articles_preprocessed) 1 = Some r'
    /\ row_get (columns raw_articles_preprocessed) "clean_text" r'
       = Val (Str EmptyString)
    /\ row_get (columns raw_articles_preprocessed) "token_count" r'
       = Val (Int 0)
    /\ ~ In r' (rows (mkDataFrame (columns raw_articles_preprocessed) [])).
Proof.
  apply (missing_text_is_filtered plain_words [] raw_articles
           raw_articles_preprocessed
           (mkDataFrame (columns raw_articles_preprocessed) [])
           "body" 20 1 [Val (Str "http://b"); Val NaN]).
  - reflexivity.
  - vm_compute. reflexivity.
  - vm_compute. reflexivity.
  - lia.
  - reflexivity.
  - intros s. vm_compute. discriminate.
Defined.

Lemma filter_short_articles_raises_witness :
  filter_short_articles copies_without_url 20 = Raise (KeyError "token_count")
  /\ filter_short_articles mislabelled_counts 20 = Raise TypeError.
Proof.
  split.
  - apply (proj1 (filter_short_articles_raises copies_without_url 20)).
    reflexivity.
  - apply (proj2 (filter_short_articles_raises mislabelled_counts 20)).
    + reflexivity.
    + exists [Val (Str "worded"); Val (Str "many")].
      split; [right; left; reflexivity | reflexivity].
Defined.

Lemma balanced_rows_from_input_witness :
  columns stratified_balanced = columns stratified_articles
  /\ exists r,
       In r (rows stratified_articles)
       /\ hd [] (rows stratified_balanced)
          = reindex (columns stratified_articles)
              (columns stratified_articles) r
       /\ (forall c, In c (columns stratified_articles) ->
             row_get (columns stratified_balanced) c
               (hd [] (rows stratified_balanced))
             = row_get (columns stratified_articles) c r)
       /\ (category_of stratified_articles r = chinese_label
           \/ category_of stratified_articles r = western_label)
       /\ exists y, year_of stratified_articles r = Val (Int y)
                    /\ (2017 <= y <= 2024)%Z.
Proof.
  apply (balanced_rows_from_input reversing reversing_spec
           stratified_articles 42 bare_world stratified_balanced).
  - vm_compute. reflexivity.
  - left. reflexivity.
Defined.

Lemma balanced_frame_layout_witness :
  exists years,
    available_years stratified_articles = Ok years
    /\ StronglySorted Z.lt years
    /\ map (category_year stratified_balanced) (rows stratified_balanced)
       = balanced_layout stratified_articles years.
Proof.
  apply (balanced_frame_layout reversing reversing_spec stratified_articles
           42 bare_world stratified_balanced).
  vm_compute. reflexivity.
Defined.

Lemma smaller_category_kept_witness :
  In (reindex (columns stratified_articles) (columns stratified_articles)
        [Val (Str "c1"); Val (Str "Chinese State Media"); Val (Int 2021);
         Val (Int 30)])
     (rows stratified_balanced).
Proof.
  apply (smaller_category_kept reversing reversing_spec stratified_articles
           42 bare_world stratified_balanced chinese_label western_label
           2021).
  - vm_compute. reflexivity.
  - left. split; reflexivity.
  - lia.
  - vm_compute. lia.
  - left. reflexivity.
  - reflexivity.
  - reflexivity.
Defined.

Lemma balanced_rows_distinct_witness :
  NoDup (rows stratified_balanced)
  /\ incl (rows stratified_balanced) (rows stratified_articles).
Proof.
  apply (balanced_rows_distinct reversing reversing_spec stratified_articles
           42 bare_world stratified_balanced).
  - split.
    + repeat constructor; simpl; intuition discriminate.
    + intros r Hr. simpl in Hr.
      repeat (destruct Hr as [<- | Hr]; [reflexivity|]). contradiction.
  - repeat constructor; simpl; intuition discriminate.
  - vm_compute. reflexivity.
Defined.

Lemma no_date_column_is_fatal_witness :
  value_of (main plain_words [] (fun col => Ok col) reversing) small_world
  = Raise (KeyError "year").
Proof.
  apply (no_date_column_is_fatal plain_words [] (fun col => Ok col) reversing
           small_world).
  - vm_compute. reflexivity.
  - intros c Hc Hin. vm_compute in Hc, Hin.
    repeat (destruct Hc as [<- | Hc]; [intuition discriminate|]).
    exact Hc.
Defined.

Lemma no_text_column_is_fatal_witness :
  value_of (main plain_words [] (fun col => Ok col) reversing) headlines_world
  = Raise (KeyError "token_count").
Proof.
  apply (no_text_column_is_fatal plain_words [] (fun col => Ok col) reversing
           headlines_world).
  - vm_compute. reflexivity.
  - vm_compute. tauto.
  - intros r Hr. vm_compute in Hr.
    destruct Hr as [<- | [<- | []]]; right; eexists; vm_compute; reflexivity.
  - intros c Hc Hin. vm_compute in Hc, Hin.
    repeat (destruct Hc as [<- | Hc]; [intuition discriminate|]).
    exact Hc.
Defined.

Lemma completed_run_records_witness :
  enough_tokens common_year_balanced MIN_TOKENS
    (hd [] (rows common_year_balanced)) = true
  /\ (category_of common_year_balanced (hd [] (rows common_year_balanced))
      = chinese_label
      \/ category_of common_year_balanced (hd [] (rows common_year_balanced))
         = western_label)
  /\ exists y,
       year_of common_year_balanced (hd [] (rows common_year_balanced))
       = Val (Int y)
       /\ (2017 <= y <= 2024)%Z.
Proof.
  apply (completed_run_records plain_words [] (fun col => Ok col) reversing
           reversing_spec common_year_world common_year_balanced).
  - vm_compute. reflexivity.
  - left. reflexivity.
Defined.

(** ** The source of a GDELT record *)

(** A GDELT extract keeps its records; with a [source_name] column the
    source of every record is its own source name and every other cell
    stays, without it a frame that has a source is returned as it is and a
    frame that has none gets the source [Western Media]. *)
Theorem gdelt_source_rule (df : DataFrame) :
  len (gdelt_source df) = len df
  /\ (has_column "source_name" (columns df) = true ->
      Forall2
        (fun r r' =>
           row_get (columns (gdelt_source df)) "source" r'
           = row_get (columns df) "source_name" r
           /\ forall c, c <> "source" ->
                row_get (columns (gdelt_source df)) c r'
                = row_get (columns df) c r)
        (rows df) (rows (gdelt_source df)))
  /\ (has_column "source_name" (columns df) = false ->
      has_column "source" (columns df) = true ->
      gdelt_source df = df)
  /\ (has_column "source_name" (columns df) = false ->
      has_column "source" (columns df) = false ->
      forall r', In r' (rows (gdelt_source df)) ->
        row_get (columns (gdelt_source df)) "source" r'
        = Val (Str "Western Media")).
Proof.
  split; [apply gdelt_source_len|].
  unfold gdelt_source. split; [|split].
  - intros ->.
    rewrite (set_column_map "source" (row_get (columns df) "source_name")
               (fun r => r) (rows df) df) by (symmetry; apply map_id).
    cbn [columns rows]. apply Forall2_map_self. intros r _. split.
    + apply put_cell_same.
    + intros c Hc. apply put_cell_other. exact Hc.
  - intros -> ->. reflexivity.
  - intros -> -> r' Hr'. cbn [negb] in *.
    apply (set_column_const_cells "source" (Val (Str "Western Media")) df r'
             Hr').
Qed.

Lemma gdelt_source_rule_witness :
  Forall2
    (fun r r' =>
       row_get (columns (gdelt_source gdelt_extract)) "source" r'
       = row_get (columns gdelt_extract) "source_name" r
       /\ forall c, c <> "source" ->
            row_get (columns (gdelt_source gdelt_extract)) c r'
            = row_get (columns gdelt_extract) c r)
    (rows gdelt_extract) (rows (gdelt_source gdelt_extract)).
Proof.
  apply (proj1 (proj2 (gdelt_source_rule gdelt_extract))). reflexivity.
Defined.

(** ** What a run depends on *)

Section DriverInputs.

Variable word_tokenize : string -> list string.
Variable stop_words : list string.
Variable to_datetime_year : list cell -> result (list cell).
Variable np_permutation : Z -> nat -> list nat.

Let run : M (option DataFrame) :=
  main word_tokenize stop_words to_datetime_year np_permutation.


End DriverInputs.


Lemma dedup_by_url_idempotent_witness :
  dedup_by_url gdelt_extract = gdelt_extract.
Proof.
  apply (proj1 (dedup_by_url_idempotent gdelt_extract)).
  repeat constructor; simpl; intuition discriminate.
Defined.

Lemma nothing_written_before_sampling_witness :
  filter is_output
    (events_of (main plain_words [] (fun col => Ok col) reversing)
       disjoint_years_world)
  = filter is_output (trace disjoint_years_world).
Proof.
  apply (nothing_written_before_sampling plain_words [] (fun col => Ok col)
           reversing disjoint_years_world).
  right. right. eexists. eexists.
  split; vm_compute; reflexivity.
Defined.
